(** * The GPU driver of mgpusim: dispatch loop, unified kernel launch and
      page-migration orchestrator ([amd/driver/driver.go]).

    The driver is embedded as a state-and-panic monad over a record [Driver]
    that carries the fields of the Go struct which the tick thread reads or
    writes.  Go panics (explicit ones, index errors, nil dereferences and
    integer division by zero) are the [Panic] outcomes of [result]. *)

From stdpp Require Import gmap list.
From Stdlib Require Import ZArith Lia Sorted.

Local Open Scope Z_scope.

(** ** Machine integers *)

(** [uint64], [uint32] and the 64-bit [int] of Go, as wrapped integers. *)
Definition u64 (x : Z) : Z := x mod 2 ^ 64.
Definition u32 (x : Z) : Z := x mod 2 ^ 32.
Definition int (x : Z) : Z := (x + 2 ^ 63) mod 2 ^ 64 - 2 ^ 63.

(** ** Panics *)

Inductive panic : Type :=
| IndexOutOfRange
| NilDereference
| DivideByZero
| NotAllWGAllocated        (* "not all wg allocated" *)
| CannotFindCommand        (* "cannot find command" *)
| PageNotFound             (* "page not founds" *)
| ProcessDoesNotExist      (* "Process does not exist" *)
| CannotHandleMMURequest   (* "Driver cannot handle request of type ..." *)
| MiddlewarePanic.

Inductive result (A : Type) : Type :=
| Ok (a : A)
| Panic (p : panic).
Arguments Ok {A} a.
Arguments Panic {A} p.

Definition rbind {A B} (r : result A) (k : A -> result B) : result B :=
  match r with
  | Ok a => k a
  | Panic p => Panic p
  end.

(** [l[i]] on a Go slice, with an [int] index. *)
Definition index {A} (l : list A) (i : Z) : result A :=
  if i <? 0 then Panic IndexOutOfRange
  else match l !! Z.to_nat i with
       | Some a => Ok a
       | None => Panic IndexOutOfRange
       end.

Arguments index : simpl never.
Arguments u64 : simpl never.
Arguments u32 : simpl never.
Arguments int : simpl never.

(** ** Messages *)

Definition Port := nat.
Definition PID := Z.

Record MsgMeta := { ID : nat; Src : Port; Dst : Port }.

(** The fields of [kernels.HsaKernelDispatchPacket] and [kernels.WorkGroup]
    that the driver reads. *)
Record HsaKernelDispatchPacket := {
  WorkgroupSizeX : Z; WorkgroupSizeY : Z; WorkgroupSizeZ : Z;  (* uint16 *)
  GridSizeX : Z; GridSizeY : Z; GridSizeZ : Z                  (* uint32 *)
}.

Record WorkGroup := { IDX : Z; IDY : Z; IDZ : Z }.             (* int *)

(** The closure assigned to [req.WGFilter]: it captures the slice [wgDist]
    and [currentGPUIndex]; its body is [WGFilter_apply] below. *)
Record WGFilterClosure := { captured_wgDist : list Z; currentGPUIndex : Z }.

Record LaunchKernelReq := {
  lkr_meta : MsgMeta;
  lkr_PID : PID;
  HsaCo : nat;
  lkr_Packet : HsaKernelDispatchPacket;
  PacketAddress : Z;
  WGFilter : option WGFilterClosure
}.

Record ShootDownCommand := {
  sdc_meta : MsgMeta; sdc_VAddr : list Z; sdc_PID : PID
}.

Record PageMigrationReqToCP := {
  pmr_meta : MsgMeta;
  ToReadFromPhysicalAddress : Z;
  ToWriteToPhysicalAddress : Z;
  DestinationPMCPort : Port;
  pmr_PageSize : Z
}.

Record LaunchKernelRsp := { lkrsp_meta : MsgMeta; RspTo : nat }.

Record PageMigrationReqToDriver := {
  pmd_meta : MsgMeta;
  GPUReqToVAddrMap : gmap Z (list Z);     (* MigrationInfo.GPUReqToVAddrMap *)
  CurrAccessingGPUs : list Z;
  pmd_PID : PID;
  CurrPageHostGPU : Z;
  pmd_PageSize : Z;
  RespondToTop : bool
}.

Record PageMigrationRspFromDriver := {
  pmrsp_meta : MsgMeta;
  rsp_VAddr : list Z;
  RspToTop : bool;
  OriginalReq : PageMigrationReqToDriver
}.

Inductive Msg : Type :=
| MLaunchKernelReq (r : LaunchKernelReq)
| MRDMADrainCmdFromDriver (m : MsgMeta)
| MShootDownCommand (r : ShootDownCommand)
| MPageMigrationReqToCP (r : PageMigrationReqToCP)
| MGPURestartReq (m : MsgMeta)
| MRDMARestartCmdFromDriver (m : MsgMeta)
| MLaunchKernelRsp (r : LaunchKernelRsp)
| MRDMADrainRspToDriver (m : MsgMeta)
| MShootDownCompleteRsp (m : MsgMeta)
| MPageMigrationRspToDriver (m : MsgMeta)
| MRDMARestartRspToDriver (m : MsgMeta)
| MGPURestartRsp (m : MsgMeta)
| MPageMigrationReqToDriver (r : PageMigrationReqToDriver)
| MPageMigrationRspFromDriver (r : PageMigrationRspFromDriver)
| MOther (kind : nat) (m : MsgMeta).

#[global] Instance MsgMeta_eq_dec : EqDecision MsgMeta.
Proof. solve_decision. Defined.
#[global] Instance HsaKernelDispatchPacket_eq_dec :
  EqDecision HsaKernelDispatchPacket.
Proof. solve_decision. Defined.
#[global] Instance WGFilterClosure_eq_dec : EqDecision WGFilterClosure.
Proof. solve_decision. Defined.
#[global] Instance LaunchKernelReq_eq_dec : EqDecision LaunchKernelReq.
Proof. solve_decision. Defined.
#[global] Instance ShootDownCommand_eq_dec : EqDecision ShootDownCommand.
Proof. solve_decision. Defined.
#[global] Instance PageMigrationReqToCP_eq_dec :
  EqDecision PageMigrationReqToCP.
Proof. solve_decision. Defined.
#[global] Instance LaunchKernelRsp_eq_dec : EqDecision LaunchKernelRsp.
Proof. solve_decision. Defined.
#[global] Instance PageMigrationReqToDriver_eq_dec :
  EqDecision PageMigrationReqToDriver.
Proof. solve_decision. Defined.
#[global] Instance PageMigrationRspFromDriver_eq_dec :
  EqDecision PageMigrationRspFromDriver.
Proof. solve_decision. Defined.
#[global] Instance Msg_eq_dec : EqDecision Msg.
Proof. solve_decision. Defined.

Definition Meta (m : Msg) : MsgMeta :=
  match m with
  | MLaunchKernelReq r => lkr_meta r
  | MShootDownCommand r => sdc_meta r
  | MPageMigrationReqToCP r => pmr_meta r
  | MLaunchKernelRsp r => lkrsp_meta r
  | MPageMigrationReqToDriver r => pmd_meta r
  | MPageMigrationRspFromDriver r => pmrsp_meta r
  | MRDMADrainCmdFromDriver m | MGPURestartReq m
  | MRDMARestartCmdFromDriver m | MRDMADrainRspToDriver m
  | MShootDownCompleteRsp m | MPageMigrationRspToDriver m
  | MRDMARestartRspToDriver m | MGPURestartRsp m | MOther _ m => m
  end.

(** ** Ports

    A [sim.Port] as the driver uses it: [Send] either fails and leaves the
    port as it was (the outgoing buffer is full) or appends the message to the
    outgoing buffer; [PeekIncoming] shows the head of the incoming buffer and
    [RetrieveIncoming] removes it. *)
Record PortState := {
  portName : Port;
  incoming : list Msg;
  outgoing : list Msg;
  outCapacity : nat
}.

Definition Send (m : Msg) (p : PortState) : option PortState :=
  if bool_decide (length (outgoing p) < outCapacity p)%nat
  then Some {| portName := portName p; incoming := incoming p;
               outgoing := outgoing p ++ [m]; outCapacity := outCapacity p |}
  else None.

Definition PeekIncoming (p : PortState) : option Msg := head (incoming p).

Definition RetrieveIncoming (p : PortState) : option Msg * PortState :=
  (head (incoming p),
   {| portName := portName p; incoming := tail (incoming p);
      outgoing := outgoing p; outCapacity := outCapacity p |}).

(** ** Commands, queues and contexts *)

Record LaunchKernelCommand := {
  lk_ID : nat; lk_CodeObject : nat; lk_Packet : HsaKernelDispatchPacket;
  lk_DPacket : Z; lk_Reqs : list Msg
}.

Record LaunchUnifiedMultiGPUKernelCommand := {
  lu_ID : nat; lu_CodeObject : nat;
  PacketArray : list HsaKernelDispatchPacket;
  DPacketArray : list Z; lu_Reqs : list Msg
}.

(** [COther] stands for the command types defined next to the middlewares. *)
Inductive Command : Type :=
| CLaunchKernel (c : LaunchKernelCommand)
| CNoop (id : nat)
| CLaunchUnified (c : LaunchUnifiedMultiGPUKernelCommand)
| COther (kind : nat) (id : nat) (reqs : list Msg).

Definition GetReqs (c : Command) : list Msg :=
  match c with
  | CLaunchKernel c => lk_Reqs c
  | CNoop _ => []
  | CLaunchUnified c => lu_Reqs c
  | COther _ _ reqs => reqs
  end.

Definition SetReqs (reqs : list Msg) (c : Command) : Command :=
  match c with
  | CLaunchKernel c =>
      CLaunchKernel {| lk_ID := lk_ID c; lk_CodeObject := lk_CodeObject c;
                       lk_Packet := lk_Packet c; lk_DPacket := lk_DPacket c;
                       lk_Reqs := reqs |}
  | CNoop id => CNoop id
  | CLaunchUnified c =>
      CLaunchUnified {| lu_ID := lu_ID c; lu_CodeObject := lu_CodeObject c;
                        PacketArray := PacketArray c;
                        DPacketArray := DPacketArray c; lu_Reqs := reqs |}
  | COther k id _ => COther k id reqs
  end.

(** Removal of the first occurrence, as [RemoveReq] needs it. *)
Fixpoint removeMsgFromMsgList (msg : Msg) (msgs : list Msg) : list Msg :=
  match msgs with
  | [] => []
  | m :: rest =>
      if decide (m = msg) then rest else m :: removeMsgFromMsgList msg rest
  end.

(** Modelled from the spec: [Command.RemoveReq], declared with the command
    types outside this file.  "The matching request is removed from the
    command": the request handed over is taken out of the command's list of
    outstanding requests. *)
Definition RemoveReq (req : Msg) (c : Command) : Command :=
  SetReqs (removeMsgFromMsgList req (GetReqs c)) c.

Record CommandQueue := {
  IsRunning : bool;
  GPUID : Z;
  commands : list Command
}.

(** Modelled from the spec: [CommandQueue.Peek], [NumCommand] and [Dequeue],
    declared with the queue outside this file.  The queue is a FIFO whose
    "head remains visible via Peek until it completes"; [Dequeue] drops the
    head. *)
Definition Peek (q : CommandQueue) : option Command := head (commands q).
Definition NumCommand (q : CommandQueue) : nat := length (commands q).
Definition Dequeue (q : CommandQueue) : CommandQueue :=
  {| IsRunning := IsRunning q; GPUID := GPUID q;
     commands := tail (commands q) |}.

Definition setIsRunning (b : bool) (q : CommandQueue) : CommandQueue :=
  {| IsRunning := b; GPUID := GPUID q; commands := commands q |}.

Definition setHead (c : Command) (q : CommandQueue) : CommandQueue :=
  {| IsRunning := IsRunning q; GPUID := GPUID q;
     commands := match commands q with
                 | [] => []
                 | _ :: rest => c :: rest
                 end |}.

Record Buffer := { buf_l2Dirty : bool }.

(** A queue's back-reference [queue.Context] is the context that holds it:
    queues are addressed by (context index, queue index). *)
Record Context := {
  pid : PID;
  queues : list CommandQueue;
  l2Dirty : bool;
  buffers : list Buffer
}.

(** [&Context{}] *)
Definition emptyContext : Context :=
  {| pid := 0; queues := []; l2Dirty := false; buffers := [] |}.

(** Modelled from the spec: [Context.markAllBuffersDirty], declared with the
    context outside this file: every launch sets "per-buffer dirty bits". *)
Definition markAllBuffersDirty (c : Context) : Context :=
  {| pid := pid c; queues := queues c; l2Dirty := l2Dirty c;
     buffers := map (fun _ => {| buf_l2Dirty := true |}) (buffers c) |}.

Definition setL2Dirty (b : bool) (c : Context) : Context :=
  {| pid := pid c; queues := queues c; l2Dirty := b; buffers := buffers c |}.

Definition setQueues (qs : list CommandQueue) (c : Context) : Context :=
  {| pid := pid c; queues := qs; l2Dirty := l2Dirty c; buffers := buffers c |}.

(** ** Devices and pages *)

Record Device := {
  dev_ID : Z;
  UnifiedGPUIDs : list Z;
  CUCount : Z;
  DRAMSize : Z
}.

Record Page := {
  page_PID : PID;
  PAddr : Z;
  VAddr : Z;
  PageSize : Z;
  DeviceID : Z;
  Unified : bool;
  IsMigrating : bool;
  IsPinned : bool
}.

(** The page table: "mapping (pid, v_addr) to Page; lookups are exact;
    updates replace the record". *)
Definition pt_Find (pt : gmap (Z * Z) Page) (p : PID) (vAddr : Z)
  : option Page := pt !! (p, vAddr).
Definition pt_Update (pg : Page) (pt : gmap (Z * Z) Page)
  : gmap (Z * Z) Page := <[(page_PID pg, VAddr pg) := pg]> pt.

(** ** The driver

    The memory allocator lives in [amd/driver/internal] and is taken as a
    parameter: its state is [MemAlloc] and [AllocatePageWithGivenVAddr] may
    also touch the page table it shares with the driver.  The middlewares are
    the fixed list the builder installs; each may act on the whole driver.
    [rangeOrder] is the order in which a Go [range] visits a map: any
    enumeration of its entries. *)
Section DriverModel.

Context {MemAlloc : Type}.

Record Driver := {
  GPUs : list Port;
  devices : list Device;
  memAllocator : MemAlloc;
  pageTable : gmap (Z * Z) Page;
  requestsToSend : list Msg;
  contexts : list Context;
  mmuPort : PortState;
  gpuPort : PortState;
  currentPageMigrationReq : option PageMigrationReqToDriver;
  toSendToMMU : option PageMigrationRspFromDriver;
  migrationReqToSendToCP : list PageMigrationReqToCP;
  isCurrentlyHandlingMigrationReq : bool;
  numRDMADrainACK : Z;
  numRDMARestartACK : Z;
  numShootDownACK : Z;
  numRestartACK : Z;
  numPagesMigratingACK : Z;
  isCurrentlyMigratingOnePage : bool;
  RemotePMCPorts : list Port;
  nextMsgID : nat
}.

Definition set_memAllocator (v : MemAlloc) (d : Driver) : Driver :=
  {| GPUs := GPUs d;
     devices := devices d;
     memAllocator := v;
     pageTable := pageTable d;
     requestsToSend := requestsToSend d;
     contexts := contexts d;
     mmuPort := mmuPort d;
     gpuPort := gpuPort d;
     currentPageMigrationReq := currentPageMigrationReq d;
     toSendToMMU := toSendToMMU d;
     migrationReqToSendToCP := migrationReqToSendToCP d;
     isCurrentlyHandlingMigrationReq := isCurrentlyHandlingMigrationReq d;
     numRDMADrainACK := numRDMADrainACK d;
     numRDMARestartACK := numRDMARestartACK d;
     numShootDownACK := numShootDownACK d;
     numRestartACK := numRestartACK d;
     numPagesMigratingACK := numPagesMigratingACK d;
     isCurrentlyMigratingOnePage := isCurrentlyMigratingOnePage d;
     RemotePMCPorts := RemotePMCPorts d;
     nextMsgID := nextMsgID d |}.

Definition set_pageTable (v : gmap (Z * Z) Page) (d : Driver) : Driver :=
  {| GPUs := GPUs d;
     devices := devices d;
     memAllocator := memAllocator d;
     pageTable := v;
     requestsToSend := requestsToSend d;
     contexts := contexts d;
     mmuPort := mmuPort d;
     gpuPort := gpuPort d;
     currentPageMigrationReq := currentPageMigrationReq d;
     toSendToMMU := toSendToMMU d;
     migrationReqToSendToCP := migrationReqToSendToCP d;
     isCurrentlyHandlingMigrationReq := isCurrentlyHandlingMigrationReq d;
     numRDMADrainACK := numRDMADrainACK d;
     numRDMARestartACK := numRDMARestartACK d;
     numShootDownACK := numShootDownACK d;
     numRestartACK := numRestartACK d;
     numPagesMigratingACK := numPagesMigratingACK d;
     isCurrentlyMigratingOnePage := isCurrentlyMigratingOnePage d;
     RemotePMCPorts := RemotePMCPorts d;
     nextMsgID := nextMsgID d |}.

Definition set_requestsToSend (v : list Msg) (d : Driver) : Driver :=
  {| GPUs := GPUs d;
     devices := devices d;
     memAllocator := memAllocator d;
     pageTable := pageTable d;
     requestsToSend := v;
     contexts := contexts d;
     mmuPort := mmuPort d;
     gpuPort := gpuPort d;
     currentPageMigrationReq := currentPageMigrationReq d;
     toSendToMMU := toSendToMMU d;
     migrationReqToSendToCP := migrationReqToSendToCP d;
     isCurrentlyHandlingMigrationReq := isCurrentlyHandlingMigrationReq d;
     numRDMADrainACK := numRDMADrainACK d;
     numRDMARestartACK := numRDMARestartACK d;
     numShootDownACK := numShootDownACK d;
     numRestartACK := numRestartACK d;
     numPagesMigratingACK := numPagesMigratingACK d;
     isCurrentlyMigratingOnePage := isCurrentlyMigratingOnePage d;
     RemotePMCPorts := RemotePMCPorts d;
     nextMsgID := nextMsgID d |}.

Definition set_contexts (v : list Context) (d : Driver) : Driver :=
  {| GPUs := GPUs d;
     devices := devices d;
     memAllocator := memAllocator d;
     pageTable := pageTable d;
     requestsToSend := requestsToSend d;
     contexts := v;
     mmuPort := mmuPort d;
     gpuPort := gpuPort d;
     currentPageMigrationReq := currentPageMigrationReq d;
     toSendToMMU := toSendToMMU d;
     migrationReqToSendToCP := migrationReqToSendToCP d;
     isCurrentlyHandlingMigrationReq := isCurrentlyHandlingMigrationReq d;
     numRDMADrainACK := numRDMADrainACK d;
     numRDMARestartACK := numRDMARestartACK d;
     numShootDownACK := numShootDownACK d;
     numRestartACK := numRestartACK d;
     numPagesMigratingACK := numPagesMigratingACK d;
     isCurrentlyMigratingOnePage := isCurrentlyMigratingOnePage d;
     RemotePMCPorts := RemotePMCPorts d;
     nextMsgID := nextMsgID d |}.

Definition set_mmuPort (v : PortState) (d : Driver) : Driver :=
  {| GPUs := GPUs d;
     devices := devices d;
     memAllocator := memAllocator d;
     pageTable := pageTable d;
     requestsToSend := requestsToSend d;
     contexts := contexts d;
     mmuPort := v;
     gpuPort := gpuPort d;
     currentPageMigrationReq := currentPageMigrationReq d;
     toSendToMMU := toSendToMMU d;
     migrationReqToSendToCP := migrationReqToSendToCP d;
     isCurrentlyHandlingMigrationReq := isCurrentlyHandlingMigrationReq d;
     numRDMADrainACK := numRDMADrainACK d;
     numRDMARestartACK := numRDMARestartACK d;
     numShootDownACK := numShootDownACK d;
     numRestartACK := numRestartACK d;
     numPagesMigratingACK := numPagesMigratingACK d;
     isCurrentlyMigratingOnePage := isCurrentlyMigratingOnePage d;
     RemotePMCPorts := RemotePMCPorts d;
     nextMsgID := nextMsgID d |}.

Definition set_gpuPort (v : PortState) (d : Driver) : Driver :=
  {| GPUs := GPUs d;
     devices := devices d;
     memAllocator := memAllocator d;
     pageTable := pageTable d;
     requestsToSend := requestsToSend d;
     contexts := contexts d;
     mmuPort := mmuPort d;
     gpuPort := v;
     currentPageMigrationReq := currentPageMigrationReq d;
     toSendToMMU := toSendToMMU d;
     migrationReqToSendToCP := migrationReqToSendToCP d;
     isCurrentlyHandlingMigrationReq := isCurrentlyHandlingMigrationReq d;
     numRDMADrainACK := numRDMADrainACK d;
     numRDMARestartACK := numRDMARestartACK d;
     numShootDownACK := numShootDownACK d;
     numRestartACK := numRestartACK d;
     numPagesMigratingACK := numPagesMigratingACK d;
     isCurrentlyMigratingOnePage := isCurrentlyMigratingOnePage d;
     RemotePMCPorts := RemotePMCPorts d;
     nextMsgID := nextMsgID d |}.

Definition set_currentPageMigrationReq (v : option PageMigrationReqToDriver) (d : Driver) : Driver :=
  {| GPUs := GPUs d;
     devices := devices d;
     memAllocator := memAllocator d;
     pageTable := pageTable d;
     requestsToSend := requestsToSend d;
     contexts := contexts d;
     mmuPort := mmuPort d;
     gpuPort := gpuPort d;
     currentPageMigrationReq := v;
     toSendToMMU := toSendToMMU d;
     migrationReqToSendToCP := migrationReqToSendToCP d;
     isCurrentlyHandlingMigrationReq := isCurrentlyHandlingMigrationReq d;
     numRDMADrainACK := numRDMADrainACK d;
     numRDMARestartACK := numRDMARestartACK d;
     numShootDownACK := numShootDownACK d;
     numRestartACK := numRestartACK d;
     numPagesMigratingACK := numPagesMigratingACK d;
     isCurrentlyMigratingOnePage := isCurrentlyMigratingOnePage d;
     RemotePMCPorts := RemotePMCPorts d;
     nextMsgID := nextMsgID d |}.

Definition set_toSendToMMU (v : option PageMigrationRspFromDriver) (d : Driver) : Driver :=
  {| GPUs := GPUs d;
     devices := devices d;
     memAllocator := memAllocator d;
     pageTable := pageTable d;
     requestsToSend := requestsToSend d;
     contexts := contexts d;
     mmuPort := mmuPort d;
     gpuPort := gpuPort d;
     currentPageMigrationReq := currentPageMigrationReq d;
     toSendToMMU := v;
     migrationReqToSendToCP := migrationReqToSendToCP d;
     isCurrentlyHandlingMigrationReq := isCurrentlyHandlingMigrationReq d;
     numRDMADrainACK := numRDMADrainACK d;
     numRDMARestartACK := numRDMARestartACK d;
     numShootDownACK := numShootDownACK d;
     numRestartACK := numRestartACK d;
     numPagesMigratingACK := numPagesMigratingACK d;
     isCurrentlyMigratingOnePage := isCurrentlyMigratingOnePage d;
     RemotePMCPorts := RemotePMCPorts d;
     nextMsgID := nextMsgID d |}.

Definition set_migrationReqToSendToCP (v : list PageMigrationReqToCP) (d : Driver) : Driver :=
  {| GPUs := GPUs d;
     devices := devices d;
     memAllocator := memAllocator d;
     pageTable := pageTable d;
     requestsToSend := requestsToSend d;
     contexts := contexts d;
     mmuPort := mmuPort d;
     gpuPort := gpuPort d;
     currentPageMigrationReq := currentPageMigrationReq d;
     toSendToMMU := toSendToMMU d;
     migrationReqToSendToCP := v;
     isCurrentlyHandlingMigrationReq := isCurrentlyHandlingMigrationReq d;
     numRDMADrainACK := numRDMADrainACK d;
     numRDMARestartACK := numRDMARestartACK d;
     numShootDownACK := numShootDownACK d;
     numRestartACK := numRestartACK d;
     numPagesMigratingACK := numPagesMigratingACK d;
     isCurrentlyMigratingOnePage := isCurrentlyMigratingOnePage d;
     RemotePMCPorts := RemotePMCPorts d;
     nextMsgID := nextMsgID d |}.

Definition set_isCurrentlyHandlingMigrationReq (v : bool) (d : Driver) : Driver :=
  {| GPUs := GPUs d;
     devices := devices d;
     memAllocator := memAllocator d;
     pageTable := pageTable d;
     requestsToSend := requestsToSend d;
     contexts := contexts d;
     mmuPort := mmuPort d;
     gpuPort := gpuPort d;
     currentPageMigrationReq := currentPageMigrationReq d;
     toSendToMMU := toSendToMMU d;
     migrationReqToSendToCP := migrationReqToSendToCP d;
     isCurrentlyHandlingMigrationReq := v;
     numRDMADrainACK := numRDMADrainACK d;
     numRDMARestartACK := numRDMARestartACK d;
     numShootDownACK := numShootDownACK d;
     numRestartACK := numRestartACK d;
     numPagesMigratingACK := numPagesMigratingACK d;
     isCurrentlyMigratingOnePage := isCurrentlyMigratingOnePage d;
     RemotePMCPorts := RemotePMCPorts d;
     nextMsgID := nextMsgID d |}.

Definition set_numRDMADrainACK (v : Z) (d : Driver) : Driver :=
  {| GPUs := GPUs d;
     devices := devices d;
     memAllocator := memAllocator d;
     pageTable := pageTable d;
     requestsToSend := requestsToSend d;
     contexts := contexts d;
     mmuPort := mmuPort d;
     gpuPort := gpuPort d;
     currentPageMigrationReq := currentPageMigrationReq d;
     toSendToMMU := toSendToMMU d;
     migrationReqToSendToCP := migrationReqToSendToCP d;
     isCurrentlyHandlingMigrationReq := isCurrentlyHandlingMigrationReq d;
     numRDMADrainACK := v;
     numRDMARestartACK := numRDMARestartACK d;
     numShootDownACK := numShootDownACK d;
     numRestartACK := numRestartACK d;
     numPagesMigratingACK := numPagesMigratingACK d;
     isCurrentlyMigratingOnePage := isCurrentlyMigratingOnePage d;
     RemotePMCPorts := RemotePMCPorts d;
     nextMsgID := nextMsgID d |}.

Definition set_numRDMARestartACK (v : Z) (d : Driver) : Driver :=
  {| GPUs := GPUs d;
     devices := devices d;
     memAllocator := memAllocator d;
     pageTable := pageTable d;
     requestsToSend := requestsToSend d;
     contexts := contexts d;
     mmuPort := mmuPort d;
     gpuPort := gpuPort d;
     currentPageMigrationReq := currentPageMigrationReq d;
     toSendToMMU := toSendToMMU d;
     migrationReqToSendToCP := migrationReqToSendToCP d;
     isCurrentlyHandlingMigrationReq := isCurrentlyHandlingMigrationReq d;
     numRDMADrainACK := numRDMADrainACK d;
     numRDMARestartACK := v;
     numShootDownACK := numShootDownACK d;
     numRestartACK := numRestartACK d;
     numPagesMigratingACK := numPagesMigratingACK d;
     isCurrentlyMigratingOnePage := isCurrentlyMigratingOnePage d;
     RemotePMCPorts := RemotePMCPorts d;
     nextMsgID := nextMsgID d |}.

Definition set_numShootDownACK (v : Z) (d : Driver) : Driver :=
  {| GPUs := GPUs d;
     devices := devices d;
     memAllocator := memAllocator d;
     pageTable := pageTable d;
     requestsToSend := requestsToSend d;
     contexts := contexts d;
     mmuPort := mmuPort d;
     gpuPort := gpuPort d;
     currentPageMigrationReq := currentPageMigrationReq d;
     toSendToMMU := toSendToMMU d;
     migrationReqToSendToCP := migrationReqToSendToCP d;
     isCurrentlyHandlingMigrationReq := isCurrentlyHandlingMigrationReq d;
     numRDMADrainACK := numRDMADrainACK d;
     numRDMARestartACK := numRDMARestartACK d;
     numShootDownACK := v;
     numRestartACK := numRestartACK d;
     numPagesMigratingACK := numPagesMigratingACK d;
     isCurrentlyMigratingOnePage := isCurrentlyMigratingOnePage d;
     RemotePMCPorts := RemotePMCPorts d;
     nextMsgID := nextMsgID d |}.

Definition set_numRestartACK (v : Z) (d : Driver) : Driver :=
  {| GPUs := GPUs d;
     devices := devices d;
     memAllocator := memAllocator d;
     pageTable := pageTable d;
     requestsToSend := requestsToSend d;
     contexts := contexts d;
     mmuPort := mmuPort d;
     gpuPort := gpuPort d;
     currentPageMigrationReq := currentPageMigrationReq d;
     toSendToMMU := toSendToMMU d;
     migrationReqToSendToCP := migrationReqToSendToCP d;
     isCurrentlyHandlingMigrationReq := isCurrentlyHandlingMigrationReq d;
     numRDMADrainACK := numRDMADrainACK d;
     numRDMARestartACK := numRDMARestartACK d;
     numShootDownACK := numShootDownACK d;
     numRestartACK := v;
     numPagesMigratingACK := numPagesMigratingACK d;
     isCurrentlyMigratingOnePage := isCurrentlyMigratingOnePage d;
     RemotePMCPorts := RemotePMCPorts d;
     nextMsgID := nextMsgID d |}.

Definition set_numPagesMigratingACK (v : Z) (d : Driver) : Driver :=
  {| GPUs := GPUs d;
     devices := devices d;
     memAllocator := memAllocator d;
     pageTable := pageTable d;
     requestsToSend := requestsToSend d;
     contexts := contexts d;
     mmuPort := mmuPort d;
     gpuPort := gpuPort d;
     currentPageMigrationReq := currentPageMigrationReq d;
     toSendToMMU := toSendToMMU d;
     migrationReqToSendToCP := migrationReqToSendToCP d;
     isCurrentlyHandlingMigrationReq := isCurrentlyHandlingMigrationReq d;
     numRDMADrainACK := numRDMADrainACK d;
     numRDMARestartACK := numRDMARestartACK d;
     numShootDownACK := numShootDownACK d;
     numRestartACK := numRestartACK d;
     numPagesMigratingACK := v;
     isCurrentlyMigratingOnePage := isCurrentlyMigratingOnePage d;
     RemotePMCPorts := RemotePMCPorts d;
     nextMsgID := nextMsgID d |}.

Definition set_isCurrentlyMigratingOnePage (v : bool) (d : Driver) : Driver :=
  {| GPUs := GPUs d;
     devices := devices d;
     memAllocator := memAllocator d;
     pageTable := pageTable d;
     requestsToSend := requestsToSend d;
     contexts := contexts d;
     mmuPort := mmuPort d;
     gpuPort := gpuPort d;
     currentPageMigrationReq := currentPageMigrationReq d;
     toSendToMMU := toSendToMMU d;
     migrationReqToSendToCP := migrationReqToSendToCP d;
     isCurrentlyHandlingMigrationReq := isCurrentlyHandlingMigrationReq d;
     numRDMADrainACK := numRDMADrainACK d;
     numRDMARestartACK := numRDMARestartACK d;
     numShootDownACK := numShootDownACK d;
     numRestartACK := numRestartACK d;
     numPagesMigratingACK := numPagesMigratingACK d;
     isCurrentlyMigratingOnePage := v;
     RemotePMCPorts := RemotePMCPorts d;
     nextMsgID := nextMsgID d |}.

Definition set_nextMsgID (v : nat) (d : Driver) : Driver :=
  {| GPUs := GPUs d;
     devices := devices d;
     memAllocator := memAllocator d;
     pageTable := pageTable d;
     requestsToSend := requestsToSend d;
     contexts := contexts d;
     mmuPort := mmuPort d;
     gpuPort := gpuPort d;
     currentPageMigrationReq := currentPageMigrationReq d;
     toSendToMMU := toSendToMMU d;
     migrationReqToSendToCP := migrationReqToSendToCP d;
     isCurrentlyHandlingMigrationReq := isCurrentlyHandlingMigrationReq d;
     numRDMADrainACK := numRDMADrainACK d;
     numRDMARestartACK := numRDMARestartACK d;
     numShootDownACK := numShootDownACK d;
     numRestartACK := numRestartACK d;
     numPagesMigratingACK := numPagesMigratingACK d;
     isCurrentlyMigratingOnePage := isCurrentlyMigratingOnePage d;
     RemotePMCPorts := RemotePMCPorts d;
     nextMsgID := v |}.

(** ** The monad of driver methods *)

Definition M (A : Type) : Type := Driver -> result (A * Driver).

Definition ret {A} (a : A) : M A := fun d => Ok (a, d).

Definition bind {A B} (c : M A) (k : A -> M B) : M B :=
  fun d => match c d with
           | Ok (a, d') => k a d'
           | Panic p => Panic p
           end.

Definition throw {A} (p : panic) : M A := fun _ => Panic p.
Definition get : M Driver := fun d => Ok (d, d).
Definition modify (f : Driver -> Driver) : M unit := fun d => Ok (tt, f d).
Definition liftR {A} (r : result A) : M A :=
  fun d => match r with Ok a => Ok (a, d) | Panic p => Panic p end.

Arguments ret {A} a d /.
Arguments bind {A B} c k d /.
Arguments throw {A} p d /.
Arguments get d /.
Arguments modify f d /.
Arguments liftR {A} r d /.

Notation "x <- c ;> k" := (bind c (fun x => k))
  (at level 20, c at level 100, k at level 200, only parsing).
Notation "' x <- c ;> k" := (bind c (fun x => k))
  (at level 20, x pattern, c at level 100, k at level 200, only parsing).

(** [for _, x := range l { body }] *)
Fixpoint forM {A} (l : list A) (body : A -> M unit) : M unit :=
  match l with
  | [] => ret tt
  | x :: rest => _ <- body x ;> forM rest body
  end.

(** [for _, x := range l { madeProgress = f(x) || madeProgress }] *)
Fixpoint forProgress {A} (l : list A) (f : A -> M bool) (madeProgress : bool)
  : M bool :=
  match l with
  | [] => ret madeProgress
  | x :: rest => b <- f x ;> forProgress rest f (b || madeProgress)
  end.

(** The identifier generator behind the [New...] constructors of messages. *)
Definition freshMeta (dst : Port) : M MsgMeta :=
  fun d => Ok ({| ID := nextMsgID d; Src := portName (gpuPort d); Dst := dst |},
               set_nextMsgID (S (nextMsgID d)) d).

Definition appendRequest (m : Msg) : M unit :=
  modify (fun d => set_requestsToSend (requestsToSend d ++ [m]) d).

Arguments freshMeta dst d /.
Arguments appendRequest m d /.

(** Modelled from the spec: [GetNumGPUs], declared in the driver's API file:
    the number of registered GPUs. *)
Definition GetNumGPUs (d : Driver) : Z := Z.of_nat (length (GPUs d)).

(** ** Outbound steps of a tick *)

Definition sendToGPUs : M bool := fun d =>
  match requestsToSend d with
  | [] => Ok (false, d)
  | req :: rest =>
      match Send req (gpuPort d) with
      | Some p => Ok (true, set_requestsToSend rest (set_gpuPort p d))
      | None => Ok (false, d)
      end
  end.

Definition sendToMMU : M bool := fun d =>
  match toSendToMMU d with
  | None => Ok (false, d)
  | Some req =>
      match Send (MPageMigrationRspFromDriver req) (mmuPort d) with
      | Some p => Ok (true, set_toSendToMMU None (set_mmuPort p d))
      | None => Ok (false, d)
      end
  end.

Definition sendMigrationReqToCP : M bool := fun d =>
  match migrationReqToSendToCP d with
  | [] => Ok (false, d)
  | req :: rest =>
      if isCurrentlyMigratingOnePage d then Ok (false, d)
      else match Send (MPageMigrationReqToCP req) (gpuPort d) with
           | Some p =>
               Ok (true, set_isCurrentlyMigratingOnePage true
                           (set_migrationReqToSendToCP rest (set_gpuPort p d)))
           | None => Ok (false, d)
           end
  end.

(** ** Unified multi-GPU launch: workgroup distribution *)

(** [(g-1)/uint32(w) + 1] in [uint32]. *)
Definition numWG (g w : Z) : result Z :=
  if w =? 0 then Panic DivideByZero else Ok (u32 (u32 (g - 1) / w + 1)).

Fixpoint sumCUCount (devs : list Device) (ids : list Z) (totalCUCount : Z)
  : result Z :=
  match ids with
  | [] => Ok totalCUCount
  | devID :: rest =>
      rbind (index devs devID) (fun dv =>
      sumCUCount devs rest (int (totalCUCount + CUCount dv)))
  end.

(** The second loop of [distributeWGToGPUs]; [i] is the loop index. *)
Fixpoint allocateWG (devs : list Device) (wgPerCU : Z) (i : nat)
    (ids : list Z) (wgAllocated : Z) (wgDist : list Z) : result (Z * list Z) :=
  match ids with
  | [] => Ok (wgAllocated, wgDist)
  | devID :: rest =>
      rbind (index devs devID) (fun dv =>
      let cuCount := CUCount dv in
      let wgToAllocate := int (cuCount * wgPerCU) in
      allocateWG devs wgPerCU (S i) rest
        (int (wgAllocated + wgToAllocate))
        (<[S i := int (wgAllocated + wgToAllocate)]> wgDist))
  end.

(** [int(numWGX * numWGY * numWGZ)] of a packet. *)
Definition totalWGCountOf (pkt : HsaKernelDispatchPacket) : result Z :=
  rbind (numWG (GridSizeX pkt) (WorkgroupSizeX pkt)) (fun numWGX =>
  rbind (numWG (GridSizeY pkt) (WorkgroupSizeY pkt)) (fun numWGY =>
  rbind (numWG (GridSizeZ pkt) (WorkgroupSizeZ pkt)) (fun numWGZ =>
  Ok (u32 (u32 (numWGX * numWGY) * numWGZ))))).

Definition distributeWGToGPUs (d : Driver) (queue : CommandQueue)
    (cmd : LaunchUnifiedMultiGPUKernelCommand) : result (list Z) :=
  rbind (index (devices d) (GPUID queue)) (fun dev =>
  let actualGPUs := UnifiedGPUIDs dev in
  let wgDist := replicate (length actualGPUs + 1) 0 in
  rbind (sumCUCount (devices d) actualGPUs 0) (fun totalCUCount =>
  rbind (index (PacketArray cmd) 0) (fun pkt0 =>
  rbind (totalWGCountOf pkt0) (fun totalWGCount =>
  if totalCUCount =? 0 then Panic DivideByZero else
  let wgPerCU := int (int (Z.quot (int (totalWGCount - 1)) totalCUCount) + 1) in
  rbind (allocateWG (devices d) wgPerCU 0 actualGPUs 0 wgDist)
    (fun '(wgAllocated, wgDist) =>
  if wgAllocated <? totalWGCount then Panic NotAllWGAllocated
  else Ok wgDist))))).

(** The body of the closure stored in [req.WGFilter].  ([currentGPUIndex+1]
    is at most the length of a slice and does not wrap.) *)
Definition WGFilter_apply (c : WGFilterClosure)
    (pkt : HsaKernelDispatchPacket) (wg : WorkGroup) : result bool :=
  rbind (numWG (GridSizeX pkt) (WorkgroupSizeX pkt)) (fun numWGX =>
  rbind (numWG (GridSizeY pkt) (WorkgroupSizeY pkt)) (fun numWGY =>
  let flattenedID :=
    int (int (int (int (IDZ wg * numWGX) * numWGY) + int (IDY wg * numWGX))
         + IDX wg) in
  rbind (index (captured_wgDist c) (currentGPUIndex c)) (fun lo =>
  if negb (lo <=? flattenedID) then Ok false else
  rbind (index (captured_wgDist c) (currentGPUIndex c + 1)) (fun hi =>
  Ok (flattenedID <? hi))))).

(** ** Middlewares, allocator and map iteration *)

Record Middleware := {
  mw_ProcessCommand : Command -> nat -> nat -> M bool;
  mw_Tick : M bool
}.

Variable middlewares : list Middleware.

Variable AllocatePageWithGivenVAddr :
  PID -> Z -> Z -> bool -> MemAlloc -> gmap (Z * Z) Page ->
  Page * MemAlloc * gmap (Z * Z) Page.

Variable rangeOrder : gmap Z (list Z) -> list (Z * list Z).
Hypothesis rangeOrder_perm : forall m, rangeOrder m ≡ₚ map_to_list m.

(** ** Access to a queue through its context *)

Definition getContext (ci : nat) : M Context :=
  fun d => match contexts d !! ci with
           | Some c => Ok (c, d)
           | None => Panic IndexOutOfRange
           end.

Definition getQueue (ci qi : nat) : M CommandQueue :=
  c <- getContext ci ;>
  match queues c !! qi with
  | Some q => ret q
  | None => throw IndexOutOfRange
  end.

Definition updContext (ci : nat) (f : Context -> Context) : M unit :=
  modify (fun d => set_contexts (alter f ci (contexts d)) d).

Definition updQueue (ci qi : nat) (f : CommandQueue -> CommandQueue) : M unit :=
  updContext ci (fun c => setQueues (alter f qi (queues c)) c).

Arguments getContext ci d /.
Arguments getQueue ci qi d /.
Arguments updContext ci f d /.
Arguments updQueue ci qi f d /.

(** [for i, x := range l { body }]; [i + 1] stays below the length of a
    slice and is not wrapped. *)
Fixpoint forMi {A} (i : nat) (l : list A) (body : nat -> A -> M unit)
  : M unit :=
  match l with
  | [] => ret tt
  | x :: rest => _ <- body i x ;> forMi (S i) rest body
  end.

(** ** Command admission *)

(** The part shared by both launch paths once [req] is built. *)
Definition recordLaunch (ci qi : nat) (req : Msg) : M unit :=
  _ <- updQueue ci qi (setIsRunning true) ;>
  _ <- updQueue ci qi (fun q =>
         match Peek q with
         | Some cmd => setHead (SetReqs (GetReqs cmd ++ [req]) cmd) q
         | None => q
         end) ;>
  _ <- appendRequest req ;>
  _ <- updContext ci (setL2Dirty true) ;>
  updContext ci markAllBuffersDirty.

Definition processLaunchKernelCommand (cmd : LaunchKernelCommand)
    (ci qi : nat) : M bool :=
  ctx <- getContext ci ;>
  queue <- getQueue ci qi ;>
  d <- get ;>
  dst <- liftR (index (GPUs d) (int (GPUID queue - 1))) ;>
  meta <- freshMeta dst ;>
  let req := MLaunchKernelReq
    {| lkr_meta := meta; lkr_PID := pid ctx; HsaCo := lk_CodeObject cmd;
       lkr_Packet := lk_Packet cmd; PacketAddress := lk_DPacket cmd;
       WGFilter := None |} in
  _ <- recordLaunch ci qi req ;>
  ret true.

(** The body of the loop over [dev.UnifiedGPUIDs]. *)
Definition launchOnMember (cmd : LaunchUnifiedMultiGPUKernelCommand)
    (ctx : Context) (ci qi : nat) (wgDist : list Z) (i : nat) (gpuID : Z)
  : M unit :=
  hi <- liftR (index wgDist (Z.of_nat (S i))) ;>
  lo <- liftR (index wgDist (Z.of_nat i)) ;>
  if int (hi - lo) =? 0 then ret tt else
  d <- get ;>
  dst <- liftR (index (GPUs d) (int (gpuID - 1))) ;>
  meta <- freshMeta dst ;>
  pkt <- liftR (index (PacketArray cmd) (Z.of_nat i)) ;>
  dpkt <- liftR (index (DPacketArray cmd) (Z.of_nat i)) ;>
  let req := MLaunchKernelReq
    {| lkr_meta := meta; lkr_PID := pid ctx; HsaCo := lu_CodeObject cmd;
       lkr_Packet := pkt; PacketAddress := dpkt;
       WGFilter := Some {| captured_wgDist := wgDist;
                           currentGPUIndex := Z.of_nat i |} |} in
  recordLaunch ci qi req.

Definition processUnifiedMultiGPULaunchKernelCommand
    (cmd : LaunchUnifiedMultiGPUKernelCommand) (ci qi : nat) : M bool :=
  ctx <- getContext ci ;>
  queue <- getQueue ci qi ;>
  d <- get ;>
  wgDist <- liftR (distributeWGToGPUs d queue cmd) ;>
  dev <- liftR (index (devices d) (GPUID queue)) ;>
  _ <- forMi 0 (UnifiedGPUIDs dev) (launchOnMember cmd ctx ci qi wgDist) ;>
  ret true.

Definition processNoopCommand (ci qi : nat) : M bool :=
  _ <- updQueue ci qi Dequeue ;> ret true.

Fixpoint processCommandWithMiddlewareLoop (ms : list Middleware)
    (cmd : Command) (ci qi : nat) : M bool :=
  match ms with
  | [] => ret false
  | m :: rest =>
      processed <- mw_ProcessCommand m cmd ci qi ;>
      if processed then ret true
      else processCommandWithMiddlewareLoop rest cmd ci qi
  end.

Definition processCommandWithMiddleware (cmd : Command) (ci qi : nat)
  : M bool := processCommandWithMiddlewareLoop middlewares cmd ci qi.

(** [cmd] is [cmdQueue.Peek()]. *)
Definition processOneCommand (cmd : Command) (ci qi : nat) : M bool :=
  match cmd with
  | CLaunchKernel c => processLaunchKernelCommand c ci qi
  | CNoop _ => processNoopCommand ci qi
  | CLaunchUnified c => processUnifiedMultiGPULaunchKernelCommand c ci qi
  | COther _ _ _ => processCommandWithMiddleware cmd ci qi
  end.

Definition processNewCommandFromCmdQueue (ci qi : nat) : M bool :=
  q <- getQueue ci qi ;>
  match commands q with
  | [] => ret false
  | cmd :: _ =>
      if IsRunning q then ret false else processOneCommand cmd ci qi
  end.

Definition processNewCommandFromContext (ci : nat) : M bool :=
  ctx <- getContext ci ;>
  forProgress (seq 0 (length (queues ctx)))
    (processNewCommandFromCmdQueue ci) false.

Definition processNewCommand : M bool :=
  d <- get ;>
  forProgress (seq 0 (length (contexts d))) processNewCommandFromContext false.

(** ** Completion of a launch *)

Definition findReqInQueue (reqID : nat) (q : CommandQueue)
  : option (Msg * Command) :=
  match Peek q with
  | None => None
  | Some cmd =>
      match List.find (fun r => Nat.eqb (ID (Meta r)) reqID) (GetReqs cmd) with
      | Some r => Some (r, cmd)
      | None => None
      end
  end.

Fixpoint findReqInQueues (reqID : nat) (qi : nat) (qs : list CommandQueue)
  : option (Msg * Command * nat) :=
  match qs with
  | [] => None
  | q :: rest =>
      match findReqInQueue reqID q with
      | Some (r, cmd) => Some (r, cmd, qi)
      | None => findReqInQueues reqID (S qi) rest
      end
  end.

Fixpoint findReqInContexts (reqID : nat) (ci : nat) (cs : list Context)
  : option (Msg * Command * nat * nat) :=
  match cs with
  | [] => None
  | c :: rest =>
      match findReqInQueues reqID 0 (queues c) with
      | Some (r, cmd, qi) => Some (r, cmd, ci, qi)
      | None => findReqInContexts reqID (S ci) rest
      end
  end.

Definition findCommandByReqID (d : Driver) (reqID : nat)
  : result (Msg * Command * nat * nat) :=
  match findReqInContexts reqID 0 (contexts d) with
  | Some x => Ok x
  | None => Panic CannotFindCommand
  end.

Definition processLaunchKernelReturn (rsp : LaunchKernelRsp) : M bool :=
  d <- get ;>
  '(req, cmd, ci, qi) <- liftR (findCommandByReqID d (RspTo rsp)) ;>
  let cmd' := RemoveReq req cmd in
  _ <- updQueue ci qi (setHead cmd') ;>
  _ <- (if bool_decide (length (GetReqs cmd') = 0%nat)
        then _ <- updQueue ci qi (setIsRunning false) ;>
             updQueue ci qi Dequeue
        else ret tt) ;>
  ret true.

(** ** The page-migration orchestrator *)

(** [d.currentPageMigrationReq.f]: a nil pointer panics. *)
Definition currentReq : M PageMigrationReqToDriver :=
  fun d => match currentPageMigrationReq d with
           | Some m => Ok (m, d)
           | None => Panic NilDereference
           end.

Arguments currentReq d /.

(** The values of [i] in [for i := 1; i < d.GetNumGPUs()+1; i++]. *)
Definition gpuIDs (d : Driver) : list Z :=
  map Z.of_nat (seq 1 (length (GPUs d))).

Definition initiateRDMADrain : M bool :=
  d <- get ;>
  _ <- forM (GPUs d) (fun g =>
    meta <- freshMeta g ;>
    _ <- appendRequest (MRDMADrainCmdFromDriver meta) ;>
    modify (fun d => set_numRDMADrainACK (u64 (numRDMADrainACK d + 1)) d)) ;>
  ret true.

Definition parseFromMMU : M bool :=
  d <- get ;>
  if isCurrentlyHandlingMigrationReq d then ret false else
  let '(req, p) := RetrieveIncoming (mmuPort d) in
  _ <- modify (set_mmuPort p) ;>
  match req with
  | None => ret false
  | Some (MPageMigrationReqToDriver req) =>
      _ <- modify (set_currentPageMigrationReq (Some req)) ;>
      _ <- modify (set_isCurrentlyHandlingMigrationReq true) ;>
      _ <- initiateRDMADrain ;>
      ret true
  | Some _ => throw CannotHandleMMURequest
  end.

Definition sendShootDownReqs : M bool :=
  m <- currentReq ;>
  d <- get ;>
  let vAddr :=
    concat (omap (fun i => GPUReqToVAddrMap m !! i) (gpuIDs d)) in
  let accessingGPUs := CurrAccessingGPUs m in
  _ <- modify (set_numShootDownACK (u64 (Z.of_nat (length accessingGPUs)))) ;>
  _ <- forM accessingGPUs (fun a =>
    let toShootdownGPU := u64 (a - 1) in
    d <- get ;>
    dst <- liftR (index (GPUs d) toShootdownGPU) ;>
    meta <- freshMeta dst ;>
    appendRequest (MShootDownCommand
      {| sdc_meta := meta; sdc_VAddr := vAddr; sdc_PID := pmd_PID m |})) ;>
  ret true.

Definition processRDMADrainRsp : M bool :=
  _ <- modify (fun d => set_numRDMADrainACK (u64 (numRDMADrainACK d - 1)) d) ;>
  d <- get ;>
  _ <- (if numRDMADrainACK d =? 0
        then _ <- sendShootDownReqs ;> ret tt else ret tt) ;>
  ret true.

Definition findRequestingGPUs (d : Driver) (info : gmap Z (list Z))
  : list Z :=
  omap (fun i => match info !! i with
                 | Some _ => Some (i - 1)
                 | None => None
                 end) (gpuIDs d).

(** The loop of [findContext]; [context] is the pointer held so far. *)
Fixpoint findContextLoop (cur : option PageMigrationReqToDriver)
    (cs : list Context) (context : option Context)
  : result (option Context) :=
  match cs with
  | [] => Ok context
  | c :: rest =>
      match cur with
      | None => Panic NilDereference
      | Some m =>
          findContextLoop cur rest
            (if decide (pid c = pmd_PID m) then Some c else context)
      end
  end.

Definition findContext (d : Driver) (p : PID) : result Context :=
  rbind (findContextLoop (currentPageMigrationReq d) (contexts d)
           (Some emptyContext)) (fun context =>
  match context with
  | None => Panic ProcessDoesNotExist
  | Some c => Ok c
  end).

Definition preparePageForMigration (vAddr : Z) (context : Context)
    (gpuID : Z) : M (Page * Z) :=
  fun d =>
  match pt_Find (pageTable d) (pid context) vAddr with
  | None => Panic PageNotFound
  | Some page =>
      let oldPAddr := PAddr page in
      let '(newPage, alloc, pt) :=
        AllocatePageWithGivenVAddr (pid context) (int (u64 (gpuID + 1)))
          vAddr true (memAllocator d) (pageTable d) in
      let newPage :=
        {| page_PID := page_PID newPage; PAddr := PAddr newPage;
           VAddr := VAddr newPage; PageSize := PageSize newPage;
           DeviceID := u64 (gpuID + 1); Unified := Unified newPage;
           IsMigrating := true; IsPinned := IsPinned newPage |} in
      Ok ((newPage, oldPAddr),
          set_pageTable (pt_Update newPage pt) (set_memAllocator alloc d))
  end.

(** [pageVaddrs], filled from [requestingGPUs]. *)
Definition pageVaddrsOf (info : gmap Z (list Z)) (requestingGPUs : list Z)
  : gmap Z (list Z) :=
  foldl (fun pv r => <[r := default [] (info !! u64 (r + 1))]> pv)
        ∅ requestingGPUs.

Arguments pageVaddrsOf : simpl never.
Arguments findRequestingGPUs : simpl never.
Arguments findContext : simpl never.
Arguments gpuIDs : simpl never.

(** One iteration of the inner loop of [processShootdownCompleteRsp]. *)
Definition migrateOnePage (m : PageMigrationReqToDriver) (context : Context)
    (toRequestFromPMCPort : Port) (gpuID vAddr : Z) : M unit :=
  '(page, oldPAddr) <- preparePageForMigration vAddr context gpuID ;>
  d <- get ;>
  dst <- liftR (index (GPUs d) gpuID) ;>
  meta <- freshMeta dst ;>
  let req :=
    {| pmr_meta := meta;
       ToReadFromPhysicalAddress := oldPAddr;
       ToWriteToPhysicalAddress := PAddr page;
       DestinationPMCPort := toRequestFromPMCPort;
       pmr_PageSize := pmd_PageSize m |} in
  modify (fun d =>
    set_numPagesMigratingACK (u64 (numPagesMigratingACK d + 1))
      (set_migrationReqToSendToCP (migrationReqToSendToCP d ++ [req]) d)).

Definition processShootdownCompleteRsp : M bool :=
  _ <- modify (fun d => set_numShootDownACK (u64 (numShootDownACK d - 1)) d) ;>
  d <- get ;>
  if numShootDownACK d =? 0 then
    m <- currentReq ;>
    toRequestFromPMCPort <-
      liftR (index (RemotePMCPorts d) (u64 (CurrPageHostGPU m - 1))) ;>
    let requestingGPUs := findRequestingGPUs d (GPUReqToVAddrMap m) in
    context <- liftR (findContext d (pmd_PID m)) ;>
    let pageVaddrs := pageVaddrsOf (GPUReqToVAddrMap m) requestingGPUs in
    _ <- forM (rangeOrder pageVaddrs) (fun '(gpuID, vAddrs) =>
           forM vAddrs
             (migrateOnePage m context toRequestFromPMCPort gpuID)) ;>
    ret true
  else ret false.

Definition prepareGPURestartReqs : M unit :=
  m <- currentReq ;>
  forM (CurrAccessingGPUs m) (fun a =>
    let restartGPUID := u64 (a - 1) in
    d <- get ;>
    dst <- liftR (index (GPUs d) restartGPUID) ;>
    meta <- freshMeta dst ;>
    _ <- appendRequest (MGPURestartReq meta) ;>
    modify (fun d => set_numRestartACK (u64 (numRestartACK d + 1)) d)).

Definition preparePageMigrationRspToMMU : M unit :=
  m <- currentReq ;>
  d <- get ;>
  let requestingGPUs := findRequestingGPUs d (GPUReqToVAddrMap m) in
  let pageVaddrs := pageVaddrsOf (GPUReqToVAddrMap m) requestingGPUs in
  let meta := {| ID := nextMsgID d; Src := portName (mmuPort d);
                 Dst := Src (pmd_meta m) |} in
  _ <- modify (set_nextMsgID (S (nextMsgID d))) ;>
  let req :=
    {| pmrsp_meta := meta;
       rsp_VAddr := concat (map snd (rangeOrder pageVaddrs));
       RspToTop := RespondToTop m;
       OriginalReq := m |} in
  modify (set_toSendToMMU (Some req)).

Definition processPageMigrationRspFromCP : M bool :=
  _ <- modify (fun d =>
         set_numPagesMigratingACK (u64 (numPagesMigratingACK d - 1)) d) ;>
  _ <- modify (set_isCurrentlyMigratingOnePage false) ;>
  d <- get ;>
  _ <- (if numPagesMigratingACK d =? 0
        then _ <- prepareGPURestartReqs ;> preparePageMigrationRspToMMU
        else ret tt) ;>
  ret true.

Definition prepareRDMARestartReqs : M unit :=
  d <- get ;>
  forM (GPUs d) (fun g =>
    meta <- freshMeta g ;>
    _ <- appendRequest (MRDMARestartCmdFromDriver meta) ;>
    modify (fun d => set_numRDMARestartACK (u64 (numRDMARestartACK d + 1)) d)).

Definition handleGPURestartRsp : M bool :=
  _ <- modify (fun d => set_numRestartACK (u64 (numRestartACK d - 1)) d) ;>
  d <- get ;>
  _ <- (if numRestartACK d =? 0 then prepareRDMARestartReqs else ret tt) ;>
  ret true.

Definition processRDMARestartRspToDriver : M bool :=
  _ <- modify (fun d =>
         set_numRDMARestartACK (u64 (numRDMARestartACK d - 1)) d) ;>
  d <- get ;>
  if numRDMARestartACK d =? 0 then
    _ <- modify (set_currentPageMigrationReq None) ;>
    _ <- modify (set_isCurrentlyHandlingMigrationReq false) ;>
    ret true
  else ret true.

(** ** Inbound GPU responses *)

Definition retrieveFromGPUPort : M unit :=
  modify (fun d => set_gpuPort (snd (RetrieveIncoming (gpuPort d))) d).

Arguments retrieveFromGPUPort d /.

Definition processReturnReq : M bool :=
  d <- get ;>
  match PeekIncoming (gpuPort d) with
  | None => ret false
  | Some req =>
      match req with
      | MLaunchKernelRsp rsp =>
          _ <- retrieveFromGPUPort ;> processLaunchKernelReturn rsp
      | MRDMADrainRspToDriver _ =>
          _ <- retrieveFromGPUPort ;> processRDMADrainRsp
      | MShootDownCompleteRsp _ =>
          _ <- retrieveFromGPUPort ;> processShootdownCompleteRsp
      | MPageMigrationRspToDriver _ =>
          _ <- retrieveFromGPUPort ;> processPageMigrationRspFromCP
      | MRDMARestartRspToDriver _ =>
          _ <- retrieveFromGPUPort ;> processRDMARestartRspToDriver
      | MGPURestartRsp _ =>
          _ <- retrieveFromGPUPort ;> handleGPURestartRsp
      | _ => ret false
      end
  end.

(** ** Tick *)

Definition Tick : M bool :=
  let madeProgress := false in
  b <- sendToGPUs ;> let madeProgress := b || madeProgress in
  b <- sendToMMU ;> let madeProgress := b || madeProgress in
  b <- sendMigrationReqToCP ;> let madeProgress := b || madeProgress in
  madeProgress <- forProgress middlewares mw_Tick madeProgress ;>
  b <- processReturnReq ;> let madeProgress := b || madeProgress in
  b <- processNewCommand ;> let madeProgress := b || madeProgress in
  b <- parseFromMMU ;> let madeProgress := b || madeProgress in
  ret madeProgress.

Arguments sendToGPUs : simpl never.
Arguments sendToMMU : simpl never.
Arguments sendMigrationReqToCP : simpl never.
Arguments processReturnReq : simpl never.
Arguments processNewCommand : simpl never.
Arguments parseFromMMU : simpl never.
Arguments processLaunchKernelReturn : simpl never.
Arguments processRDMADrainRsp : simpl never.
Arguments processShootdownCompleteRsp : simpl never.
Arguments processPageMigrationRspFromCP : simpl never.
Arguments processRDMARestartRspToDriver : simpl never.
Arguments handleGPURestartRsp : simpl never.
Arguments initiateRDMADrain : simpl never.
Arguments sendShootDownReqs : simpl never.
Arguments prepareGPURestartReqs : simpl never.
Arguments preparePageMigrationRspToMMU : simpl never.
Arguments prepareRDMARestartReqs : simpl never.
Arguments migrateOnePage : simpl never.
Arguments preparePageForMigration : simpl never.
Arguments processOneCommand : simpl never.
Arguments processNewCommandFromCmdQueue : simpl never.
Arguments processNewCommandFromContext : simpl never.
Arguments processCommandWithMiddleware : simpl never.
Arguments processLaunchKernelCommand : simpl never.
Arguments processUnifiedMultiGPULaunchKernelCommand : simpl never.
Arguments processNoopCommand : simpl never.
Arguments launchOnMember : simpl never.
Arguments recordLaunch : simpl never.
Arguments Tick : simpl never.

(** ** Specification-level notions *)

(** [ceil(a / b)] for positive [b]. *)
Definition ceil_div (a b : Z) : Z := (a + b - 1) / b.

(** [num_wg = ceil(gx/wgx) * ceil(gy/wgy) * ceil(gz/wgz)]. *)
Definition num_wg (pkt : HsaKernelDispatchPacket) : Z :=
  ceil_div (GridSizeX pkt) (WorkgroupSizeX pkt)
  * ceil_div (GridSizeY pkt) (WorkgroupSizeY pkt)
  * ceil_div (GridSizeZ pkt) (WorkgroupSizeZ pkt).

(** The cumulative offsets of a list of range sizes, starting at [start]. *)
Fixpoint boundaries (start : Z) (sizes : list Z) : list Z :=
  start :: match sizes with
           | [] => []
           | s :: rest => boundaries (start + s) rest
           end.

Fixpoint sumZ (l : list Z) : Z :=
  match l with
  | [] => 0
  | x :: rest => x + sumZ rest
  end.

(** The CU counts of the devices named by [ids]. *)
Definition memberCUs (d : Driver) (ids cus : list Z) : Prop :=
  Forall2 (fun id cu => exists dv, index (devices d) id = Ok dv /\ CUCount dv = cu)
          ids cus.

(** A packet whose workgroup arithmetic does not wrap in [uint32]. *)
Definition packet_ok (pkt : HsaKernelDispatchPacket) : Prop :=
  1 <= GridSizeX pkt < 2 ^ 32 /\ 1 <= GridSizeY pkt < 2 ^ 32 /\
  1 <= GridSizeZ pkt < 2 ^ 32 /\
  1 <= WorkgroupSizeX pkt /\ 1 <= WorkgroupSizeY pkt /\
  1 <= WorkgroupSizeZ pkt /\
  num_wg pkt < 2 ^ 32.

(** ** Arithmetic of the wrapped integers *)

Lemma int_id x : - 2 ^ 63 <= x < 2 ^ 63 -> int x = x.
Proof. intros H. unfold int. rewrite Z.mod_small; lia. Qed.

Lemma u32_id x : 0 <= x < 2 ^ 32 -> u32 x = x.
Proof. intros H. unfold u32. now rewrite Z.mod_small. Qed.

Lemma u64_id x : 0 <= x < 2 ^ 64 -> u64 x = x.
Proof. intros H. unfold u64. now rewrite Z.mod_small. Qed.

Lemma ceil_div_pos a b : 1 <= a -> 1 <= b -> 1 <= ceil_div a b <= a.
Proof.
  intros Ha Hb. unfold ceil_div. split.
  - apply Z.div_le_lower_bound; lia.
  - apply Z.div_le_upper_bound; nia.
Qed.

Lemma ceil_div_alt a b : 1 <= a -> 1 <= b -> (a - 1) / b + 1 = ceil_div a b.
Proof.
  intros Ha Hb. unfold ceil_div.
  replace (a + b - 1) with ((a - 1) + 1 * b) by lia.
  rewrite Z.div_add by lia. lia.
Qed.

Lemma ceil_div_covers a b : 1 <= b -> a <= ceil_div a b * b.
Proof.
  intros Hb. unfold ceil_div.
  pose proof (Z.mod_pos_bound (a + b - 1) b ltac:(lia)).
  pose proof (Z.div_mod (a + b - 1) b ltac:(lia)). nia.
Qed.

Lemma numWG_ok g w :
  1 <= g < 2 ^ 32 -> 1 <= w -> numWG g w = Ok (ceil_div g w).
Proof.
  intros Hg Hw. unfold numWG.
  destruct (Z.eqb_spec w 0) as [->|_]; [lia|].
  pose proof (ceil_div_pos g w ltac:(lia) Hw).
  rewrite (u32_id (g - 1)) by lia.
  rewrite ceil_div_alt by lia. rewrite u32_id by lia. reflexivity.
Qed.

Lemma totalWGCountOf_ok pkt :
  packet_ok pkt -> totalWGCountOf pkt = Ok (num_wg pkt) /\ 1 <= num_wg pkt.
Proof.
  intros (Hx & Hy & Hz & Hwx & Hwy & Hwz & Hn).
  unfold totalWGCountOf, num_wg in *.
  pose proof (ceil_div_pos _ _ (proj1 Hx) Hwx).
  pose proof (ceil_div_pos _ _ (proj1 Hy) Hwy).
  pose proof (ceil_div_pos _ _ (proj1 Hz) Hwz).
  rewrite !numWG_ok by lia. cbn.
  set (a := ceil_div (GridSizeX pkt) _) in *.
  set (b := ceil_div (GridSizeY pkt) _) in *.
  set (c := ceil_div (GridSizeZ pkt) _) in *.
  assert (1 <= a * b) by nia.
  assert (a * b <= a * b * c) by nia.
  rewrite (u32_id (a * b)) by lia.
  rewrite u32_id by nia. split; [reflexivity | nia].
Qed.

(** ** Workgroup distribution *)

Lemma sumZ_nonneg cus : Forall (fun c => 0 <= c) cus -> 0 <= sumZ cus.
Proof. induction 1; cbn; lia. Qed.

Lemma sumCUCount_ok (d : Driver) ids cus acc :
  memberCUs d ids cus -> Forall (fun c => 0 <= c) cus ->
  0 <= acc -> acc + sumZ cus < 2 ^ 63 ->
  sumCUCount (devices d) ids acc = Ok (acc + sumZ cus).
Proof.
  intros Hm. revert acc.
  induction Hm as [|id cu ids cus (dv & Hdv & Hcu) _ IH]; intros acc Hpos Hacc Hlt.
  - cbn. f_equal. lia.
  - apply Forall_cons in Hpos as [Hc Hpos]. cbn in *.
    pose proof (sumZ_nonneg _ Hpos).
    rewrite Hdv. cbn. rewrite Hcu, int_id by lia.
    rewrite IH by (assumption || lia). f_equal. lia.
Qed.

Lemma boundaries_length start sizes :
  length (boundaries start sizes) = S (length sizes).
Proof. revert start. induction sizes; intros; cbn; [|rewrite IHsizes]; lia. Qed.

Lemma boundaries_last start sizes :
  last (boundaries start sizes) = Some (start + sumZ sizes).
Proof.
  revert start. induction sizes as [|s sizes IH]; intros start; cbn.
  - f_equal. lia.
  - specialize (IH (start + s)). destruct (boundaries (start + s) sizes) eqn:E.
    + destruct sizes; discriminate.
    + rewrite <- E in *. cbn in IH. rewrite E in *. cbn.
      rewrite IH. f_equal. lia.
Qed.

Lemma sumZ_scale w cus : sumZ (map (fun c => c * w) cus) = sumZ cus * w.
Proof. induction cus; cbn; lia. Qed.

Lemma boundaries_step sizes : forall start i s,
  sizes !! i = Some s ->
  exists lo, boundaries start sizes !! i = Some lo /\
             boundaries start sizes !! S i = Some (lo + s).
Proof.
  induction sizes as [|s' sizes IH]; intros start i s Hi; [discriminate|].
  destruct i as [|i]; cbn in Hi.
  - inversion Hi; subst. exists start. split; [reflexivity|].
    cbn. destruct sizes; reflexivity.
  - apply (IH (start + s')) in Hi. exact Hi.
Qed.

Lemma allocateWG_ok (d : Driver) w ids cus : forall pre acc,
  memberCUs d ids cus -> Forall (fun c => 0 <= c) cus ->
  0 <= w -> 0 <= acc -> acc + sumZ cus * w < 2 ^ 63 ->
  allocateWG (devices d) w (length pre) ids acc
    (pre ++ acc :: replicate (length ids) 0)
  = Ok (acc + sumZ cus * w,
        pre ++ boundaries acc (map (fun c => c * w) cus)).
Proof.
  intros pre acc Hm. revert pre acc.
  induction Hm as [|id cu ids cus (dv & Hdv & Hcu) _ IH];
    intros pre acc Hpos Hw Hacc Hlt.
  - cbn. do 2 f_equal. lia.
  - apply Forall_cons in Hpos as [Hc Hpos]. cbn in *.
    pose proof (sumZ_nonneg _ Hpos).
    rewrite Hdv. cbn. rewrite Hcu.
    assert (0 <= cu * w) by nia. assert (0 <= sumZ cus * w) by nia.
    rewrite (int_id (cu * w)) by nia. rewrite int_id by nia.
    replace (<[S (length pre):=acc + cu * w]>
               (pre ++ acc :: 0 :: replicate (length ids) 0))
      with ((pre ++ [acc]) ++ (acc + cu * w) :: replicate (length ids) 0).
    2:{ rewrite <- (app_assoc pre [acc]). cbn.
        replace (S (length pre)) with (length pre + 1)%nat by lia.
        rewrite insert_app_r. reflexivity. }
    replace (S (length pre)) with (length (pre ++ [acc]))
      by (rewrite length_app; cbn; lia).
    rewrite IH by (assumption || nia). rewrite <- app_assoc. cbn.
    do 2 f_equal. lia.
Qed.

(** Whatever the inputs, the loop leaves [wgAllocated] in the last slot it
    wrote. *)
Lemma allocateWG_last devs w ids : forall i acc wgDist a l,
  wgDist !! i = Some acc -> (i + length ids < length wgDist)%nat ->
  allocateWG devs w i ids acc wgDist = Ok (a, l) ->
  l !! (i + length ids)%nat = Some a /\ length l = length wgDist.
Proof.
  induction ids as [|id ids IH]; intros i acc wgDist a l Hi Hlen Hrun; cbn in *.
  - inversion Hrun; subst. rewrite Nat.add_0_r. auto.
  - destruct (index devs id) as [dv|] eqn:E; cbn in Hrun; [|discriminate].
    apply IH in Hrun as [H1 H2].
    + rewrite length_insert in H2. split; [|exact H2].
      rewrite <- H1. f_equal. lia.
    + apply list_lookup_insert_eq. lia.
    + rewrite length_insert. lia.
Qed.

Lemma index_lookup {A} (l : list A) (i : nat) a :
  l !! i = Some a -> index l (Z.of_nat i) = Ok a.
Proof.
  intros H. unfold index. destruct (Z.ltb_spec (Z.of_nat i) 0); [lia|].
  now rewrite Nat2Z.id, H.
Qed.

Lemma index_Ok {A} (l : list A) i a :
  index l i = Ok a <-> 0 <= i /\ l !! Z.to_nat i = Some a.
Proof.
  unfold index. destruct (Z.ltb_spec i 0).
  - split; [discriminate|lia].
  - destruct (l !! Z.to_nat i); split; intros H'; try discriminate.
    + inversion H'; auto.
    + destruct H' as [_ H']. congruence.
    + destruct H' as [_ H']. discriminate.
Qed.

Lemma wgPerCU_ok n total :
  1 <= n < 2 ^ 32 -> 1 <= total ->
  int (int (Z.quot (int (n - 1)) total) + 1) = ceil_div n total.
Proof.
  intros Hn Ht. rewrite (int_id (n - 1)) by lia.
  rewrite Z.quot_div_nonneg by lia.
  pose proof (ceil_div_pos n total ltac:(lia) Ht).
  pose proof (ceil_div_alt n total ltac:(lia) Ht).
  rewrite (int_id ((n - 1) / total)) by lia.
  rewrite int_id by lia. lia.
Qed.

Lemma distributeWGToGPUs_ok (d : Driver) queue cmd dev pkt0 cus :
  index (devices d) (GPUID queue) = Ok dev ->
  memberCUs d (UnifiedGPUIDs dev) cus ->
  PacketArray cmd !! 0%nat = Some pkt0 ->
  packet_ok pkt0 ->
  Forall (fun c => 0 <= c) cus -> 0 < sumZ cus ->
  ceil_div (num_wg pkt0) (sumZ cus) * sumZ cus < 2 ^ 63 ->
  distributeWGToGPUs d queue cmd =
    Ok (boundaries 0
          (map (fun c => c * ceil_div (num_wg pkt0) (sumZ cus)) cus)).
Proof.
  intros Hdev Hm Hpkt Hok Hpos Hsum Hov.
  destruct (totalWGCountOf_ok _ Hok) as [Htot Hn1].
  assert (Hn32 : num_wg pkt0 < 2 ^ 32) by (apply Hok).
  assert (1 <= ceil_div (num_wg pkt0) (sumZ cus))
    by (apply Z.div_le_lower_bound; lia).
  assert (sumZ cus < 2 ^ 63) by nia.
  unfold distributeWGToGPUs. rewrite Hdev. cbn.
  rewrite (sumCUCount_ok d _ cus 0) by (assumption || lia).
  rewrite Z.add_0_l. cbn.
  pose proof (index_lookup _ 0%nat _ Hpkt) as Hp0.
  change (Z.of_nat 0) with 0 in Hp0. rewrite Hp0. cbn. rewrite Htot. cbn.
  destruct (Z.eqb_spec (sumZ cus) 0) as [E|_]; [lia|].
  rewrite wgPerCU_ok by lia.
  set (w := ceil_div (num_wg pkt0) (sumZ cus)) in *.
  replace (length (UnifiedGPUIDs dev) + 1)%nat
    with (S (length (UnifiedGPUIDs dev))) by lia.
  cbn [replicate].
  pose proof (allocateWG_ok d w _ cus [] 0 Hm Hpos) as Hrun.
  cbn [length app] in Hrun. rewrite Hrun by lia. cbn.
  rewrite Z.add_0_l.
  pose proof (ceil_div_covers (num_wg pkt0) (sumZ cus) ltac:(lia)).
  destruct (Z.ltb_spec (sumZ cus * w) (num_wg pkt0)); [lia|]. reflexivity.
Qed.

Lemma distributeWGToGPUs_checked (d : Driver) queue cmd wgDist :
  distributeWGToGPUs d queue cmd = Ok wgDist ->
  exists dev pkt0 n w,
    index (devices d) (GPUID queue) = Ok dev /\
    PacketArray cmd !! 0%nat = Some pkt0 /\ totalWGCountOf pkt0 = Ok n /\
    length wgDist = S (length (UnifiedGPUIDs dev)) /\
    wgDist !! length (UnifiedGPUIDs dev) = Some w /\ n <= w.
Proof.
  unfold distributeWGToGPUs. intros H.
  destruct (index (devices d) (GPUID queue)) as [dev|] eqn:Hdev; [|discriminate].
  cbn in H.
  destruct (sumCUCount _ _ _) as [total|]; [|discriminate]. cbn in H.
  destruct (index (PacketArray cmd) 0) as [pkt0|] eqn:Hpkt; [|discriminate].
  apply index_Ok in Hpkt as [_ Hpkt]. change (Z.to_nat 0) with 0%nat in Hpkt.
  cbn in H. destruct (totalWGCountOf pkt0) as [n|] eqn:Hn; [|discriminate].
  cbn in H. destruct (total =? 0); [discriminate|].
  destruct (allocateWG _ _ _ _ _ _) as [[a l]|] eqn:Hrun; [|discriminate].
  cbn in H. destruct (Z.ltb_spec a n); [discriminate|].
  inversion H; subst l; clear H.
  apply allocateWG_last in Hrun as [H1 H2].
  - rewrite length_replicate in H2. cbn in H1.
    exists dev, pkt0, n, a. repeat split; auto; lia.
  - apply lookup_replicate_2. lia.
  - rewrite length_replicate. lia.
Qed.

(** C5. [distributeWGToGPUs] on a unified device whose members have CU counts
    [cus]: with a first packet whose workgroup arithmetic does not wrap, a
    positive total CU count and no overflow of [int], it returns the
    cumulative boundaries [0, c1*w, (c1+c2)*w, ...] for
    [w = ceil(num_wg / sum cus)] and
    [num_wg = ceil(gx/wgx) * ceil(gy/wgy) * ceil(gz/wgz)], and the last
    boundary is at least [num_wg].  Whatever the input, a normal return
    implies that the last boundary is at least the workgroup count the code
    computed: a violation panics. *)
Theorem distributeWGToGPUs_spec (d : Driver) queue cmd :
  (forall dev pkt0 cus,
     index (devices d) (GPUID queue) = Ok dev ->
     memberCUs d (UnifiedGPUIDs dev) cus ->
     PacketArray cmd !! 0%nat = Some pkt0 ->
     packet_ok pkt0 ->
     Forall (fun c => 0 <= c) cus -> 0 < sumZ cus ->
     ceil_div (num_wg pkt0) (sumZ cus) * sumZ cus < 2 ^ 63 ->
     let wg_per_cu := ceil_div (num_wg pkt0) (sumZ cus) in
     exists wgDist,
       totalWGCountOf pkt0 = Ok (num_wg pkt0) /\
       distributeWGToGPUs d queue cmd = Ok wgDist /\
       wgDist = boundaries 0 (map (fun c => c * wg_per_cu) cus) /\
       wgDist !! 0%nat = Some 0 /\
       (forall i c, cus !! i = Some c ->
          exists lo, wgDist !! i = Some lo /\
                     wgDist !! S i = Some (lo + c * wg_per_cu)) /\
       last wgDist = Some (sumZ cus * wg_per_cu) /\
       num_wg pkt0 <= sumZ cus * wg_per_cu) /\
  (forall wgDist,
     distributeWGToGPUs d queue cmd = Ok wgDist ->
     exists pkt0 n w,
       PacketArray cmd !! 0%nat = Some pkt0 /\ totalWGCountOf pkt0 = Ok n /\
       last wgDist = Some w /\ n <= w).
Proof.
  split.
  - intros dev pkt0 cus Hdev Hm Hpkt Hok Hpos Hsum Hov w.
    eexists. split; [apply totalWGCountOf_ok, Hok|].
    split; [eapply distributeWGToGPUs_ok; eauto|].
    split; [reflexivity|]. split; [destruct cus; reflexivity|].
    split; [|split].
    + intros i c Hi. apply boundaries_step.
      rewrite list_lookup_fmap, Hi. reflexivity.
    + rewrite boundaries_last. f_equal. rewrite sumZ_scale. lia.
    + pose proof (ceil_div_covers (num_wg pkt0) (sumZ cus) ltac:(lia)).
      subst w. lia.
  - intros wgDist H.
    apply distributeWGToGPUs_checked in H
      as (dev & pkt0 & n & w & _ & Hpkt & Hn & Hlen & Hw & Hle).
    exists pkt0, n, w. repeat split; auto.
    rewrite last_lookup, Hlen. exact Hw.
Qed.

(** ** The workgroup filter *)

(** The row-major flattened id [z*nWGx*nWGy + y*nWGx + x]. *)
Definition flattenedID (pkt : HsaKernelDispatchPacket) (wg : WorkGroup) : Z :=
  IDZ wg * ceil_div (GridSizeX pkt) (WorkgroupSizeX pkt)
         * ceil_div (GridSizeY pkt) (WorkgroupSizeY pkt)
  + IDY wg * ceil_div (GridSizeX pkt) (WorkgroupSizeX pkt)
  + IDX wg.

(** The X and Y dimensions of a packet do not wrap in [uint32]. *)
Definition packet_xy_ok (pkt : HsaKernelDispatchPacket) : Prop :=
  1 <= GridSizeX pkt < 2 ^ 32 /\ 1 <= GridSizeY pkt < 2 ^ 32 /\
  1 <= WorkgroupSizeX pkt /\ 1 <= WorkgroupSizeY pkt.

Lemma int_mod x : int x mod 2 ^ 64 = x mod 2 ^ 64.
Proof.
  unfold int.
  rewrite Zminus_mod, Z.mod_mod by lia.
  rewrite <- Zminus_mod. f_equal. lia.
Qed.

Lemma int_congr a b : a mod 2 ^ 64 = b mod 2 ^ 64 -> int a = int b.
Proof.
  intros H. unfold int.
  rewrite (Zplus_mod a), (Zplus_mod b), H. reflexivity.
Qed.

Lemma int_decomp a : exists k, int a = a + k * 2 ^ 64.
Proof.
  exists (- ((a + 2 ^ 63) / 2 ^ 64)). unfold int.
  pose proof (Z.div_mod (a + 2 ^ 63) (2 ^ 64) ltac:(lia)). lia.
Qed.

Lemma int_shift a k : int (a + k * 2 ^ 64) = int a.
Proof. apply int_congr. apply Z_mod_plus_full. Qed.

Lemma flattenedID_code pkt wg :
  - 2 ^ 63 <= flattenedID pkt wg < 2 ^ 63 ->
  let numWGX := ceil_div (GridSizeX pkt) (WorkgroupSizeX pkt) in
  let numWGY := ceil_div (GridSizeY pkt) (WorkgroupSizeY pkt) in
  int (int (int (int (IDZ wg * numWGX) * numWGY) + int (IDY wg * numWGX))
       + IDX wg) = flattenedID pkt wg.
Proof.
  intros Hr nx ny. rewrite <- (int_id _ Hr). unfold flattenedID. fold nx ny.
  destruct (int_decomp (IDZ wg * nx)) as [k1 ->].
  destruct (int_decomp ((IDZ wg * nx + k1 * 2 ^ 64) * ny)) as [k2 ->].
  destruct (int_decomp (IDY wg * nx)) as [k3 ->].
  destruct (int_decomp ((IDZ wg * nx + k1 * 2 ^ 64) * ny + k2 * 2 ^ 64
                        + (IDY wg * nx + k3 * 2 ^ 64))) as [k4 ->].
  rewrite <- (int_shift (IDZ wg * nx * ny + IDY wg * nx + IDX wg)
                (k1 * ny + k2 + k3 + k4)).
  f_equal. ring.
Qed.

Lemma WGFilter_apply_spec wgDist i lo hi pkt wg :
  wgDist !! i = Some lo -> wgDist !! S i = Some hi ->
  packet_xy_ok pkt ->
  - 2 ^ 63 <= flattenedID pkt wg < 2 ^ 63 ->
  WGFilter_apply {| captured_wgDist := wgDist;
                    currentGPUIndex := Z.of_nat i |} pkt wg
  = Ok (bool_decide (lo <= flattenedID pkt wg < hi)).
Proof.
  intros Hlo Hhi Hok Hr. unfold WGFilter_apply.
  destruct Hok as (Hx & Hy & Hwx & Hwy).
  rewrite !numWG_ok by lia. cbn [rbind].
  rewrite flattenedID_code by exact Hr.
  cbn [captured_wgDist currentGPUIndex].
  rewrite (index_lookup _ _ _ Hlo). cbn [rbind].
  replace (Z.of_nat i + 1) with (Z.of_nat (S i)) by lia.
  rewrite (index_lookup _ _ _ Hhi).
  destruct (Z.leb_spec lo (flattenedID pkt wg)); cbn.
  - f_equal. destruct (Z.ltb_spec (flattenedID pkt wg) hi);
      symmetry; [apply bool_decide_eq_true|apply bool_decide_eq_false]; lia.
  - f_equal. symmetry. apply bool_decide_eq_false. lia.
Qed.

(** ** The launch requests of a unified launch *)

(** Member [i] has a non-empty range in [wgDist]. *)
Definition range_nonempty (wgDist : list Z) (i : nat) : bool :=
  match wgDist !! i, wgDist !! S i with
  | Some lo, Some hi => negb (hi - lo =? 0)
  | _, _ => false
  end.

(** [r] is the launch request built for member [i] of [ids]. *)
Definition issued_for (gpus : list Port)
    (cmd : LaunchUnifiedMultiGPUKernelCommand) (ctx : Context)
    (wgDist ids : list Z) (i : nat) (r : LaunchKernelReq) : Prop :=
  exists g pkt dp,
    ids !! i = Some g /\
    index gpus (int (g - 1)) = Ok (Dst (lkr_meta r)) /\
    PacketArray cmd !! i = Some pkt /\ lkr_Packet r = pkt /\
    DPacketArray cmd !! i = Some dp /\ PacketAddress r = dp /\
    lkr_PID r = pid ctx /\ HsaCo r = lu_CodeObject cmd /\
    WGFilter r = Some {| captured_wgDist := wgDist;
                         currentGPUIndex := Z.of_nat i |}.

(** The filter of [r] accepts workgroup [wg] of packet [pkt]. *)
Definition accepts (r : LaunchKernelReq) (pkt : HsaKernelDispatchPacket)
    (wg : WorkGroup) : Prop :=
  exists c, WGFilter r = Some c /\ WGFilter_apply c pkt wg = Ok true.

Lemma recordLaunch_run ci qi req (s : Driver) :
  exists s', recordLaunch ci qi req s = Ok (tt, s') /\
    GPUs s' = GPUs s /\ devices s' = devices s /\
    requestsToSend s' = requestsToSend s ++ [req] /\
    nextMsgID s' = nextMsgID s /\ gpuPort s' = gpuPort s.
Proof. eexists. split; [reflexivity|]. cbn. auto. Qed.

Lemma launchOnMember_run cmd ctx ci qi wgDist ids i g lo hi dst pkt dp
    (s : Driver) :
  ids !! i = Some g ->
  wgDist !! i = Some lo -> wgDist !! S i = Some hi ->
  - 2 ^ 63 <= hi - lo < 2 ^ 63 ->
  index (GPUs s) (int (g - 1)) = Ok dst ->
  PacketArray cmd !! i = Some pkt -> DPacketArray cmd !! i = Some dp ->
  exists s' reqs,
    launchOnMember cmd ctx ci qi wgDist i g s = Ok (tt, s') /\
    GPUs s' = GPUs s /\
    requestsToSend s' = requestsToSend s ++ map MLaunchKernelReq reqs /\
    Forall2 (issued_for (GPUs s) cmd ctx wgDist ids)
            (filter (fun j => range_nonempty wgDist j = true) [i]) reqs.
Proof.
  intros Hg Hlo Hhi Hr Hdst Hpkt Hdp. unfold launchOnMember, bind, liftR.
  rewrite (index_lookup _ _ _ Hhi), (index_lookup _ _ _ Hlo).
  rewrite int_id by exact Hr.
  assert (Hne : range_nonempty wgDist i = negb (hi - lo =? 0))
    by (unfold range_nonempty; now rewrite Hlo, Hhi).
  rewrite filter_cons, Hne.
  destruct (Z.eqb_spec (hi - lo) 0) as [E|E]; cbn [negb].
  - exists s, []. rewrite decide_False by discriminate.
    cbn. rewrite app_nil_r. repeat split; auto.
  - unfold get. rewrite Hdst. unfold freshMeta.
    rewrite (index_lookup _ _ _ Hpkt), (index_lookup _ _ _ Hdp).
    edestruct recordLaunch_run as (s' & -> & HG & _ & HR & _).
    exists s'. eexists [_]. split; [reflexivity|].
    rewrite decide_True by reflexivity.
    split; [exact HG|]. split; [exact HR|].
    constructor; [|constructor].
    exists g, pkt, dp. cbn. repeat split; auto.
Qed.

Lemma unified_loop cmd ctx ci qi wgDist ids gpus : forall l i (s : Driver),
  GPUs s = gpus ->
  (forall j g, l !! j = Some g ->
     ids !! (i + j)%nat = Some g /\
     exists lo hi dst pkt dp,
       wgDist !! (i + j)%nat = Some lo /\ wgDist !! S (i + j) = Some hi /\
       - 2 ^ 63 <= hi - lo < 2 ^ 63 /\
       index gpus (int (g - 1)) = Ok dst /\
       PacketArray cmd !! (i + j)%nat = Some pkt /\
       DPacketArray cmd !! (i + j)%nat = Some dp) ->
  exists s' reqs,
    forMi i l (launchOnMember cmd ctx ci qi wgDist) s = Ok (tt, s') /\
    GPUs s' = gpus /\
    requestsToSend s' = requestsToSend s ++ map MLaunchKernelReq reqs /\
    Forall2 (issued_for gpus cmd ctx wgDist ids)
      (filter (fun j => range_nonempty wgDist j = true) (seq i (length l)))
      reqs.
Proof.
  induction l as [|g l IH]; intros i s HG Hl.
  - exists s, []. cbn. rewrite app_nil_r. repeat split; auto.
  - destruct (Hl 0%nat g eq_refl)
      as (Hg & lo & hi & dst & pkt & dp & Hlo & Hhi & Hr & Hdst & Hpkt & Hdp).
    rewrite Nat.add_0_r in *. subst gpus.
    destruct (launchOnMember_run cmd ctx ci qi wgDist ids i g lo hi dst pkt dp
                s Hg Hlo Hhi Hr Hdst Hpkt Hdp)
      as (s1 & reqs1 & Hrun1 & HG1 & HR1 & HF1).
    destruct (IH (S i) s1 HG1) as (s2 & reqs2 & Hrun2 & HG2 & HR2 & HF2).
    { intros j g' Hj. specialize (Hl (S j) g' Hj).
      replace (S i + j)%nat with (i + S j)%nat by lia. exact Hl. }
    exists s2, (reqs1 ++ reqs2). cbn [forMi]. unfold bind at 1.
    rewrite Hrun1, Hrun2. split; [reflexivity|]. split; [exact HG2|].
    split.
    + rewrite HR2, HR1, map_app, app_assoc. reflexivity.
    + cbn [length seq].
      change (i :: seq (S i) (length l)) with ([i] ++ seq (S i) (length l)).
      rewrite filter_app. apply Forall2_app; assumption.
Qed.

(** ** Ranges cover every workgroup exactly once *)

Lemma boundaries_lookup_0 start sizes : boundaries start sizes !! 0%nat = Some start.
Proof. destruct sizes; reflexivity. Qed.

Lemma boundaries_lookup_S start s sizes i :
  boundaries start (s :: sizes) !! S i = boundaries (start + s) sizes !! i.
Proof. reflexivity. Qed.

Lemma boundaries_ge sizes : Forall (fun c => 0 <= c) sizes ->
  forall start i b, boundaries start sizes !! i = Some b -> start <= b.
Proof.
  induction 1 as [|s sizes Hs _ IH]; intros start i b Hb.
  - destruct i as [|[|i]]; cbn in Hb; inversion Hb; lia.
  - destruct i as [|i].
    + rewrite boundaries_lookup_0 in Hb. inversion Hb; lia.
    + rewrite boundaries_lookup_S in Hb. apply IH in Hb. lia.
Qed.

Lemma boundaries_locate sizes : Forall (fun c => 0 <= c) sizes ->
  forall start f, start <= f < start + sumZ sizes ->
  exists i lo hi, (i < length sizes)%nat /\
    boundaries start sizes !! i = Some lo /\
    boundaries start sizes !! S i = Some hi /\ lo <= f < hi.
Proof.
  induction 1 as [|s sizes Hs _ IH]; intros start f Hf; cbn in Hf; [lia|].
  destruct (Z_lt_dec f (start + s)) as [Hlt|Hge].
  - exists 0%nat, start, (start + s). cbn [length].
    rewrite boundaries_lookup_S, !boundaries_lookup_0.
    repeat split; auto; lia.
  - destruct (IH (start + s) f ltac:(lia)) as (i & lo & hi & Hi & Hlo & Hhi & Hin).
    exists (S i), lo, hi. cbn [length]. rewrite !boundaries_lookup_S.
    repeat split; auto; lia.
Qed.

Lemma boundaries_unique sizes : Forall (fun c => 0 <= c) sizes ->
  forall start f i j lo hi lo' hi',
  boundaries start sizes !! i = Some lo ->
  boundaries start sizes !! S i = Some hi -> lo <= f < hi ->
  boundaries start sizes !! j = Some lo' ->
  boundaries start sizes !! S j = Some hi' -> lo' <= f < hi' ->
  i = j.
Proof.
  induction 1 as [|s sizes Hs Hrest IH];
    intros start f i j lo hi lo' hi' Hlo Hhi Hin Hlo' Hhi' Hin'.
  - destruct i; cbn in Hhi; discriminate.
  - destruct i as [|i], j as [|j]; auto.
    + rewrite boundaries_lookup_S, boundaries_lookup_0 in Hhi.
      rewrite boundaries_lookup_S in Hlo'.
      apply (boundaries_ge _ Hrest) in Hlo'. inversion Hhi; lia.
    + rewrite boundaries_lookup_S, boundaries_lookup_0 in Hhi'.
      rewrite boundaries_lookup_S in Hlo.
      apply (boundaries_ge _ Hrest) in Hlo. inversion Hhi'; lia.
    + f_equal. rewrite !boundaries_lookup_S in *.
      eapply (IH (start + s) f); eauto.
Qed.

Lemma boundaries_le sizes : Forall (fun c => 0 <= c) sizes ->
  forall start i b, boundaries start sizes !! i = Some b ->
  b <= start + sumZ sizes.
Proof.
  induction 1 as [|s sizes Hs Hrest IH]; intros start i b Hb.
  - destruct i as [|[|i]]; cbn in Hb; inversion Hb; cbn; lia.
  - destruct i as [|i].
    + rewrite boundaries_lookup_0 in Hb. inversion Hb; subst.
      pose proof (sumZ_nonneg _ Hrest). cbn. lia.
    + rewrite boundaries_lookup_S in Hb. apply IH in Hb. cbn. lia.
Qed.

Lemma boundaries_range sizes start i :
  Forall (fun c => 0 <= c) sizes -> (i < length sizes)%nat ->
  exists lo hi, boundaries start sizes !! i = Some lo /\
    boundaries start sizes !! S i = Some hi /\
    start <= lo /\ lo <= hi /\ hi <= start + sumZ sizes.
Proof.
  intros Hpos Hi. destruct (lookup_lt_is_Some_2 sizes i Hi) as [sz Hsz].
  destruct (boundaries_step sizes start i sz Hsz) as (lo & Hlo & Hhi).
  exists lo, (lo + sz). repeat split; auto.
  - eapply boundaries_ge; eauto.
  - rewrite Forall_lookup in Hpos. specialize (Hpos _ _ Hsz). cbn in Hpos. lia.
  - eapply boundaries_le; eauto.
Qed.

Lemma accepts_iff gpus cmd ctx wgDist ids i r lo hi pkt wg :
  issued_for gpus cmd ctx wgDist ids i r ->
  wgDist !! i = Some lo -> wgDist !! S i = Some hi ->
  packet_xy_ok pkt -> - 2 ^ 63 <= flattenedID pkt wg < 2 ^ 63 ->
  accepts r pkt wg <-> lo <= flattenedID pkt wg < hi.
Proof.
  intros (g & p & dp & _ & _ & _ & _ & _ & _ & _ & _ & Hf) Hlo Hhi Hok Hr.
  unfold accepts. rewrite Hf. split.
  - intros (c & Hc & Ha). inversion Hc; subst c; clear Hc.
    rewrite (WGFilter_apply_spec _ _ lo hi) in Ha by assumption.
    inversion Ha as [Hb]. now apply bool_decide_eq_true in Hb.
  - intros Hin. eexists. split; [reflexivity|].
    rewrite (WGFilter_apply_spec _ _ lo hi) by assumption.
    f_equal. now apply bool_decide_eq_true.
Qed.

(** C4. A unified launch over members with CU counts [cus] (non-negative,
    positive in total, no wrap-around in the workgroup arithmetic): the
    boundaries [wgDist] start at 0, consecutive ranges share a boundary and
    are in member order, no id lies in two ranges, and the last boundary is at
    least [num_wg]; the requests appended to [requestsToSend] are those of the
    members with a non-empty range, in member order; the filter of the request
    of member [i] accepts a workgroup iff its row-major flattened id lies in
    [[wgDist[i], wgDist[i+1])]; every id in [[0, num_wg)] is accepted by the
    filter of exactly one request; a member with an empty range gets none. *)
Theorem unified_launch_partition (d : Driver) ci qi cmd ctx queue dev pkt0 cus :
  contexts d !! ci = Some ctx -> queues ctx !! qi = Some queue ->
  index (devices d) (GPUID queue) = Ok dev ->
  memberCUs d (UnifiedGPUIDs dev) cus ->
  PacketArray cmd !! 0%nat = Some pkt0 -> packet_ok pkt0 ->
  Forall (fun c => 0 <= c) cus -> 0 < sumZ cus ->
  ceil_div (num_wg pkt0) (sumZ cus) * sumZ cus < 2 ^ 63 ->
  Forall (fun g => exists p, index (GPUs d) (int (g - 1)) = Ok p)
         (UnifiedGPUIDs dev) ->
  (length cus <= length (PacketArray cmd))%nat ->
  (length cus <= length (DPacketArray cmd))%nat ->
  let ids := UnifiedGPUIDs dev in
  exists wgDist d' reqs,
    distributeWGToGPUs d queue cmd = Ok wgDist /\
    processUnifiedMultiGPULaunchKernelCommand cmd ci qi d = Ok (true, d') /\
    requestsToSend d' = requestsToSend d ++ map MLaunchKernelReq reqs /\
    length wgDist = S (length cus) /\ wgDist !! 0%nat = Some 0 /\
    (forall i, (i < length cus)%nat ->
       exists lo hi, wgDist !! i = Some lo /\ wgDist !! S i = Some hi /\
                     lo <= hi) /\
    (forall f i j lo hi lo' hi',
       wgDist !! i = Some lo -> wgDist !! S i = Some hi -> lo <= f < hi ->
       wgDist !! j = Some lo' -> wgDist !! S j = Some hi' -> lo' <= f < hi' ->
       i = j) /\
    (exists total, last wgDist = Some total /\ num_wg pkt0 <= total) /\
    Forall2 (issued_for (GPUs d) cmd ctx wgDist ids)
      (filter (fun i => range_nonempty wgDist i = true) (seq 0 (length cus)))
      reqs /\
    (forall i r lo hi pkt wg,
       issued_for (GPUs d) cmd ctx wgDist ids i r ->
       wgDist !! i = Some lo -> wgDist !! S i = Some hi ->
       packet_xy_ok pkt -> - 2 ^ 63 <= flattenedID pkt wg < 2 ^ 63 ->
       (accepts r pkt wg <-> lo <= flattenedID pkt wg < hi)) /\
    (forall pkt wg,
       packet_xy_ok pkt -> 0 <= flattenedID pkt wg < num_wg pkt0 ->
       exists n,
         (exists r, reqs !! n = Some r /\ accepts r pkt wg) /\
         (forall n' r', reqs !! n' = Some r' -> accepts r' pkt wg -> n' = n)) /\
    (forall i, range_nonempty wgDist i = false ->
       ~ exists r, r ∈ reqs /\
           WGFilter r = Some {| captured_wgDist := wgDist;
                                currentGPUIndex := Z.of_nat i |}).
Proof.
  intros Hctx Hq Hdev Hm Hpkt Hok Hpos Hsum Hov Hgpus HlenP HlenD ids.
  set (w := ceil_div (num_wg pkt0) (sumZ cus)).
  set (sizes := map (fun c => c * w) cus).
  set (wgDist := boundaries 0 sizes).
  pose proof (distributeWGToGPUs_ok d queue cmd dev pkt0 cus
                Hdev Hm Hpkt Hok Hpos Hsum Hov) as Hdist.
  fold w sizes wgDist in Hdist.
  destruct (totalWGCountOf_ok _ Hok) as [_ Hn1].
  assert (Hn32 : num_wg pkt0 < 2 ^ 32) by apply Hok.
  assert (Hw : 1 <= w) by (apply Z.div_le_lower_bound; lia).
  assert (Hcov : num_wg pkt0 <= sumZ sizes).
  { unfold sizes. rewrite sumZ_scale.
    pose proof (ceil_div_covers (num_wg pkt0) (sumZ cus) ltac:(lia)).
    fold w in H. lia. }
  assert (Hsz : Forall (fun c => 0 <= c) sizes).
  { unfold sizes. rewrite Forall_fmap. eapply Forall_impl; [exact Hpos|].
    cbn. intros; nia. }
  assert (Hsum63 : sumZ sizes < 2 ^ 63)
    by (unfold sizes; rewrite sumZ_scale; lia).
  assert (Hlsz : length sizes = length cus) by (unfold sizes; apply length_map).
  assert (Hlids : length ids = length cus) by (eapply Forall2_length; eauto).
  (* the loop *)
  destruct (unified_loop cmd ctx ci qi wgDist ids (GPUs d) ids 0%nat d eq_refl)
    as (d' & reqs & Hrun & _ & Hreq & Hiss).
  { intros j g Hj. split; [exact Hj|]. cbn [Nat.add].
    assert (Hjlt : (j < length sizes)%nat)
      by (apply lookup_lt_Some in Hj; lia).
    destruct (boundaries_range sizes 0 j Hsz Hjlt)
      as (lo & hi & Hlo & Hhi & H0 & Hle & Hhi').
    rewrite Forall_lookup in Hgpus. destruct (Hgpus _ _ Hj) as [dst Hdst].
    destruct (lookup_lt_is_Some_2 (PacketArray cmd) j ltac:(lia)) as [pkt Hp].
    destruct (lookup_lt_is_Some_2 (DPacketArray cmd) j ltac:(lia)) as [dp Hd].
    exists lo, hi, dst, pkt, dp. repeat split; auto; lia. }
  rewrite Hlids in Hiss.
  exists wgDist, d', reqs.
  split; [exact Hdist|]. split.
  { unfold processUnifiedMultiGPULaunchKernelCommand, bind, getQueue, bind,
      getContext, get, liftR, ret.
    repeat first [rewrite Hctx | rewrite Hq | rewrite Hdist | rewrite Hdev
                 | progress cbn].
    fold ids. rewrite Hrun. reflexivity. }
  split; [exact Hreq|].
  split; [unfold wgDist; rewrite boundaries_length; lia|].
  split; [apply boundaries_lookup_0|].
  split.
  { intros i Hi.
    destruct (boundaries_range sizes 0 i Hsz ltac:(lia))
      as (lo & hi & Hlo & Hhi & _ & Hle & _).
    exists lo, hi. auto. }
  split; [intros f i j lo hi lo' hi'; apply (boundaries_unique sizes Hsz)|].
  split.
  { exists (0 + sumZ sizes). split; [apply boundaries_last|lia]. }
  split; [exact Hiss|].
  split; [intros i r lo hi pkt wg; apply accepts_iff|].
  split.
  - intros pkt wg Hxy Hf.
    destruct (boundaries_locate sizes Hsz 0 (flattenedID pkt wg) ltac:(lia))
      as (i & lo & hi & Hi & Hlo & Hhi & Hin).
    fold wgDist in Hlo, Hhi.
    set (idxs := filter (fun i => range_nonempty wgDist i = true)
                   (seq 0 (length cus))) in *.
    assert (Hmem : i ∈ idxs).
    { apply list_elem_of_filter. split.
      - unfold range_nonempty. rewrite Hlo, Hhi.
        destruct (Z.eqb_spec (hi - lo) 0); [lia|reflexivity].
      - apply elem_of_seq. lia. }
    apply list_elem_of_lookup in Hmem as [n Hn].
    destruct (Forall2_lookup_l _ _ _ _ _ Hiss Hn) as (r & Hr & Hir).
    exists n. split.
    + exists r. split; [exact Hr|].
      apply (accepts_iff _ _ _ _ _ _ _ lo hi pkt wg Hir); auto; lia.
    + intros n' r' Hr' Hacc.
      destruct (Forall2_lookup_r _ _ _ _ _ Hiss Hr') as (j & Hj & Hjr).
      assert (Hjin : j ∈ idxs) by (eapply list_elem_of_lookup_2; eauto).
      apply list_elem_of_filter in Hjin as [_ Hjlt].
      apply elem_of_seq in Hjlt.
      destruct (boundaries_range sizes 0 j Hsz ltac:(lia))
        as (lo' & hi' & Hlo' & Hhi' & _).
      fold wgDist in Hlo', Hhi'.
      apply (accepts_iff _ _ _ _ _ _ _ lo' hi' pkt wg Hjr) in Hacc;
        auto; try lia.
      assert (i = j) by (eapply (boundaries_unique sizes Hsz 0); eauto).
      subst j.
      assert (Hnd : NoDup idxs) by (apply NoDup_filter, NoDup_seq).
      eapply NoDup_lookup; eauto.
  - intros i Hemp (r & Hr & Hf).
    apply list_elem_of_lookup in Hr as [n Hn].
    destruct (Forall2_lookup_r _ _ _ _ _ Hiss Hn) as (j & Hj & Hjr).
    destruct Hjr as (g & p & dp & _ & _ & _ & _ & _ & _ & _ & _ & Hf').
    rewrite Hf in Hf'. inversion Hf' as [Hij].
    apply Nat2Z.inj in Hij. subst j.
    apply list_elem_of_lookup_2 in Hj.
    apply list_elem_of_filter in Hj as [Hne _]. congruence.
Qed.

(** ** [findContext] *)

Lemma findContextLoop_some m cs : forall c0,
  exists c, findContextLoop (Some m) cs (Some c0) = Ok (Some c) /\
    ((forall x, x ∈ cs -> pid x <> pmd_PID m) -> c = c0) /\
    ((exists x, x ∈ cs /\ pid x = pmd_PID m) ->
       c ∈ cs /\ pid c = pmd_PID m).
Proof.
  induction cs as [|x cs IH]; intros c0; cbn.
  - exists c0. split; [reflexivity|]. split; [auto|].
    intros (y & Hy & _). inversion Hy.
  - destruct (decide (pid x = pmd_PID m)) as [E|E].
    + destruct (IH x) as (c & -> & Hnone & Hsome). exists c.
      split; [reflexivity|]. split.
      * intros Hall. exfalso. apply (Hall x); [left|exact E].
      * intros _.
        destruct (decide (Exists (fun y => pid y = pmd_PID m) cs)) as [Hy|Hn].
        -- apply Exists_exists in Hy. destruct (Hsome Hy).
           split; [now right|auto].
        -- rewrite Hnone; [split; [left|exact E]|].
           intros y Hy Hp. apply Hn. apply Exists_exists. eauto.
    + destruct (IH c0) as (c & -> & Hnone & Hsome). exists c.
      split; [reflexivity|]. split.
      * intros Hall. apply Hnone. intros y Hy. apply Hall. now right.
      * intros (y & Hy & Hp). apply elem_of_cons in Hy as [->|Hy];
          [contradiction|].
        destruct Hsome as [H1 H2]; [eauto|]. split; [now right|auto].
Qed.

Lemma findContextLoop_not_nil cur cs : forall c0,
  findContextLoop cur cs (Some c0) <> Ok None.
Proof.
  induction cs as [|x cs IH]; intros c0; cbn; [discriminate|].
  destruct cur as [m|]; [|discriminate].
  destruct (decide (pid x = pmd_PID m)); apply IH.
Qed.

(** With a migration request current, [findContext] finds the registered
    context of that request's PID when there is one. *)
Lemma findContext_found (d : Driver) (p : PID) m :
  currentPageMigrationReq d = Some m ->
  exists c, findContext d p = Ok c /\
    ((exists x, x ∈ contexts d /\ pid x = pmd_PID m) ->
       c ∈ contexts d /\ pid c = pmd_PID m).
Proof.
  intros Hcur. unfold findContext. rewrite Hcur.
  destruct (findContextLoop_some m (contexts d) emptyContext)
    as (c & -> & _ & Hsome).
  exists c. split; [reflexivity|exact Hsome].
Qed.

(** C9. The nil check of [findContext] cannot fire: no call ends in the
    "Process does not exist" panic.  With a migration request current (as at
    its call site, which passes that request's PID), [findContext] returns a
    context for every pid: the empty sentinel when no registered context has
    the PID, a registered context with that PID otherwise. *)
Theorem findContext_never_fatal (d : Driver) (p : PID) m :
  currentPageMigrationReq d = Some m ->
  findContext d p <> Panic ProcessDoesNotExist /\
  exists c, findContext d p = Ok c /\
    (p = pmd_PID m -> (forall x, x ∈ contexts d -> pid x <> p) ->
       c = emptyContext) /\
    ((exists x, x ∈ contexts d /\ pid x = pmd_PID m) ->
       c ∈ contexts d /\ pid c = pmd_PID m).
Proof.
  intros Hcur. unfold findContext. rewrite Hcur.
  destruct (findContextLoop_some m (contexts d) emptyContext)
    as (c & -> & Hnone & Hsome).
  cbn. split; [discriminate|]. exists c. split; [reflexivity|].
  split; [|exact Hsome]. intros -> Hall. apply Hnone, Hall.
Qed.

(** Without any assumption on the driver, the only panic of [findContext]
    is the nil dereference of [d.currentPageMigrationReq]. *)
Lemma findContext_panics_only_on_nil (d : Driver) (p : PID) pk :
  findContext d p = Panic pk ->
  pk = NilDereference /\ currentPageMigrationReq d = None.
Proof.
  unfold findContext. destruct (currentPageMigrationReq d) as [m|] eqn:E.
  - destruct (findContextLoop_some m (contexts d) emptyContext) as (c & -> & _).
    discriminate.
  - destruct (contexts d) as [|x cs]; cbn; [discriminate|].
    intros H. inversion H. auto.
Qed.

(** ** Completion of a launch *)

(** No head command of any queue holds a request with identifier [reqID]. *)
Definition no_head_request (d : Driver) (reqID : nat) : Prop :=
  forall ctx q cmd r,
    ctx ∈ contexts d -> q ∈ queues ctx -> Peek q = Some cmd ->
    r ∈ GetReqs cmd -> ID (Meta r) <> reqID.

Lemma find_split {A} (P : A -> bool) l r :
  List.find P l = Some r ->
  exists l1 l2, l = l1 ++ r :: l2 /\ P r = true /\
                Forall (fun x => P x = false) l1.
Proof.
  induction l as [|x l IH]; cbn; [discriminate|].
  destruct (P x) eqn:E.
  - intros H. inversion H; subst. exists [], l. auto.
  - intros H. destruct (IH H) as (l1 & l2 & -> & Hr & Hl1).
    exists (x :: l1), l2. auto.
Qed.

Lemma find_none_Forall {A} (P : A -> bool) l :
  List.find P l = None -> Forall (fun x => P x = false) l.
Proof.
  induction l as [|x l IH]; cbn; [constructor|].
  destruct (P x) eqn:E; [discriminate|]. auto.
Qed.

Lemma removeMsgFromMsgList_split req l1 l2 :
  req ∉ l1 -> removeMsgFromMsgList req (l1 ++ req :: l2) = l1 ++ l2.
Proof.
  induction l1 as [|x l1 IH]; intros Hn; cbn.
  - now rewrite decide_True.
  - apply not_elem_of_cons in Hn as [Hx Hn].
    rewrite decide_False by congruence. now rewrite IH.
Qed.

Lemma findReqInQueue_Some reqID q r cmd :
  findReqInQueue reqID q = Some (r, cmd) ->
  exists rest l1 l2, commands q = cmd :: rest /\
    GetReqs cmd = l1 ++ r :: l2 /\ ID (Meta r) = reqID /\
    Forall (fun x => ID (Meta x) <> reqID) l1.
Proof.
  unfold findReqInQueue, Peek.
  destruct (commands q) as [|c rest]; cbn; [discriminate|].
  destruct (List.find _ _) as [r'|] eqn:E; [|discriminate].
  intros H; inversion H; subst.
  apply find_split in E as (l1 & l2 & E & Hr & Hl1).
  exists rest, l1, l2. repeat split; auto.
  - now apply Nat.eqb_eq.
  - eapply Forall_impl; [exact Hl1|]. cbn. intros x Hx. now apply Nat.eqb_neq.
Qed.

Lemma findReqInQueue_None reqID q :
  findReqInQueue reqID q = None ->
  forall cmd r, Peek q = Some cmd -> r ∈ GetReqs cmd -> ID (Meta r) <> reqID.
Proof.
  unfold findReqInQueue. intros H cmd r Hp Hr. rewrite Hp in H.
  destruct (List.find _ _) eqn:E; [discriminate|].
  apply find_none_Forall in E. rewrite Forall_forall in E.
  apply Nat.eqb_neq. apply E. exact Hr.
Qed.

Lemma findReqInQueues_Some reqID qs : forall qi0 r cmd qi,
  findReqInQueues reqID qi0 qs = Some (r, cmd, qi) ->
  exists q, (qi0 <= qi)%nat /\ qs !! (qi - qi0)%nat = Some q /\
            findReqInQueue reqID q = Some (r, cmd).
Proof.
  induction qs as [|q qs IH]; intros qi0 r cmd qi; cbn; [discriminate|].
  destruct (findReqInQueue reqID q) as [[r' cmd']|] eqn:E.
  - intros H; inversion H; subst. exists q. rewrite Nat.sub_diag. auto.
  - intros H. apply IH in H as (q' & Hle & Hq' & Hf).
    exists q'. split; [lia|]. split; [|exact Hf].
    replace (qi - qi0)%nat with (S (qi - S qi0)) by lia. exact Hq'.
Qed.

Lemma findReqInQueues_None reqID qs : forall qi0,
  findReqInQueues reqID qi0 qs = None ->
  forall q, q ∈ qs -> findReqInQueue reqID q = None.
Proof.
  induction qs as [|q qs IH]; intros qi0 H q' Hq'; [inversion Hq'|].
  cbn in H. destruct (findReqInQueue reqID q) as [[r' cmd']|] eqn:E;
    [discriminate|].
  apply elem_of_cons in Hq' as [->|Hq']; [exact E|]. eapply IH; eauto.
Qed.

Lemma findReqInContexts_Some reqID cs : forall ci0 r cmd ci qi,
  findReqInContexts reqID ci0 cs = Some (r, cmd, ci, qi) ->
  exists ctx q, (ci0 <= ci)%nat /\ cs !! (ci - ci0)%nat = Some ctx /\
    queues ctx !! qi = Some q /\ findReqInQueue reqID q = Some (r, cmd).
Proof.
  induction cs as [|c cs IH]; intros ci0 r cmd ci qi; cbn; [discriminate|].
  destruct (findReqInQueues reqID 0 (queues c)) as [[[r' cmd'] qi']|] eqn:E.
  - intros H; inversion H; subst.
    apply findReqInQueues_Some in E as (q & _ & Hq & Hf).
    rewrite Nat.sub_0_r in Hq.
    exists c, q. rewrite Nat.sub_diag. auto.
  - intros H. apply IH in H as (ctx & q & Hle & Hc & Hq & Hf).
    exists ctx, q. split; [lia|]. split; [|auto].
    replace (ci - ci0)%nat with (S (ci - S ci0)) by lia. exact Hc.
Qed.

Lemma findReqInContexts_None reqID cs : forall ci0,
  findReqInContexts reqID ci0 cs = None ->
  forall ctx q, ctx ∈ cs -> q ∈ queues ctx -> findReqInQueue reqID q = None.
Proof.
  induction cs as [|c cs IH]; intros ci0 H ctx q Hc Hq; [inversion Hc|].
  cbn in H.
  destruct (findReqInQueues reqID 0 (queues c)) as [[[r' cmd'] qi']|] eqn:E;
    [discriminate|].
  apply elem_of_cons in Hc as [->|Hc].
  - eapply findReqInQueues_None; eauto.
  - eapply IH; eauto.
Qed.

Lemma alter_as_insert {A} (f : A -> A) (l : list A) i x :
  l !! i = Some x -> alter f i l = <[i := f x]> l.
Proof.
  intros H. rewrite list_insert_alter. apply list_alter_ext; [|reflexivity].
  intros y Hy. congruence.
Qed.

Lemma updQueue_run ci qi f (d : Driver) ctx q :
  contexts d !! ci = Some ctx -> queues ctx !! qi = Some q ->
  updQueue ci qi f d =
    Ok (tt, set_contexts
              (<[ci := setQueues (<[qi := f q]> (queues ctx)) ctx]>
                 (contexts d)) d).
Proof.
  intros Hc Hq. unfold updQueue, updContext, modify. do 3 f_equal.
  rewrite (alter_as_insert _ _ _ _ Hc). f_equal.
  now rewrite (alter_as_insert _ _ _ _ Hq).
Qed.

Lemma updQueue_compose ci qi f g (d : Driver) :
  bind (updQueue ci qi f) (fun _ => updQueue ci qi g) d
  = updQueue ci qi (g ∘ f) d.
Proof.
  unfold updQueue, updContext, modify, bind, set_contexts. cbn.
  do 3 f_equal.
  rewrite list_alter_alter_eq. apply list_alter_ext; [|reflexivity].
  intros c _. cbn. unfold setQueues. cbn. f_equal.
  apply list_alter_alter_eq.
Qed.

(** C8. A [LaunchKernelRsp] whose [RspTo] matches no request of any head
    command is fatal.  Otherwise the first matching request, in scan order, is
    the one taken out of its command's list of outstanding requests, and
    nothing else in the driver changes: when requests remain, the command
    stays at the head with the shortened list; when none remains, the queue's
    [IsRunning] becomes false and the command is dequeued. *)
Theorem processLaunchKernelReturn_spec (d : Driver) (rsp : LaunchKernelRsp) :
  (no_head_request d (RspTo rsp) /\
   processLaunchKernelReturn rsp d = Panic CannotFindCommand)
  \/
  (exists req cmd ci qi ctx q rest l1 l2,
     findCommandByReqID d (RspTo rsp) = Ok (req, cmd, ci, qi) /\
     contexts d !! ci = Some ctx /\ queues ctx !! qi = Some q /\
     commands q = cmd :: rest /\
     GetReqs cmd = l1 ++ req :: l2 /\ ID (Meta req) = RspTo rsp /\
     Forall (fun r => ID (Meta r) <> RspTo rsp) l1 /\
     GetReqs (RemoveReq req cmd) = l1 ++ l2 /\
     let q' :=
       if bool_decide (length (l1 ++ l2) = 0%nat)
       then {| IsRunning := false; GPUID := GPUID q; commands := rest |}
       else {| IsRunning := IsRunning q; GPUID := GPUID q;
               commands := RemoveReq req cmd :: rest |} in
     processLaunchKernelReturn rsp d =
       Ok (true,
           set_contexts
             (<[ci := setQueues (<[qi := q']> (queues ctx)) ctx]> (contexts d))
             d)).
Proof.
  unfold processLaunchKernelReturn, findCommandByReqID, bind, get, liftR.
  destruct (findReqInContexts (RspTo rsp) 0 (contexts d))
    as [[[[req cmd] ci] qi]|] eqn:E.
  - right.
    apply findReqInContexts_Some in E as (ctx & q & _ & Hc & Hq & Hf).
    rewrite Nat.sub_0_r in Hc.
    apply findReqInQueue_Some in Hf as (rest & l1 & l2 & Hcmd & Hreqs & Hid & Hl1).
    assert (Hrm : GetReqs (RemoveReq req cmd) = l1 ++ l2).
    { unfold RemoveReq. rewrite Hreqs, removeMsgFromMsgList_split.
      - destruct cmd; cbn in *; try reflexivity.
        exfalso. eapply app_cons_not_nil. exact Hreqs.
      - intros Hin. rewrite Forall_forall in Hl1.
        now apply (Hl1 _ Hin). }
    exists req, cmd, ci, qi, ctx, q, rest, l1, l2.
    repeat (split; [assumption || reflexivity|]).
    cbn zeta. rewrite Hrm.
    assert (Hq' : forall F : CommandQueue -> CommandQueue,
              alter (fun c => setQueues (alter F qi (queues c)) c) ci
                    (contexts d)
              = <[ci := setQueues (<[qi := F q]> (queues ctx)) ctx]>
                  (contexts d)).
    { intros F. rewrite (alter_as_insert _ _ _ _ Hc). f_equal.
      now rewrite (alter_as_insert _ _ _ _ Hq). }
    destruct (bool_decide (length (l1 ++ l2) = 0%nat)).
    + rewrite <- (Hq' (fun _ => _)).
      unfold updQueue, updContext, modify, bind, ret, set_contexts. cbn.
      do 3 f_equal. rewrite !list_alter_alter_eq.
      apply list_alter_ext; [|reflexivity]. intros c Hc'.
      assert (c = ctx) by congruence. subst c.
      unfold setQueues. cbn. f_equal. rewrite !list_alter_alter_eq.
      apply list_alter_ext; [|reflexivity]. intros q0 Hq0.
      assert (q0 = q) by congruence. subst q0.
      unfold Dequeue, setIsRunning, setHead. cbn. rewrite Hcmd. reflexivity.
    + rewrite <- (Hq' (fun _ => _)).
      unfold updQueue, updContext, modify, bind, ret, set_contexts. cbn.
      do 3 f_equal.
      apply list_alter_ext; [|reflexivity]. intros c Hc'.
      assert (c = ctx) by congruence. subst c.
      unfold setQueues. cbn. f_equal.
      apply list_alter_ext; [|reflexivity]. intros q0 Hq0.
      assert (q0 = q) by congruence. subst q0.
      unfold setHead. cbn. rewrite Hcmd. reflexivity.
  - left. split; [|reflexivity].
    intros ctx q cmd r Hc Hq Hp Hr.
    eapply findReqInQueue_None; eauto.
    eapply findReqInContexts_None; eauto.
Qed.

(** ** The fan-out loops of the orchestrator *)

(** The metadata of the messages built by consecutive [New...] calls, the
    first with identifier [n]. *)
Fixpoint metas (src : Port) (n : nat) (dsts : list Port) : list MsgMeta :=
  match dsts with
  | [] => []
  | g :: rest => {| ID := n; Src := src; Dst := g |} :: metas src (S n) rest
  end.

(** [k] increments of a [uint64] counter. *)
Definition bumpACK (k : nat) (c : Z) : Z := Nat.iter k (fun x => u64 (x + 1)) c.
Arguments bumpACK : simpl never.

(** [d.GPUs[a - 1]] for each [a] of a list of 1-based [uint64] GPU ids. *)
Fixpoint resolveGPUs (gpus : list Port) (accessing : list Z)
  : result (list Port) :=
  match accessing with
  | [] => Ok []
  | a :: rest =>
      rbind (index gpus (u64 (a - 1))) (fun dst =>
      rbind (resolveGPUs gpus rest) (fun dsts => Ok (dst :: dsts)))
  end.

Lemma metas_length src n dsts : length (metas src n dsts) = length dsts.
Proof. revert n. induction dsts; intros; cbn; auto. Qed.

Lemma bumpACK_0 c : bumpACK 0 c = c.
Proof. reflexivity. Qed.

Lemma bumpACK_S k c : bumpACK k (u64 (c + 1)) = bumpACK (S k) c.
Proof. unfold bumpACK. now rewrite Nat.iter_succ_r. Qed.

Lemma bumpACK_exact k c :
  0 <= c -> c + Z.of_nat k < 2 ^ 64 -> bumpACK k c = c + Z.of_nat k.
Proof.
  revert c. induction k as [|k IH]; intros c Hc Hk.
  - unfold bumpACK. cbn. lia.
  - rewrite <- bumpACK_S. rewrite u64_id by lia. rewrite IH; lia.
Qed.

(** Two drivers with the same fields are equal. *)
Lemma Driver_ext (d1 d2 : Driver) :
  GPUs d1 = GPUs d2 ->
  devices d1 = devices d2 ->
  memAllocator d1 = memAllocator d2 ->
  pageTable d1 = pageTable d2 ->
  requestsToSend d1 = requestsToSend d2 ->
  contexts d1 = contexts d2 ->
  mmuPort d1 = mmuPort d2 ->
  gpuPort d1 = gpuPort d2 ->
  currentPageMigrationReq d1 = currentPageMigrationReq d2 ->
  toSendToMMU d1 = toSendToMMU d2 ->
  migrationReqToSendToCP d1 = migrationReqToSendToCP d2 ->
  isCurrentlyHandlingMigrationReq d1 = isCurrentlyHandlingMigrationReq d2 ->
  numRDMADrainACK d1 = numRDMADrainACK d2 ->
  numRDMARestartACK d1 = numRDMARestartACK d2 ->
  numShootDownACK d1 = numShootDownACK d2 ->
  numRestartACK d1 = numRestartACK d2 ->
  numPagesMigratingACK d1 = numPagesMigratingACK d2 ->
  isCurrentlyMigratingOnePage d1 = isCurrentlyMigratingOnePage d2 ->
  RemotePMCPorts d1 = RemotePMCPorts d2 ->
  nextMsgID d1 = nextMsgID d2 ->
  d1 = d2.
Proof. destruct d1, d2. cbn. intros. subst. reflexivity. Qed.

Ltac driver_eq :=
  apply Driver_ext; cbn;
  rewrite <- ?app_assoc, ?app_nil_r; cbn; rewrite ?bumpACK_S, ?bumpACK_0;
  try match goal with |- ?a = ?a => reflexivity end; try lia.

Lemma drain_loop l : forall s : Driver,
  forM l (fun g =>
    meta <- freshMeta g ;>
    _ <- appendRequest (MRDMADrainCmdFromDriver meta) ;>
    modify (fun d => set_numRDMADrainACK (u64 (numRDMADrainACK d + 1)) d)) s
  = Ok (tt,
        set_numRDMADrainACK (bumpACK (length l) (numRDMADrainACK s))
          (set_requestsToSend
             (requestsToSend s ++
              map MRDMADrainCmdFromDriver
                (metas (portName (gpuPort s)) (nextMsgID s) l))
             (set_nextMsgID (nextMsgID s + length l) s))).
Proof.
  induction l as [|g l IH]; intros s.
  - cbn. apply f_equal, f_equal. driver_eq.
  - cbn [forM]. cbn. rewrite IH. apply f_equal, f_equal. driver_eq.
Qed.

Lemma rdma_restart_loop l : forall s : Driver,
  forM l (fun g =>
    meta <- freshMeta g ;>
    _ <- appendRequest (MRDMARestartCmdFromDriver meta) ;>
    modify (fun d =>
      set_numRDMARestartACK (u64 (numRDMARestartACK d + 1)) d)) s
  = Ok (tt,
        set_numRDMARestartACK (bumpACK (length l) (numRDMARestartACK s))
          (set_requestsToSend
             (requestsToSend s ++
              map MRDMARestartCmdFromDriver
                (metas (portName (gpuPort s)) (nextMsgID s) l))
             (set_nextMsgID (nextMsgID s + length l) s))).
Proof.
  induction l as [|g l IH]; intros s.
  - cbn. apply f_equal, f_equal. driver_eq.
  - cbn [forM]. cbn. rewrite IH. apply f_equal, f_equal. driver_eq.
Qed.

Lemma shootdown_loop vAddr p l : forall s : Driver,
  forM l (fun a =>
    let toShootdownGPU := u64 (a - 1) in
    d <- get ;>
    dst <- liftR (index (GPUs d) toShootdownGPU) ;>
    meta <- freshMeta dst ;>
    appendRequest (MShootDownCommand
      {| sdc_meta := meta; sdc_VAddr := vAddr; sdc_PID := p |})) s
  = match resolveGPUs (GPUs s) l with
    | Ok dsts =>
        Ok (tt,
            set_requestsToSend
              (requestsToSend s ++
               map (fun meta => MShootDownCommand
                      {| sdc_meta := meta; sdc_VAddr := vAddr; sdc_PID := p |})
                   (metas (portName (gpuPort s)) (nextMsgID s) dsts))
              (set_nextMsgID (nextMsgID s + length dsts) s))
    | Panic pk => Panic pk
    end.
Proof.
  induction l as [|a l IH]; intros s.
  - cbn. apply f_equal, f_equal. driver_eq.
  - cbn [forM resolveGPUs]. cbn.
    destruct (index (GPUs s) (u64 (a - 1))) as [dst|pk]; cbn; [|reflexivity].
    rewrite IH. cbn.
    destruct (resolveGPUs (GPUs s) l) as [dsts|pk]; cbn; [|reflexivity].
    apply f_equal, f_equal. driver_eq.
Qed.

Lemma gpu_restart_loop l : forall s : Driver,
  forM l (fun a =>
    let restartGPUID := u64 (a - 1) in
    d <- get ;>
    dst <- liftR (index (GPUs d) restartGPUID) ;>
    meta <- freshMeta dst ;>
    _ <- appendRequest (MGPURestartReq meta) ;>
    modify (fun d => set_numRestartACK (u64 (numRestartACK d + 1)) d)) s
  = match resolveGPUs (GPUs s) l with
    | Ok dsts =>
        Ok (tt,
            set_numRestartACK (bumpACK (length dsts) (numRestartACK s))
              (set_requestsToSend
                 (requestsToSend s ++
                  map MGPURestartReq
                    (metas (portName (gpuPort s)) (nextMsgID s) dsts))
                 (set_nextMsgID (nextMsgID s + length dsts) s)))
    | Panic pk => Panic pk
    end.
Proof.
  induction l as [|a l IH]; intros s.
  - cbn. apply f_equal, f_equal. driver_eq.
  - cbn [forM resolveGPUs]. cbn.
    destruct (index (GPUs s) (u64 (a - 1))) as [dst|pk]; cbn; [|reflexivity].
    rewrite IH. cbn.
    destruct (resolveGPUs (GPUs s) l) as [dsts|pk]; cbn; [|reflexivity].
    apply f_equal, f_equal. driver_eq.
Qed.

Lemma resolveGPUs_length gpus l dsts :
  resolveGPUs gpus l = Ok dsts -> length dsts = length l.
Proof.
  revert dsts. induction l as [|a l IH]; intros dsts; cbn.
  - intros H; inversion H; reflexivity.
  - destruct (index gpus (u64 (a - 1))); cbn; [|discriminate].
    destruct (resolveGPUs gpus l); cbn; [|discriminate].
    intros H; inversion H; subst. cbn. f_equal. now apply IH.
Qed.

(** ** The MIGRATE phase *)

(** The page the driver writes through: the allocated page with its device
    and migration flag set. *)
Definition markMigrating (np : Page) (device : Z) : Page :=
  {| page_PID := page_PID np; PAddr := PAddr np; VAddr := VAddr np;
     PageSize := PageSize np; DeviceID := device; Unified := Unified np;
     IsMigrating := true; IsPinned := IsPinned np |}.

(** The (requesting GPU, v-address) pairs in the order the loops visit them. *)
Definition migrationWork (groups : list (Z * list Z)) : list (Z * Z) :=
  concat (map (fun '(r, vs) => map (pair r) vs) groups).

(** What the claim says of the MIGRATE phase, as a relation: starting in [s],
    the pairs of [work] are handled one after the other, enqueueing [reqs]
    and ending in [s'].  For a pair [(r, v)]: the old page is looked up at
    [(pid ctx, v)]; a page is allocated on device [r+1] at [v], marked and
    written through: in the state [s1] the pair leaves, the page table holds
    the marked page under its PID and v-address and is otherwise the table
    the allocator returned; the request carries the old and the new physical
    address, the page size of the migration request and the PMC port
    [pmc]. *)
Inductive migrates (m : PageMigrationReqToDriver) (ctx : Context)
    (pmc : Port) : Driver -> list (Z * Z) -> list PageMigrationReqToCP ->
                   Driver -> Prop :=
| migrates_nil s : migrates m ctx pmc s [] [] s
| migrates_cons s r v work reqs s' old np alloc pt dst :
    pt_Find (pageTable s) (pid ctx) v = Some old ->
    AllocatePageWithGivenVAddr (pid ctx) (int (u64 (r + 1))) v true
      (memAllocator s) (pageTable s) = (np, alloc, pt) ->
    index (GPUs s) r = Ok dst ->
    let newPage := markMigrating np (u64 (r + 1)) in
    let req :=
      {| pmr_meta := {| ID := nextMsgID s; Src := portName (gpuPort s);
                        Dst := dst |};
         ToReadFromPhysicalAddress := PAddr old;
         ToWriteToPhysicalAddress := PAddr newPage;
         DestinationPMCPort := pmc;
         pmr_PageSize := pmd_PageSize m |} in
    let s1 :=
      set_numPagesMigratingACK (u64 (numPagesMigratingACK s + 1))
        (set_migrationReqToSendToCP (migrationReqToSendToCP s ++ [req])
           (set_nextMsgID (S (nextMsgID s))
              (set_pageTable (pt_Update newPage pt)
                 (set_memAllocator alloc s)))) in
    pt_Find (pageTable s1) (page_PID np) (VAddr np) = Some newPage ->
    (forall p v', (p, v') <> (page_PID np, VAddr np) ->
       pt_Find (pageTable s1) p v' = pt_Find pt p v') ->
    migrates m ctx pmc s1 work reqs s' ->
    migrates m ctx pmc s ((r, v) :: work) (req :: reqs) s'.

(** A page written to the table is found under its PID and v-address, and
    no other entry changes. *)
Lemma pt_Find_Update_eq pg pt :
  pt_Find (pt_Update pg pt) (page_PID pg) (VAddr pg) = Some pg.
Proof. unfold pt_Find, pt_Update. apply lookup_insert_eq. Qed.

Lemma pt_Find_Update_ne pg pt p v :
  (p, v) <> (page_PID pg, VAddr pg) ->
  pt_Find (pt_Update pg pt) p v = pt_Find pt p v.
Proof.
  intros H. unfold pt_Find, pt_Update. apply lookup_insert_ne. congruence.
Qed.

Lemma forM_app {A} (l1 l2 : list A) (f : A -> M unit) (s : Driver) :
  forM (l1 ++ l2) f s = bind (forM l1 f) (fun _ => forM l2 f) s.
Proof.
  revert s. induction l1 as [|x l1 IH]; intros s; cbn.
  - reflexivity.
  - destruct (f x s) as [[[] s1]|pk]; [apply IH|reflexivity].
Qed.

Lemma forM_groups (groups : list (Z * list Z)) (f : Z -> Z -> M unit)
    (s : Driver) :
  forM groups (fun '(r, vs) => forM vs (f r)) s
  = forM (migrationWork groups) (fun '(r, v) => f r v) s.
Proof.
  revert s. induction groups as [|[r vs] groups IH]; intros s.
  - reflexivity.
  - unfold migrationWork. cbn [map concat forM]. rewrite forM_app. cbn.
    assert (E : forM (map (pair r) vs) (fun '(r, v) => f r v) s
                = forM vs (f r) s).
    { clear. revert s. induction vs as [|v vs IHv]; intros s; cbn; auto.
      destruct (f r v s) as [[[] s1]|pk]; auto. }
    rewrite E. destruct (forM vs (f r) s) as [[[] s1]|pk]; [apply IH|auto].
Qed.

Lemma migrateOnePage_run m ctx pmc r v (s : Driver) :
  migrateOnePage m ctx pmc r v s =
  match pt_Find (pageTable s) (pid ctx) v with
  | None => Panic PageNotFound
  | Some old =>
      let '(np, alloc, pt) :=
        AllocatePageWithGivenVAddr (pid ctx) (int (u64 (r + 1))) v true
          (memAllocator s) (pageTable s) in
      match index (GPUs s) r with
      | Panic pk => Panic pk
      | Ok dst =>
          let newPage := markMigrating np (u64 (r + 1)) in
          let req :=
            {| pmr_meta := {| ID := nextMsgID s; Src := portName (gpuPort s);
                              Dst := dst |};
               ToReadFromPhysicalAddress := PAddr old;
               ToWriteToPhysicalAddress := PAddr newPage;
               DestinationPMCPort := pmc;
               pmr_PageSize := pmd_PageSize m |} in
          Ok (tt,
              set_numPagesMigratingACK (u64 (numPagesMigratingACK s + 1))
                (set_migrationReqToSendToCP
                   (migrationReqToSendToCP s ++ [req])
                   (set_nextMsgID (S (nextMsgID s))
                      (set_pageTable (pt_Update newPage pt)
                         (set_memAllocator alloc s)))))
      end
  end.
Proof.
  unfold migrateOnePage, preparePageForMigration. cbn.
  destruct (pt_Find (pageTable s) (pid ctx) v) as [old|]; [|reflexivity].
  destruct (AllocatePageWithGivenVAddr _ _ _ _ _ _) as [[np alloc] pt].
  cbn. destruct (index (GPUs s) r) as [dst|pk]; reflexivity.
Qed.

Lemma migrate_loop m ctx pmc work : forall (s s' : Driver),
  forM work (fun '(r, v) => migrateOnePage m ctx pmc r v) s = Ok (tt, s')
  <-> exists reqs, migrates m ctx pmc s work reqs s'.
Proof.
  induction work as [|[r v] work IH]; intros s s'.
  - cbn. split.
    + intros H; inversion H; subst. exists []. constructor.
    + intros [reqs H]. inversion H; subst. reflexivity.
  - cbn [forM]. cbn. rewrite migrateOnePage_run. split.
    + destruct (pt_Find (pageTable s) (pid ctx) v) as [old|] eqn:Ho;
        [|discriminate].
      destruct (AllocatePageWithGivenVAddr _ _ _ _ _ _) as [[np alloc] pt]
        eqn:Ha.
      destruct (index (GPUs s) r) as [dst|pk] eqn:Hd; [|discriminate].
      cbn zeta. intros H. apply IH in H as [reqs H].
      eexists. eapply migrates_cons; eauto.
      * cbn. apply (pt_Find_Update_eq (markMigrating np (u64 (r + 1)))).
      * intros p v' Hne. cbn.
        apply (pt_Find_Update_ne (markMigrating np (u64 (r + 1)))).
        exact Hne.
    + intros [reqs H]. inversion H; subst.
      match goal with
      | H1 : pt_Find _ _ _ = _, H2 : AllocatePageWithGivenVAddr _ _ _ _ _ _ = _,
        H3 : index _ _ = _ |- _ => rewrite H1, H2, H3
      end.
      cbn zeta. apply IH. eauto.
Qed.

Lemma gpuIDs_elem (d : Driver) i :
  i ∈ gpuIDs d <-> 1 <= i <= Z.of_nat (length (GPUs d)).
Proof.
  unfold gpuIDs. rewrite list_elem_of_fmap. split.
  - intros (k & -> & Hk). apply elem_of_seq in Hk. lia.
  - intros Hi. exists (Z.to_nat i). split; [lia|]. apply elem_of_seq. lia.
Qed.

Lemma findRequestingGPUs_elem (d : Driver) info r :
  r ∈ findRequestingGPUs d info <->
  0 <= r < Z.of_nat (length (GPUs d)) /\ is_Some (info !! (r + 1)).
Proof.
  unfold findRequestingGPUs. rewrite list_elem_of_omap. split.
  - intros (i & Hi & Hr). apply gpuIDs_elem in Hi.
    destruct (info !! i) as [vs|] eqn:E; [|discriminate].
    inversion Hr; subst. replace (i - 1 + 1) with i by lia.
    split; [lia|]. rewrite E. eauto.
  - intros (Hr & vs & Hvs). exists (r + 1). split.
    + apply gpuIDs_elem. lia.
    + rewrite Hvs. f_equal. lia.
Qed.

Lemma pageVaddrsOf_lookup info rs r :
  pageVaddrsOf info rs !! r =
  if decide (r ∈ rs) then Some (default [] (info !! u64 (r + 1))) else None.
Proof.
  unfold pageVaddrsOf.
  assert (G : forall acc : gmap Z (list Z),
    foldl (fun pv r => <[r := default [] (info !! u64 (r + 1))]> pv) acc rs !! r
    = if decide (r ∈ rs) then Some (default [] (info !! u64 (r + 1)))
      else acc !! r).
  { induction rs as [|x rs IH]; intros acc; cbn.
    - rewrite decide_False by apply not_elem_of_nil. reflexivity.
    - rewrite IH. destruct (decide (r ∈ rs)) as [Hin|Hnin].
      + rewrite decide_True by (now right). reflexivity.
      + destruct (decide (r = x)) as [->|Hne].
        * rewrite decide_True by left. apply lookup_insert_eq.
        * rewrite decide_False
            by (intros H; apply elem_of_cons in H as [?|?]; auto).
          now apply lookup_insert_ne. }
  rewrite G. destruct (decide (r ∈ rs)); [reflexivity|apply lookup_empty].
Qed.

(** The groups visited by the MIGRATE loop are the keys of the request's map
    that name a registered GPU, each once, shifted to 0-based, with their
    lists of v-addresses. *)
Lemma migration_groups (d : Driver) info r vs :
  Z.of_nat (length (GPUs d)) < 2 ^ 64 ->
  (r, vs) ∈ rangeOrder (pageVaddrsOf info (findRequestingGPUs d info))
  <-> 0 <= r < Z.of_nat (length (GPUs d)) /\ info !! (r + 1) = Some vs.
Proof.
  intros Hn. rewrite rangeOrder_perm, elem_of_map_to_list.
  rewrite pageVaddrsOf_lookup.
  destruct (decide (r ∈ findRequestingGPUs d info)) as [Hin|Hnin].
  - apply findRequestingGPUs_elem in Hin as (Hr & vs' & Hvs').
    rewrite u64_id by lia. rewrite Hvs'. cbn. split.
    + intros H; inversion H; subst; auto.
    + intros [_ H]; congruence.
  - split; [discriminate|]. intros [Hr Hvs]. exfalso. apply Hnin.
    apply findRequestingGPUs_elem. split; [exact Hr|eauto].
Qed.

Lemma migration_groups_NoDup pv : NoDup (map fst (rangeOrder pv)).
Proof.
  rewrite rangeOrder_perm. apply NoDup_fst_map_to_list.
Qed.

Lemma migrates_effect m ctx pmc (s s' : Driver) work reqs :
  migrates m ctx pmc s work reqs s' ->
  migrationReqToSendToCP s' = migrationReqToSendToCP s ++ reqs /\
  numPagesMigratingACK s' = bumpACK (length work) (numPagesMigratingACK s) /\
  nextMsgID s' = (nextMsgID s + length work)%nat /\
  Forall2 (fun '(r, v) req =>
             DestinationPMCPort req = pmc /\
             pmr_PageSize req = pmd_PageSize m /\
             index (GPUs s) r = Ok (Dst (pmr_meta req)))
          work reqs /\
  GPUs s' = GPUs s /\ requestsToSend s' = requestsToSend s /\
  gpuPort s' = gpuPort s /\ mmuPort s' = mmuPort s /\
  contexts s' = contexts s /\
  currentPageMigrationReq s' = currentPageMigrationReq s /\
  toSendToMMU s' = toSendToMMU s /\
  isCurrentlyHandlingMigrationReq s' = isCurrentlyHandlingMigrationReq s /\
  isCurrentlyMigratingOnePage s' = isCurrentlyMigratingOnePage s /\
  numRDMADrainACK s' = numRDMADrainACK s /\
  numRDMARestartACK s' = numRDMARestartACK s /\
  numShootDownACK s' = numShootDownACK s /\
  numRestartACK s' = numRestartACK s /\
  devices s' = devices s /\ RemotePMCPorts s' = RemotePMCPorts s.
Proof.
  induction 1 as [s|s r v work reqs s' old np alloc pt dst Ho Ha Hd np' req
                    s1 _ _ _ IH].
  - rewrite app_nil_r. cbn. repeat split; auto.
  - subst s1. cbn in IH.
    destruct IH as (H1 & H2 & H3 & H4 & H5 & H6 & H7 & H8 & H9 & H10 & H11
                    & H12 & H13 & H14 & H15 & H16 & H17 & H18 & H19).
    rewrite H1, H2, H3, H5, H6, H7, H8, H9, H10, H11, H12, H13, H14, H15,
      H16, H17, H18, H19.
    rewrite <- app_assoc, bumpACK_S. cbn [length].
    repeat split; auto; try lia;
      try (constructor; [|exact H4]; cbn; auto).
Qed.

(** The state after the MIGRATE loops, but for the allocator and the page
    table. *)
Lemma migrates_state m ctx pmc (s s' : Driver) work reqs :
  migrates m ctx pmc s work reqs s' ->
  length reqs = length work /\
  exists pt alloc,
    s' = set_numPagesMigratingACK
           (bumpACK (length work) (numPagesMigratingACK s))
           (set_migrationReqToSendToCP (migrationReqToSendToCP s ++ reqs)
              (set_nextMsgID (nextMsgID s + length work)
                 (set_pageTable pt (set_memAllocator alloc s)))).
Proof.
  intros H. apply migrates_effect in H
    as (H1 & H2 & H3 & H4 & H5 & H6 & H7 & H8 & H9 & H10 & H11
        & H12 & H13 & H14 & H15 & H16 & H17 & H18 & H19).
  split; [symmetry; eapply Forall2_length; eauto|].
  exists (pageTable s'), (memAllocator s').
  apply Driver_ext; cbn; assumption || reflexivity.
Qed.

(** The last shootdown acknowledgement runs the MIGRATE loops. *)
Lemma processShootdownCompleteRsp_last (s : Driver) m b s' :
  currentPageMigrationReq s = Some m ->
  u64 (numShootDownACK s - 1) = 0 ->
  processShootdownCompleteRsp s = Ok (b, s') ->
  exists pmc ctx reqs,
    migrates m ctx pmc (set_numShootDownACK 0 s)
      (migrationWork
         (rangeOrder (pageVaddrsOf (GPUReqToVAddrMap m)
                        (findRequestingGPUs s (GPUReqToVAddrMap m)))))
      reqs s'.
Proof.
  intros Hcur Hz. unfold processShootdownCompleteRsp. cbn.
  rewrite Hz. cbn. unfold currentReq. cbn. rewrite Hcur. cbn.
  destruct (index (RemotePMCPorts s) (u64 (CurrPageHostGPU m - 1)))
    as [pmc|pk]; cbn; [|discriminate].
  change (findContext (set_numShootDownACK 0 s) (pmd_PID m))
    with (findContext s (pmd_PID m)).
  destruct (findContext s (pmd_PID m)) as [ctx|pk]; cbn; [|discriminate].
  change (findRequestingGPUs (set_numShootDownACK 0 s) (GPUReqToVAddrMap m))
    with (findRequestingGPUs s (GPUReqToVAddrMap m)).
  rewrite forM_groups.
  destruct (forM _ _ _) as [[[] s1]|pk] eqn:Hrun; [|discriminate].
  intros H; inversion H; subst b s'; clear H.
  apply migrate_loop in Hrun. destruct Hrun as [reqs Hrun]. eauto.
Qed.

(** Any other shootdown acknowledgement only counts down. *)
Lemma processShootdownCompleteRsp_waiting (s : Driver) :
  u64 (numShootDownACK s - 1) <> 0 ->
  processShootdownCompleteRsp s =
  Ok (false, set_numShootDownACK (u64 (numShootDownACK s - 1)) s).
Proof.
  intros Hz. unfold processShootdownCompleteRsp. cbn.
  destruct (Z.eqb_spec (u64 (numShootDownACK s - 1)) 0); [contradiction|].
  reflexivity.
Qed.

(** An allocator that hands out the page it is asked for, with the PID and
    the v-address given, and touches the page table at that key only. *)
Definition allocator_places : Prop :=
  forall p dev v u a pt np a' pt',
    AllocatePageWithGivenVAddr p dev v u a pt = (np, a', pt') ->
    page_PID np = p /\ VAddr np = v /\
    forall p' v', (p', v') <> (p, v) -> pt_Find pt' p' v' = pt_Find pt p' v'.

Lemma elem_of_migrationWork groups r v :
  (r, v) ∈ migrationWork groups <-> exists vs, (r, vs) ∈ groups /\ v ∈ vs.
Proof.
  unfold migrationWork. induction groups as [|[r0 vs0] groups IH]; cbn.
  - split; [intros H; inversion H|intros (vs & H & _); inversion H].
  - rewrite elem_of_app, IH, list_elem_of_fmap. split.
    + intros [(v0 & E & Hv)|(vs & H1 & H2)].
      * inversion E; subst. exists vs0. split; [left|exact Hv].
      * exists vs. split; [now right|exact H2].
    + intros (vs & H1 & H2). apply elem_of_cons in H1 as [E|H1].
      * inversion E; subst. left. eauto.
      * right. eauto.
Qed.

(** The page table after the MIGRATE loops, with such an allocator: every
    v-address of the work is mapped, under the PID of the context, to a page
    marked migrating on the device of a GPU that requested it, whose physical
    address is the destination of one of the requests enqueued; every other
    entry is as before. *)
Lemma migrates_pages m ctx pmc (s s' : Driver) work reqs :
  allocator_places ->
  migrates m ctx pmc s work reqs s' ->
  (forall v, v ∈ map snd work ->
     exists r pg req,
       (r, v) ∈ work /\ req ∈ reqs /\
       pt_Find (pageTable s') (pid ctx) v = Some pg /\
       page_PID pg = pid ctx /\ VAddr pg = v /\
       DeviceID pg = u64 (r + 1) /\ IsMigrating pg = true /\
       ToWriteToPhysicalAddress req = PAddr pg) /\
  (forall p v, ~ (p = pid ctx /\ v ∈ map snd work) ->
     pt_Find (pageTable s') p v = pt_Find (pageTable s) p v).
Proof.
  intros Hal.
  induction 1 as [s|s r v work reqs s' old np alloc pt dst Ho Ha Hd np' req
                    s1 Hw Hfr _ IH].
  - split; [intros v H; inversion H|reflexivity].
  - destruct IH as [IH1 IH2].
    destruct (Hal _ _ _ _ _ _ _ _ _ Ha) as (Hp & Hv & Hpt).
    rewrite Hp, Hv in Hw, Hfr.
    assert (Hs1 : forall p v', (p, v') <> (pid ctx, v) ->
              pt_Find (pageTable s1) p v' = pt_Find (pageTable s) p v').
    { intros p v' Hne. rewrite (Hfr p v' Hne). apply Hpt. exact Hne. }
    split.
    + intros v0 Hv0. cbn in Hv0.
      destruct (decide (v0 ∈ map snd work)) as [Hin|Hnin].
      * destruct (IH1 v0 Hin) as (r' & pg & rq & H1 & H2 & H3).
        exists r', pg, rq. split; [now right|]. split; [now right|exact H3].
      * apply elem_of_cons in Hv0 as [->|Hv0]; [|contradiction].
        exists r, np', req. split; [left|]. split; [left|].
        rewrite IH2 by tauto. rewrite Hw. subst np'. cbn.
        repeat split; auto.
    + intros p v0 Hno. cbn in Hno.
      rewrite IH2 by (intros [E Hin]; apply Hno; split; [exact E|now right]).
      apply Hs1. intros E. inversion E; subst. apply Hno.
      split; [reflexivity|left].
Qed.

(** C2. The last [ShootDownCompleteRsp] of a migration starts the MIGRATE
    phase.  The loops visit every key of [gpu_to_vaddrs] that names a
    registered GPU (0-based [r], the key being [r+1]) once, with its list of
    v-addresses.  The handler returns normally exactly when every pair
    [(r, v)] can be handled as [migrates] says: the old page is found at
    [(pid, v)], where [pid] is the PID of the context found for the request
    (the request's PID when that process is registered); a page is allocated
    on device [r+1] at [v], gets [IsMigrating = true] and [DeviceID = r+1] and
    is written to the page table, where it is found under its PID and
    v-address as soon as the pair is handled; a [PageMigrationReqToCP] is
    appended with the old physical address as source, the new page's as
    destination, the request's page size, and the PMC port of the current
    host GPU.  With an allocator that hands out the page it is asked for and
    touches the table at that key only, the table the handler leaves maps
    every v-address of the request, under that PID, to a page marked
    migrating on device [r+1] of a GPU [r] that requested it, with the
    physical address one of the requests writes to, and is elsewhere the
    table the handler found. *)
Theorem migrate_phase (d : Driver) m :
  currentPageMigrationReq d = Some m ->
  u64 (numShootDownACK d - 1) = 0 ->
  Z.of_nat (length (GPUs d)) < 2 ^ 64 ->
  let info := GPUReqToVAddrMap m in
  let groups := rangeOrder (pageVaddrsOf info (findRequestingGPUs d info)) in
  (forall r vs, (r, vs) ∈ groups <->
     0 <= r < Z.of_nat (length (GPUs d)) /\ info !! (r + 1) = Some vs) /\
  NoDup (map fst groups) /\
  (forall b d',
     processShootdownCompleteRsp d = Ok (b, d') <->
     b = true /\
     exists pmc ctx reqs,
       index (RemotePMCPorts d) (u64 (CurrPageHostGPU m - 1)) = Ok pmc /\
       findContext d (pmd_PID m) = Ok ctx /\
       ((exists x, x ∈ contexts d /\ pid x = pmd_PID m) ->
          pid ctx = pmd_PID m) /\
       migrates m ctx pmc (set_numShootDownACK 0 d)
         (migrationWork groups) reqs d' /\
       migrationReqToSendToCP d' = migrationReqToSendToCP d ++ reqs /\
       Forall2 (fun '(r, v) req =>
                  DestinationPMCPort req = pmc /\
                  pmr_PageSize req = pmd_PageSize m /\
                  index (GPUs d) r = Ok (Dst (pmr_meta req)))
               (migrationWork groups) reqs /\
       (allocator_places ->
          (forall r v, (r, v) ∈ migrationWork groups ->
             exists r' pg req,
               (r', v) ∈ migrationWork groups /\ req ∈ reqs /\
               pt_Find (pageTable d') (pid ctx) v = Some pg /\
               page_PID pg = pid ctx /\ VAddr pg = v /\
               DeviceID pg = r' + 1 /\ IsMigrating pg = true /\
               ToWriteToPhysicalAddress req = PAddr pg) /\
          (forall p v,
             ~ (p = pid ctx /\ exists r, (r, v) ∈ migrationWork groups) ->
             pt_Find (pageTable d') p v = pt_Find (pageTable d) p v))).
Proof.
  intros Hcur Hz Hn info groups.
  split; [intros r vs; apply migration_groups; exact Hn|].
  split; [apply migration_groups_NoDup|].
  intros b d'. unfold processShootdownCompleteRsp. cbn.
  rewrite Hz. cbn. unfold currentReq. cbn. rewrite Hcur. cbn.
  destruct (findContext_found d (pmd_PID m) m Hcur) as (ctx & Hctx & Hreg).
  destruct (index (RemotePMCPorts d) (u64 (CurrPageHostGPU m - 1)))
    as [pmc|pk] eqn:Hpmc; cbn.
  2:{ split; [discriminate|]. intros (_ & pmc & ? & ? & H & _). discriminate. }
  change (findContext (set_numShootDownACK 0 d) (pmd_PID m))
    with (findContext d (pmd_PID m)).
  rewrite Hctx. cbn. fold info.
  change (findRequestingGPUs (set_numShootDownACK 0 d) info)
    with (findRequestingGPUs d info).
  fold groups. rewrite forM_groups.
  destruct (forM (migrationWork groups) _ _) as [[[] s1]|pk] eqn:Hrun.
  - apply migrate_loop in Hrun as [reqs Hrun].
    pose proof (migrates_effect _ _ _ _ _ _ _ Hrun) as (H1 & _ & _ & H4 & _).
    split.
    + intros H; inversion H; subst. split; [reflexivity|].
      exists pmc, ctx, reqs.
      split; [reflexivity|]. split; [reflexivity|].
      split; [intros Hx; apply Hreg in Hx; tauto|].
      split; [exact Hrun|]. split; [exact H1|]. split; [exact H4|].
      intros Hal.
      destruct (migrates_pages _ _ _ _ _ _ _ Hal Hrun) as [P1 P2].
      split.
      * intros r v Hin.
        destruct (P1 v) as (r' & pg & req & Q1 & Q2 & Q3 & Q4 & Q5 & Q6
                            & Q7 & Q8).
        { apply list_elem_of_fmap. exists (r, v). split; [reflexivity|].
          exact Hin. }
        exists r', pg, req. repeat split; auto.
        rewrite Q6. apply u64_id.
        apply elem_of_migrationWork in Q1 as (vs & Hg & _).
        apply migration_groups in Hg; [|exact Hn]. lia.
      * intros p v Hno. rewrite P2; [reflexivity|].
        intros [E Hin]. apply Hno. split; [exact E|].
        apply list_elem_of_fmap in Hin as ([r0 v0] & E' & Hin).
        cbn in E'. subst v0. eauto.
    + intros (-> & pmc' & ctx' & reqs' & Hp' & Hc' & _ & Hm' & _).
      inversion Hp'; inversion Hc'; subst pmc' ctx'.
      assert (Hrun' : forM (migrationWork groups)
                (fun '(r, v) => migrateOnePage m ctx pmc r v)
                (set_numShootDownACK 0 d) = Ok (tt, d'))
        by (apply migrate_loop; eauto).
      assert (Hrun2 : forM (migrationWork groups)
                (fun '(r, v) => migrateOnePage m ctx pmc r v)
                (set_numShootDownACK 0 d) = Ok (tt, s1))
        by (apply migrate_loop; eauto).
      congruence.
  - split; [discriminate|].
    intros (-> & pmc' & ctx' & reqs' & Hp' & Hc' & _ & Hm' & _).
    inversion Hp'; inversion Hc'; subst pmc' ctx'.
    assert (Hrun' : forM (migrationWork groups)
              (fun '(r, v) => migrateOnePage m ctx pmc r v)
              (set_numShootDownACK 0 d) = Ok (tt, d'))
      by (apply migrate_loop; eauto).
    congruence.
Qed.

(** ** Frames: what a computation leaves alone *)

(** The five phases of the orchestrator; a request and its response belong
    to the same phase. *)
Inductive Phase : Type :=
| DrainRDMA | Shootdown | Migrate | GPURestart | RDMARestart.

#[global] Instance Phase_eq_dec : EqDecision Phase.
Proof. solve_decision. Defined.

Definition phaseOf (m : Msg) : option Phase :=
  match m with
  | MRDMADrainCmdFromDriver _ | MRDMADrainRspToDriver _ => Some DrainRDMA
  | MShootDownCommand _ | MShootDownCompleteRsp _ => Some Shootdown
  | MPageMigrationReqToCP _ | MPageMigrationRspToDriver _ => Some Migrate
  | MGPURestartReq _ | MGPURestartRsp _ => Some GPURestart
  | MRDMARestartCmdFromDriver _ | MRDMARestartRspToDriver _ => Some RDMARestart
  | _ => None
  end.

(** Every normal outcome of [c] is related to its start by [R]. *)
Definition respects (R : Driver -> Driver -> Prop) {A} (c : M A) : Prop :=
  forall d a d', c d = Ok (a, d') -> R d d'.

(** What command admission and launch completion leave alone: everything
    but the contexts, the allocator, the page table and the identifier
    generator; [requestsToSend] only grows, by messages of no phase. *)
Definition own_frame (d d' : Driver) : Prop :=
  GPUs d' = GPUs d /\ devices d' = devices d /\
  RemotePMCPorts d' = RemotePMCPorts d /\
  mmuPort d' = mmuPort d /\ gpuPort d' = gpuPort d /\
  currentPageMigrationReq d' = currentPageMigrationReq d /\
  toSendToMMU d' = toSendToMMU d /\
  migrationReqToSendToCP d' = migrationReqToSendToCP d /\
  isCurrentlyHandlingMigrationReq d' = isCurrentlyHandlingMigrationReq d /\
  isCurrentlyMigratingOnePage d' = isCurrentlyMigratingOnePage d /\
  numRDMADrainACK d' = numRDMADrainACK d /\
  numRDMARestartACK d' = numRDMARestartACK d /\
  numShootDownACK d' = numShootDownACK d /\
  numRestartACK d' = numRestartACK d /\
  numPagesMigratingACK d' = numPagesMigratingACK d /\
  exists extra, requestsToSend d' = requestsToSend d ++ extra /\
                Forall (fun m => phaseOf m = None) extra.

Lemma own_frame_refl d : own_frame d d.
Proof.
  unfold own_frame. repeat split; auto.
  exists []. now rewrite app_nil_r.
Qed.

Lemma own_frame_trans a b c : own_frame a b -> own_frame b c -> own_frame a c.
Proof.
  unfold own_frame.
  intros (A1 & A2 & A3 & A4 & A5 & A6 & A7 & A8 & A9 & A10 & A11 & A12 & A13
          & A14 & A15 & e1 & A16 & A17)
         (B1 & B2 & B3 & B4 & B5 & B6 & B7 & B8 & B9 & B10 & B11 & B12 & B13
          & B14 & B15 & e2 & B16 & B17).
  repeat split; try congruence.
  exists (e1 ++ e2). split.
  - rewrite B16, A16. now rewrite app_assoc.
  - now apply Forall_app.
Qed.

Section Respects.

Variable R : Driver -> Driver -> Prop.
Hypothesis R_refl : forall d, R d d.
Hypothesis R_trans : forall a b c, R a b -> R b c -> R a c.

Lemma respects_ret {A} (a : A) : respects R (ret a).
Proof. intros d x d' H. inversion H; subst. apply R_refl. Qed.

Lemma respects_get : respects R get.
Proof. intros d x d' H. inversion H; subst. apply R_refl. Qed.

Lemma respects_throw {A} pk : respects R (@throw A pk).
Proof. intros d x d' H. discriminate. Qed.

Lemma respects_liftR {A} (r : result A) : respects R (liftR r).
Proof.
  intros d x d' H. destruct r; cbn in H; inversion H; subst. apply R_refl.
Qed.

Lemma respects_modify f : (forall d, R d (f d)) -> respects R (modify f).
Proof. intros Hf d x d' H. inversion H; subst. apply Hf. Qed.

Lemma respects_bind {A B} (c : M A) (k : A -> M B) :
  respects R c -> (forall a, respects R (k a)) -> respects R (bind c k).
Proof.
  intros Hc Hk d b d' H. cbn in H.
  destruct (c d) as [[a d1]|pk] eqn:E; [|discriminate].
  eapply R_trans; [eapply Hc; eauto|eapply Hk; eauto].
Qed.

Lemma respects_forM {A} (l : list A) (body : A -> M unit) :
  (forall x, respects R (body x)) -> respects R (forM l body).
Proof.
  intros Hb. induction l as [|x l IH]; cbn [forM].
  - apply respects_ret.
  - apply respects_bind; auto.
Qed.

Lemma respects_forMi {A} (l : list A) (body : nat -> A -> M unit) :
  (forall i x, respects R (body i x)) -> forall i, respects R (forMi i l body).
Proof.
  intros Hb. induction l as [|x l IH]; intros i; cbn [forMi].
  - apply respects_ret.
  - apply respects_bind; auto.
Qed.

Lemma respects_forProgress {A} (l : list A) (f : A -> M bool) :
  (forall x, x ∈ l -> respects R (f x)) ->
  forall b, respects R (forProgress l f b).
Proof.
  induction l as [|x l IH]; intros Hf b; cbn [forProgress].
  - apply respects_ret.
  - apply respects_bind; [apply Hf; left|].
    intros b'. apply IH. intros y Hy. apply Hf. now right.
Qed.

End Respects.

Ltac own_frame_modify :=
  intros; unfold own_frame; cbn; repeat split; try reflexivity;
  first [ exists []; rewrite app_nil_r; split; [reflexivity|constructor]
        | eexists [_]; split; [reflexivity|repeat constructor] ].

Lemma getContext_respects R ci :
  (forall d, R d d) -> respects R (getContext ci).
Proof.
  intros HR d c d' H. unfold getContext in H.
  destruct (contexts d !! ci); inversion H; subst. apply HR.
Qed.

Lemma getQueue_respects R ci qi :
  (forall d, R d d) -> respects R (getQueue ci qi).
Proof.
  intros HR d q d' H. unfold getQueue in H. cbn in H.
  destruct (contexts d !! ci) as [c|]; cbn in H; [|discriminate].
  destruct (queues c !! qi); cbn in H; inversion H; subst. apply HR.
Qed.

Lemma freshMeta_own dst : respects own_frame (freshMeta dst).
Proof. intros d x d' H. inversion H; subst. own_frame_modify. Qed.

Lemma updContext_own ci f : respects own_frame (updContext ci f).
Proof. apply respects_modify. own_frame_modify. Qed.

Lemma updQueue_own ci qi f : respects own_frame (updQueue ci qi f).
Proof. apply updContext_own. Qed.

Lemma recordLaunch_own ci qi r :
  respects own_frame (recordLaunch ci qi (MLaunchKernelReq r)).
Proof.
  unfold recordLaunch.
  repeat (apply respects_bind;
          [apply own_frame_refl | apply own_frame_trans | | intros ]);
    try apply updQueue_own; try apply updContext_own.
  apply respects_modify. own_frame_modify.
Qed.

Ltac respects_own :=
  repeat first
    [ apply respects_ret; apply own_frame_refl
    | apply respects_get; apply own_frame_refl
    | apply respects_liftR; apply own_frame_refl
    | apply respects_throw
    | apply getContext_respects; apply own_frame_refl
    | apply getQueue_respects; apply own_frame_refl
    | apply freshMeta_own
    | apply updQueue_own
    | apply updContext_own
    | apply recordLaunch_own
    | apply respects_bind; [apply own_frame_trans | | intros]
    | apply respects_forMi;
        [apply own_frame_refl | apply own_frame_trans | intros]
    | match goal with
      | |- respects _ (if ?b then _ else _) => destruct b
      | |- respects _ (match ?x with _ => _ end) => destruct x
      end ].

Lemma processLaunchKernelCommand_own cmd ci qi :
  respects own_frame (processLaunchKernelCommand cmd ci qi).
Proof. unfold processLaunchKernelCommand. respects_own. Qed.

Lemma launchOnMember_own cmd ctx ci qi wgDist i g :
  respects own_frame (launchOnMember cmd ctx ci qi wgDist i g).
Proof. unfold launchOnMember. respects_own. Qed.

Lemma processUnifiedMultiGPULaunchKernelCommand_own cmd ci qi :
  respects own_frame (processUnifiedMultiGPULaunchKernelCommand cmd ci qi).
Proof.
  unfold processUnifiedMultiGPULaunchKernelCommand.
  repeat first
    [ apply launchOnMember_own | progress respects_own ].
Qed.

Lemma processNoopCommand_own ci qi :
  respects own_frame (processNoopCommand ci qi).
Proof. unfold processNoopCommand. respects_own. Qed.

Lemma processLaunchKernelReturn_own rsp :
  respects own_frame (processLaunchKernelReturn rsp).
Proof. unfold processLaunchKernelReturn. respects_own. Qed.

(** Command admission under a relation [R] that the middlewares respect and
    that contains [own_frame]. *)
Section Admission.

Variable R : Driver -> Driver -> Prop.
Hypothesis R_refl : forall d, R d d.
Hypothesis R_trans : forall a b c, R a b -> R b c -> R a c.
Hypothesis R_own : forall d d', own_frame d d' -> R d d'.
Hypothesis middlewares_R :
  forall mw, mw ∈ middlewares ->
    respects R (mw_Tick mw) /\
    forall cmd ci qi, respects R (mw_ProcessCommand mw cmd ci qi).

Lemma own_respects {A} (c : M A) : respects own_frame c -> respects R c.
Proof. intros H d a d' E. apply R_own. eapply H; eauto. Qed.

Lemma processCommandWithMiddleware_R cmd ci qi :
  respects R (processCommandWithMiddleware cmd ci qi).
Proof.
  unfold processCommandWithMiddleware.
  pose proof middlewares_R as H. revert H.
  generalize middlewares as ms. induction ms as [|mw ms IH]; intros H; cbn.
  - now apply respects_ret.
  - apply respects_bind; [exact R_trans| |].
    + apply H. left.
    + intros [|]; [now apply respects_ret|].
      apply IH. intros mw' Hmw'. apply H. now right.
Qed.

Lemma processOneCommand_R cmd ci qi : respects R (processOneCommand cmd ci qi).
Proof.
  destruct cmd; cbn [processOneCommand].
  - apply own_respects, processLaunchKernelCommand_own.
  - apply own_respects, processNoopCommand_own.
  - apply own_respects, processUnifiedMultiGPULaunchKernelCommand_own.
  - apply processCommandWithMiddleware_R.
Qed.

Lemma processNewCommandFromCmdQueue_R ci qi :
  respects R (processNewCommandFromCmdQueue ci qi).
Proof.
  unfold processNewCommandFromCmdQueue.
  apply respects_bind; [exact R_trans|now apply getQueue_respects|].
  intros q. destruct (commands q); [now apply respects_ret|].
  destruct (IsRunning q); [now apply respects_ret|].
  apply processOneCommand_R.
Qed.

Lemma processNewCommandFromContext_R ci :
  respects R (processNewCommandFromContext ci).
Proof.
  unfold processNewCommandFromContext.
  apply respects_bind; [exact R_trans|now apply getContext_respects|].
  intros c. apply respects_forProgress; auto.
  intros qi _. apply processNewCommandFromCmdQueue_R.
Qed.

Lemma processNewCommand_R : respects R processNewCommand.
Proof.
  unfold processNewCommand.
  apply respects_bind; [exact R_trans|now apply respects_get|].
  intros d. apply respects_forProgress; auto.
  intros ci _. apply processNewCommandFromContext_R.
Qed.

Lemma middlewares_Tick_R b : respects R (forProgress middlewares mw_Tick b).
Proof.
  apply respects_forProgress; auto. intros mw Hmw.
  now apply middlewares_R.
Qed.

End Admission.

(** ** An unrecognised message on the GPU port *)

(** The six response kinds [processReturnReq] has a case for. *)
Definition recognized (m : Msg) : bool :=
  match m with
  | MLaunchKernelRsp _ | MRDMADrainRspToDriver _ | MShootDownCompleteRsp _
  | MPageMigrationRspToDriver _ | MRDMARestartRspToDriver _
  | MGPURestartRsp _ => true
  | _ => false
  end.

(** The interconnect delivers [msgs] to the GPU port. *)
Definition deliverToGPUPort (msgs : list Msg) (d : Driver) : Driver :=
  set_gpuPort {| portName := portName (gpuPort d);
                 incoming := incoming (gpuPort d) ++ msgs;
                 outgoing := outgoing (gpuPort d);
                 outCapacity := outCapacity (gpuPort d) |} d.

(** A run of ticks; before each tick the messages of the next element of
    [arrivals] reach the GPU port. *)
Fixpoint runTicks (arrivals : list (list Msg)) (d : Driver) : result Driver :=
  match arrivals with
  | [] => Ok d
  | msgs :: rest =>
      match Tick (deliverToGPUPort msgs d) with
      | Ok (_, d') => runTicks rest d'
      | Panic pk => Panic pk
      end
  end.

Definition keeps_gpu_incoming (d d' : Driver) : Prop :=
  incoming (gpuPort d') = incoming (gpuPort d).

(** No middleware takes messages from the GPU port. *)
Definition middlewares_keep_gpu_incoming : Prop :=
  forall mw, mw ∈ middlewares ->
    respects keeps_gpu_incoming (mw_Tick mw) /\
    forall cmd ci qi,
      respects keeps_gpu_incoming (mw_ProcessCommand mw cmd ci qi).

Lemma keeps_gpu_incoming_refl d : keeps_gpu_incoming d d.
Proof. reflexivity. Qed.

Lemma keeps_gpu_incoming_trans a b c :
  keeps_gpu_incoming a b -> keeps_gpu_incoming b c -> keeps_gpu_incoming a c.
Proof. unfold keeps_gpu_incoming. congruence. Qed.

Lemma keeps_gpu_incoming_own d d' : own_frame d d' -> keeps_gpu_incoming d d'.
Proof.
  intros (_ & _ & _ & _ & H & _). unfold keeps_gpu_incoming. now rewrite H.
Qed.

Lemma sendToGPUs_keeps_incoming : respects keeps_gpu_incoming sendToGPUs.
Proof.
  intros d b d'. unfold sendToGPUs, Send, keeps_gpu_incoming.
  destruct (requestsToSend d); [intros H; inversion H; reflexivity|].
  destruct (bool_decide _); intros H; inversion H; reflexivity.
Qed.

Lemma sendToMMU_keeps_incoming : respects keeps_gpu_incoming sendToMMU.
Proof.
  intros d b d'. unfold sendToMMU, Send, keeps_gpu_incoming.
  destruct (toSendToMMU d); [|intros H; inversion H; reflexivity].
  destruct (bool_decide _); intros H; inversion H; reflexivity.
Qed.

Lemma sendMigrationReqToCP_keeps_incoming :
  respects keeps_gpu_incoming sendMigrationReqToCP.
Proof.
  intros d b d'. unfold sendMigrationReqToCP, Send, keeps_gpu_incoming.
  destruct (migrationReqToSendToCP d); [intros H; inversion H; reflexivity|].
  destruct (isCurrentlyMigratingOnePage d);
    [intros H; inversion H; reflexivity|].
  destruct (bool_decide _); intros H; inversion H; reflexivity.
Qed.

Lemma parseFromMMU_keeps_incoming : respects keeps_gpu_incoming parseFromMMU.
Proof.
  intros d b d'. unfold parseFromMMU, keeps_gpu_incoming. cbn.
  destruct (isCurrentlyHandlingMigrationReq d);
    [intros H; inversion H; reflexivity|].
  destruct (incoming (mmuPort d)) as [|[] rest]; cbn;
    try (intros H; inversion H; reflexivity); try discriminate.
  unfold initiateRDMADrain. cbn. rewrite drain_loop. cbn.
  intros H; inversion H; reflexivity.
Qed.

Lemma processReturnReq_unrecognized (d : Driver) m rest :
  incoming (gpuPort d) = m :: rest -> recognized m = false ->
  processReturnReq d = Ok (false, d).
Proof.
  intros Hin Hm. unfold processReturnReq, PeekIncoming. cbn. rewrite Hin.
  cbn. destruct m; try discriminate; reflexivity.
Qed.

Lemma Tick_keeps_unrecognized (d : Driver) m rest b d' :
  middlewares_keep_gpu_incoming ->
  incoming (gpuPort d) = m :: rest -> recognized m = false ->
  Tick d = Ok (b, d') -> incoming (gpuPort d') = m :: rest.
Proof.
  intros Hmw Hin Hm. unfold Tick. cbn.
  destruct (sendToGPUs d) as [[b1 d1]|] eqn:E1; [|discriminate].
  apply sendToGPUs_keeps_incoming in E1.
  destruct (sendToMMU d1) as [[b2 d2]|] eqn:E2; [|discriminate].
  apply sendToMMU_keeps_incoming in E2.
  destruct (sendMigrationReqToCP d2) as [[b3 d3]|] eqn:E3; [|discriminate].
  apply sendMigrationReqToCP_keeps_incoming in E3.
  destruct (forProgress middlewares mw_Tick _ d3) as [[b4 d4]|] eqn:E4;
    [|discriminate].
  apply (middlewares_Tick_R keeps_gpu_incoming keeps_gpu_incoming_refl
           keeps_gpu_incoming_trans Hmw) in E4.
  assert (Hin4 : incoming (gpuPort d4) = m :: rest)
    by (unfold keeps_gpu_incoming in *; congruence).
  rewrite (processReturnReq_unrecognized d4 m rest Hin4 Hm).
  destruct (processNewCommand d4) as [[b6 d6]|] eqn:E6; [|discriminate].
  apply (processNewCommand_R keeps_gpu_incoming keeps_gpu_incoming_refl
           keeps_gpu_incoming_trans keeps_gpu_incoming_own Hmw) in E6.
  destruct (parseFromMMU d6) as [[b7 d7]|] eqn:E7; [|discriminate].
  apply parseFromMMU_keeps_incoming in E7.
  intros H; inversion H; subst.
  unfold keeps_gpu_incoming in *. congruence.
Qed.

(** C10. With a message of another kind than the six recognised responses at
    the head of the GPU port's incoming buffer, [processReturnReq] returns
    false and changes nothing; as long as no middleware takes messages from
    that port, the message is still at the head after any number of ticks and
    everything that arrives meanwhile queues up behind it, unhandled.  On the
    MMU port a message of another kind than [PageMigrationReqToDriver] is
    fatal. *)
Theorem unrecognized_gpu_message_blocks (d : Driver) m rest :
  incoming (gpuPort d) = m :: rest -> recognized m = false ->
  processReturnReq d = Ok (false, d) /\
  (middlewares_keep_gpu_incoming ->
   forall arrivals d',
     runTicks arrivals d = Ok d' ->
     incoming (gpuPort d') = m :: rest ++ concat arrivals /\
     processReturnReq d' = Ok (false, d')) /\
  (forall (d2 : Driver) m2 rest2,
     isCurrentlyHandlingMigrationReq d2 = false ->
     incoming (mmuPort d2) = m2 :: rest2 ->
     (forall r, m2 <> MPageMigrationReqToDriver r) ->
     parseFromMMU d2 = Panic CannotHandleMMURequest).
Proof.
  intros Hin Hm. split; [eapply processReturnReq_unrecognized; eauto|].
  split.
  - intros Hmw arrivals. revert d rest Hin.
    induction arrivals as [|msgs arrivals IH]; intros d rest Hin d' Hrun.
    + cbn in Hrun. inversion Hrun; subst. rewrite app_nil_r.
      split; [exact Hin|]. eapply processReturnReq_unrecognized; eauto.
    + cbn [runTicks] in Hrun.
      destruct (Tick (deliverToGPUPort msgs d)) as [[b d1]|] eqn:E;
        [|discriminate].
      eapply (Tick_keeps_unrecognized _ m (rest ++ msgs)) in E; auto.
      * destruct (IH d1 (rest ++ msgs) E d' Hrun) as [H1 H2].
        split; [|exact H2]. rewrite H1. cbn. now rewrite <- app_assoc.
      * cbn. now rewrite Hin.
  - intros d2 m2 rest2 Hflag Hin2 Hne. unfold parseFromMMU. cbn.
    rewrite Hflag, Hin2. cbn.
    destruct m2; try reflexivity. exfalso. eapply Hne. reflexivity.
Qed.

(** ** The handlers never touch the GPU port *)

Definition keeps_gpuPort (d d' : Driver) : Prop := gpuPort d' = gpuPort d.



Lemma processPageMigrationRspFromCP_keeps_gpuPort :
  respects keeps_gpuPort processPageMigrationRspFromCP.
Proof.
  intros d b d'. unfold processPageMigrationRspFromCP, keeps_gpuPort. cbn.
  destruct (u64 (numPagesMigratingACK d - 1) =? 0); cbn;
    [|intros H; inversion H; reflexivity].
  unfold prepareGPURestartReqs, preparePageMigrationRspToMMU, currentReq. cbn.
  destruct (currentPageMigrationReq d) as [m|] eqn:Hc; cbn; [|discriminate].
  rewrite gpu_restart_loop. cbn.
  destruct (resolveGPUs _ _); cbn; [|discriminate].
  rewrite Hc. cbn. intros H; inversion H; reflexivity.
Qed.





(** ** One tick *)




Lemma sendMigrationReqToCP_head (d : Driver) :
  exists b d1, sendMigrationReqToCP d = Ok (b, d1) /\
    (b = false /\ d1 = d \/
     b = true /\ exists req,
       isCurrentlyMigratingOnePage d = false /\
       isCurrentlyMigratingOnePage d1 = true /\
       migrationReqToSendToCP d = req :: migrationReqToSendToCP d1 /\
       outgoing (gpuPort d1) =
         outgoing (gpuPort d) ++ [MPageMigrationReqToCP req]).
Proof.
  unfold sendMigrationReqToCP, Send.
  destruct (migrationReqToSendToCP d) as [|req rest] eqn:E.
  - exists false, d. auto.
  - destruct (isCurrentlyMigratingOnePage d) eqn:E1.
    + exists false, d. auto.
    + destruct (bool_decide _).
      * eexists true, _. split; [reflexivity|]. right. split; [reflexivity|].
        exists req. cbn. auto.
      * exists false, d. auto.
Qed.


Lemma processNewCommandFromCmdQueue_idle ci qi (d : Driver) ctx q :
  contexts d !! ci = Some ctx -> queues ctx !! qi = Some q ->
  processNewCommandFromCmdQueue ci qi d =
    match commands q with
    | [] => Ok (false, d)
    | cmd :: _ =>
        if IsRunning q then Ok (false, d) else processOneCommand cmd ci qi d
    end.
Proof.
  intros Hc Hq. unfold processNewCommandFromCmdQueue, getQueue, getContext.
  cbn. rewrite Hc. cbn. rewrite Hq. cbn.
  destruct (commands q); [reflexivity|]. destruct (IsRunning q); reflexivity.
Qed.

(** ** The driver among the GPUs, the MMU and the host

    The driver's sub-steps are interleaved with the moves of its environment.
    A request sent over the GPU port reaches a command processor
    ([atGPUs]), which later answers it, once, with the response of its
    kind. *)

Record Sys := { drv : Driver; atGPUs : list Msg }.

(** [r] is a response a command processor gives to request [m]. *)
Definition respondsTo (m r : Msg) : Prop :=
  match m, r with
  | MLaunchKernelReq q, MLaunchKernelRsp p => RspTo p = ID (lkr_meta q)
  | MRDMADrainCmdFromDriver _, MRDMADrainRspToDriver _
  | MShootDownCommand _, MShootDownCompleteRsp _
  | MPageMigrationReqToCP _, MPageMigrationRspToDriver _
  | MGPURestartReq _, MGPURestartRsp _
  | MRDMARestartCmdFromDriver _, MRDMARestartRspToDriver _ => True
  | _, _ => False
  end.

Definition Phase_eqb (a b : Phase) : bool :=
  match a, b with
  | DrainRDMA, DrainRDMA | Shootdown, Shootdown | Migrate, Migrate
  | GPURestart, GPURestart | RDMARestart, RDMARestart => true
  | _, _ => false
  end.

(** [m] is a request or a response of phase [ph]. *)
Definition inPhase (ph : Phase) (m : Msg) : bool :=
  match phaseOf m with
  | Some ph' => Phase_eqb ph' ph
  | None => false
  end.

(** The number of messages of phase [ph] in [l]. *)
Fixpoint cnt (ph : Phase) (l : list Msg) : nat :=
  match l with
  | [] => 0
  | m :: rest => (if inPhase ph m then 1 else 0) + cnt ph rest
  end.

(** The ack counter of a phase. *)
Definition ctr (ph : Phase) (d : Driver) : Z :=
  match ph with
  | DrainRDMA => numRDMADrainACK d
  | Shootdown => numShootDownACK d
  | Migrate => numPagesMigratingACK d
  | GPURestart => numRestartACK d
  | RDMARestart => numRDMARestartACK d
  end.

(** The total number of v-addresses the MIGRATE phase of [m] handles. *)
Definition totalVAddrs (d : Driver) (m : PageMigrationReqToDriver) : nat :=
  length (migrationWork
            (rangeOrder (pageVaddrsOf (GPUReqToVAddrMap m)
                           (findRequestingGPUs d (GPUReqToVAddrMap m))))).

Arguments totalVAddrs : simpl never.

(** The size of the fan-out of a phase. *)
Definition fanout (ph : Phase) (d : Driver) : Z :=
  match ph with
  | DrainRDMA | RDMARestart => Z.of_nat (length (GPUs d))
  | Shootdown | GPURestart =>
      match currentPageMigrationReq d with
      | Some m => Z.of_nat (length (CurrAccessingGPUs m))
      | None => 0
      end
  | Migrate =>
      match currentPageMigrationReq d with
      | Some m => Z.of_nat (totalVAddrs d m)
      | None => 0
      end
  end.

Definition nextPhase (ph : Phase) : option Phase :=
  match ph with
  | DrainRDMA => Some Shootdown
  | Shootdown => Some Migrate
  | Migrate => Some GPURestart
  | GPURestart => Some RDMARestart
  | RDMARestart => None
  end.

(** Requests and responses of phase [ph] not yet handled by the driver:
    waiting in an outbound list, on the GPU port, or at a GPU. *)
Definition outstanding (ph : Phase) (s : Sys) : nat :=
  (cnt ph (requestsToSend (drv s))
   + cnt ph (map MPageMigrationReqToCP (migrationReqToSendToCP (drv s)))
   + cnt ph (outgoing (gpuPort (drv s)))
   + cnt ph (atGPUs s)
   + cnt ph (incoming (gpuPort (drv s))))%nat.

(** Page-copy requests sent over the GPU port whose response the driver has
    not handled yet. *)
Definition inflightPages (s : Sys) : nat :=
  (cnt Migrate (outgoing (gpuPort (drv s)))
   + cnt Migrate (atGPUs s)
   + cnt Migrate (incoming (gpuPort (drv s))))%nat.

(** Sizes a Go slice can have. *)
Definition wf_request (d : Driver) (m : PageMigrationReqToDriver) : Prop :=
  Z.of_nat (length (CurrAccessingGPUs m)) < 2 ^ 64 /\
  Z.of_nat (totalVAddrs d m) < 2 ^ 64.

Definition wf_mmu_inbox (d : Driver) : Prop :=
  forall m, MPageMigrationReqToDriver m ∈ incoming (mmuPort d) ->
            wf_request d m.

(** What a middleware may do without disturbing the orchestrator: it leaves
    the orchestrator's fields, the MMU port and the outgoing side of the GPU
    port alone, and neither adds nor removes a message of a phase. *)
Definition proto_frame (d d' : Driver) : Prop :=
  GPUs d' = GPUs d /\ RemotePMCPorts d' = RemotePMCPorts d /\
  mmuPort d' = mmuPort d /\
  outgoing (gpuPort d') = outgoing (gpuPort d) /\
  currentPageMigrationReq d' = currentPageMigrationReq d /\
  toSendToMMU d' = toSendToMMU d /\
  migrationReqToSendToCP d' = migrationReqToSendToCP d /\
  isCurrentlyHandlingMigrationReq d' = isCurrentlyHandlingMigrationReq d /\
  isCurrentlyMigratingOnePage d' = isCurrentlyMigratingOnePage d /\
  (forall ph, ctr ph d' = ctr ph d) /\
  (forall ph, cnt ph (requestsToSend d') = cnt ph (requestsToSend d)) /\
  (forall ph, cnt ph (incoming (gpuPort d'))
              = cnt ph (incoming (gpuPort d))).

Definition middlewares_respect_protocol : Prop :=
  forall mw, mw ∈ middlewares ->
    respects proto_frame (mw_Tick mw) /\
    forall cmd ci qi, respects proto_frame (mw_ProcessCommand mw cmd ci qi).

Definition setOutgoing (out : list Msg) (p : PortState) : PortState :=
  {| portName := portName p; incoming := incoming p; outgoing := out;
     outCapacity := outCapacity p |}.

Definition setIncoming (inc : list Msg) (p : PortState) : PortState :=
  {| portName := portName p; incoming := inc; outgoing := outgoing p;
     outCapacity := outCapacity p |}.

Inductive step : Sys -> Sys -> Prop :=
(* the sub-steps of a tick *)
| step_sendToGPUs d net b d' :
    sendToGPUs d = Ok (b, d') ->
    step {| drv := d; atGPUs := net |} {| drv := d'; atGPUs := net |}
| step_sendToMMU d net b d' :
    sendToMMU d = Ok (b, d') ->
    step {| drv := d; atGPUs := net |} {| drv := d'; atGPUs := net |}
| step_sendMigrationReqToCP d net b d' :
    sendMigrationReqToCP d = Ok (b, d') ->
    step {| drv := d; atGPUs := net |} {| drv := d'; atGPUs := net |}
| step_middleware d net mw b d' :
    mw ∈ middlewares -> mw_Tick mw d = Ok (b, d') ->
    step {| drv := d; atGPUs := net |} {| drv := d'; atGPUs := net |}
| step_processReturnReq d net b d' :
    processReturnReq d = Ok (b, d') ->
    step {| drv := d; atGPUs := net |} {| drv := d'; atGPUs := net |}
| step_processNewCommand d net b d' :
    processNewCommand d = Ok (b, d') ->
    step {| drv := d; atGPUs := net |} {| drv := d'; atGPUs := net |}
| step_parseFromMMU d net b d' :
    parseFromMMU d = Ok (b, d') ->
    step {| drv := d; atGPUs := net |} {| drv := d'; atGPUs := net |}
(* the interconnect and the GPUs *)
| step_deliver d net m out :
    outgoing (gpuPort d) = m :: out ->
    step {| drv := d; atGPUs := net |}
         {| drv := set_gpuPort (setOutgoing out (gpuPort d)) d;
            atGPUs := net ++ [m] |}
| step_respond d l1 m l2 r :
    respondsTo m r ->
    step {| drv := d; atGPUs := l1 ++ m :: l2 |}
         {| drv := deliverToGPUPort [r] d; atGPUs := l1 ++ l2 |}
| step_arrive d net r :
    phaseOf r = None ->
    step {| drv := d; atGPUs := net |}
         {| drv := deliverToGPUPort [r] d; atGPUs := net |}
(* the MMU *)
| step_mmu_send d net msg :
    (forall m, msg = MPageMigrationReqToDriver m -> wf_request d m) ->
    step {| drv := d; atGPUs := net |}
         {| drv := set_mmuPort
                     (setIncoming (incoming (mmuPort d) ++ [msg]) (mmuPort d))
                     d;
            atGPUs := net |}
| step_mmu_receive d net msg out :
    outgoing (mmuPort d) = msg :: out ->
    step {| drv := d; atGPUs := net |}
         {| drv := set_mmuPort (setOutgoing out (mmuPort d)) d;
            atGPUs := net |}
(* the host thread *)
| step_host d net cs :
    step {| drv := d; atGPUs := net |}
         {| drv := set_contexts cs d; atGPUs := net |}.

(** A driver before any migration, with nothing of the orchestrator's
    protocol around. *)
Definition initial (s : Sys) : Prop :=
  let d := drv s in
  atGPUs s = [] /\ requestsToSend d = [] /\ migrationReqToSendToCP d = [] /\
  incoming (gpuPort d) = [] /\ outgoing (gpuPort d) = [] /\
  incoming (mmuPort d) = [] /\
  currentPageMigrationReq d = None /\
  isCurrentlyHandlingMigrationReq d = false /\
  isCurrentlyMigratingOnePage d = false /\
  (forall ph, ctr ph d = 0) /\
  Z.of_nat (length (GPUs d)) < 2 ^ 64.

Inductive reachable : Sys -> Prop :=
| reachable_initial s : initial s -> reachable s
| reachable_step s s' : reachable s -> step s s' -> reachable s'.

(** The invariant of the orchestrator. *)
Record Inv (s : Sys) : Prop := {
  inv_count : forall ph, ctr ph (drv s) = Z.of_nat (outstanding ph s);
  inv_range : forall ph, 0 <= ctr ph (drv s) < 2 ^ 64;
  inv_exclusive :
    forall ph ph', ctr ph (drv s) <> 0 -> ctr ph' (drv s) <> 0 -> ph = ph';
  inv_pending : cnt Migrate (requestsToSend (drv s)) = 0%nat;
  inv_inflight :
    inflightPages s =
    (if isCurrentlyMigratingOnePage (drv s) then 1 else 0)%nat;
  inv_idle :
    isCurrentlyHandlingMigrationReq (drv s) = false ->
    currentPageMigrationReq (drv s) = None /\ forall ph, ctr ph (drv s) = 0;
  inv_busy :
    isCurrentlyHandlingMigrationReq (drv s) = true ->
    exists m, currentPageMigrationReq (drv s) = Some m /\
              wf_request (drv s) m;
  inv_inbox : wf_mmu_inbox (drv s);
  inv_gpus : Z.of_nat (length (GPUs (drv s))) < 2 ^ 64
}.

(** ** Counting the messages of a phase *)

Lemma Phase_eqb_eq a b : Phase_eqb a b = true <-> a = b.
Proof. destruct a, b; cbn; split; congruence. Qed.

Lemma inPhase_true ph m : inPhase ph m = true <-> phaseOf m = Some ph.
Proof.
  unfold inPhase. destruct (phaseOf m) as [ph'|].
  - rewrite Phase_eqb_eq. split; congruence.
  - split; discriminate.
Qed.

Lemma cnt_app ph l1 l2 : cnt ph (l1 ++ l2) = (cnt ph l1 + cnt ph l2)%nat.
Proof. induction l1 as [|m l1 IH]; cbn; [reflexivity|]. rewrite IH. lia. Qed.

Lemma cnt_none ph l : Forall (fun m => phaseOf m = None) l -> cnt ph l = 0%nat.
Proof.
  induction 1 as [|m l Hm _ IH]; [reflexivity|].
  cbn. unfold inPhase. now rewrite Hm, IH.
Qed.

Lemma cnt_map_uniform {A} ph (f : A -> Msg) (l : list A) b :
  (forall a, inPhase ph (f a) = b) ->
  cnt ph (map f l) = if b then length l else 0%nat.
Proof.
  intros Hf. induction l as [|a l IH]; cbn.
  - destruct b; reflexivity.
  - rewrite IH, Hf. destruct b; reflexivity.
Qed.

Lemma cnt_pending ph (l : list PageMigrationReqToCP) :
  cnt ph (map MPageMigrationReqToCP l) =
  if Phase_eqb Migrate ph then length l else 0%nat.
Proof. now apply cnt_map_uniform. Qed.

Lemma cnt_drain ph l :
  cnt ph (map MRDMADrainCmdFromDriver l) =
  if Phase_eqb DrainRDMA ph then length l else 0%nat.
Proof. now apply cnt_map_uniform. Qed.

Lemma cnt_rdma_restart ph l :
  cnt ph (map MRDMARestartCmdFromDriver l) =
  if Phase_eqb RDMARestart ph then length l else 0%nat.
Proof. now apply cnt_map_uniform. Qed.

Lemma cnt_gpu_restart ph l :
  cnt ph (map MGPURestartReq l) =
  if Phase_eqb GPURestart ph then length l else 0%nat.
Proof. now apply cnt_map_uniform. Qed.

Lemma cnt_shootdown ph vAddr p l :
  cnt ph (map (fun meta => MShootDownCommand
                 {| sdc_meta := meta; sdc_VAddr := vAddr; sdc_PID := p |}) l) =
  if Phase_eqb Shootdown ph then length l else 0%nat.
Proof. now apply cnt_map_uniform. Qed.

Lemma respondsTo_phase m r : respondsTo m r -> phaseOf r = phaseOf m.
Proof. destruct m, r; cbn; intros H; try contradiction; reflexivity. Qed.

Lemma respondsTo_inPhase ph m r :
  respondsTo m r -> inPhase ph r = inPhase ph m.
Proof. intros H. unfold inPhase. now rewrite (respondsTo_phase m r H). Qed.

Lemma totalVAddrs_GPUs (d d' : Driver) m :
  GPUs d' = GPUs d -> totalVAddrs d' m = totalVAddrs d m.
Proof.
  intros H. unfold totalVAddrs, findRequestingGPUs, gpuIDs. now rewrite H.
Qed.

Lemma wf_request_GPUs (d d' : Driver) m :
  GPUs d' = GPUs d -> wf_request d m -> wf_request d' m.
Proof.
  intros H [H1 H2]. split; [exact H1|]. now rewrite (totalVAddrs_GPUs d d').
Qed.

Lemma proto_frame_refl d : proto_frame d d.
Proof. unfold proto_frame. repeat split; auto. Qed.

Lemma proto_frame_trans a b c :
  proto_frame a b -> proto_frame b c -> proto_frame a c.
Proof.
  unfold proto_frame.
  intros (A1 & A2 & A3 & A4 & A5 & A6 & A7 & A8 & A9 & A10 & A11 & A12)
         (B1 & B2 & B3 & B4 & B5 & B6 & B7 & B8 & B9 & B10 & B11 & B12).
  repeat split; try congruence; intros ph;
    first [now rewrite B10 | now rewrite B11 | now rewrite B12].
Qed.

Lemma proto_frame_own d d' : own_frame d d' -> proto_frame d d'.
Proof.
  unfold own_frame, proto_frame.
  intros (A1 & A2 & A3 & A4 & A5 & A6 & A7 & A8 & A9 & A10 & A11 & A12 & A13
          & A14 & A15 & extra & A16 & A17).
  assert (forall ph, ctr ph d' = ctr ph d) by (intros []; cbn; congruence).
  assert (forall ph, cnt ph (requestsToSend d') = cnt ph (requestsToSend d)).
  { intros ph. rewrite A16, cnt_app, (cnt_none ph extra A17). lia. }
  repeat split; try congruence; auto.
Qed.

(** ** The invariant is preserved *)

Ltac inv_open H :=
  let I1 := fresh "I1" in let I2 := fresh "I2" in let I3 := fresh "I3" in
  let I4 := fresh "I4" in let I5 := fresh "I5" in let I6 := fresh "I6" in
  let I7 := fresh "I7" in let I8 := fresh "I8" in let I9 := fresh "I9" in
  destruct H as [I1 I2 I3 I4 I5 I6 I7 I8 I9];
  unfold outstanding, inflightPages, wf_mmu_inbox in *;
  cbn [drv atGPUs] in *.

Ltac cnt_rw :=
  repeat rewrite ?cnt_app, ?cnt_pending, ?cnt_drain, ?cnt_rdma_restart,
    ?cnt_gpu_restart, ?cnt_shootdown, ?length_app, ?length_map,
    ?metas_length.

Ltac cnt_rw_in H :=
  repeat rewrite ?cnt_app, ?cnt_pending, ?cnt_drain, ?cnt_rdma_restart,
    ?cnt_gpu_restart, ?cnt_shootdown, ?length_app, ?length_map,
    ?metas_length in H.

(** Case analysis on the phase of the messages left abstract. *)
Ltac split_phase :=
  repeat match goal with
         | |- context [inPhase ?p ?m] =>
             let E := fresh "E" in destruct (inPhase p m) eqn:E; rewrite ?E in *
         | H : context [if inPhase ?p ?m then _ else _] |- _ =>
             let E := fresh "E" in destruct (inPhase p m) eqn:E; rewrite ?E in *
         end.

Ltac cnt_solve := cnt_rw; cbn; split_phase; try congruence; try lia.

(** A goal quantified over the phases, with clause [I] of the invariant
    instantiated. *)
Ltac by_phase I :=
  let ph := fresh "ph" in let Hp := fresh "Hp" in
  intros ph; pose proof (I ph) as Hp; destruct ph; cbn [ctr] in Hp;
  cnt_rw_in Hp; cbn in Hp; cnt_solve.

Ltac inv_goals :=
  constructor; unfold outstanding, inflightPages, wf_mmu_inbox;
  cbn [drv atGPUs]; cbn.

(** The routine goals of a preservation proof: [I1] is the counting clause
    and [I5] the in-flight clause of the invariant before the step. *)
Ltac inv_auto I1 I5 :=
  first [ solve [auto]
        | solve [by_phase I1]
        | solve [rewrite <- I5; cnt_solve]
        | solve [cnt_solve]
        | idtac ].

(** A step that respects [proto_frame] preserves the invariant. *)
Lemma Inv_proto_frame d d' net :
  proto_frame d d' ->
  Inv {| drv := d; atGPUs := net |} -> Inv {| drv := d'; atGPUs := net |}.
Proof.
  intros (A1 & A2 & A3 & A4 & A5 & A6 & A7 & A8 & A9 & A10 & A11 & A12) HI.
  inv_open HI. constructor;
    unfold outstanding, inflightPages, wf_mmu_inbox; cbn [drv atGPUs].
  - intros ph. rewrite A10, A11, A12, A4, A7. apply I1.
  - intros ph. rewrite A10. apply I2.
  - intros ph ph'. rewrite !A10. apply I3.
  - rewrite A11. exact I4.
  - rewrite A12, A4, A9. exact I5.
  - rewrite A8, A5. intros Hf. split; [now apply I6|].
    intros ph. rewrite A10. now apply I6.
  - rewrite A8, A5. intros Hf. destruct (I7 Hf) as (m & Hm & Hwf). exists m.
    split; [exact Hm|]. now apply (wf_request_GPUs d d').
  - rewrite A3. intros m Hm. apply (wf_request_GPUs d d'); auto.
  - now rewrite A1.
Qed.

Lemma Inv_sendToGPUs d net b d' :
  sendToGPUs d = Ok (b, d') ->
  Inv {| drv := d; atGPUs := net |} -> Inv {| drv := d'; atGPUs := net |}.
Proof.
  unfold sendToGPUs, Send.
  destruct (requestsToSend d) as [|req rest] eqn:E;
    [intros H; inversion H; subst; auto|].
  destruct (bool_decide _); [|intros H; inversion H; subst; auto].
  intros H; inversion H; subst; clear H. intros HI. inv_open HI.
  rewrite E in *. cbn in I4.
  inv_goals; inv_auto I1 I5.
Qed.

Lemma Inv_sendToMMU d net b d' :
  sendToMMU d = Ok (b, d') ->
  Inv {| drv := d; atGPUs := net |} -> Inv {| drv := d'; atGPUs := net |}.
Proof.
  unfold sendToMMU, Send.
  destruct (toSendToMMU d) as [rsp|]; [|intros H; inversion H; subst; auto].
  destruct (bool_decide _); [|intros H; inversion H; subst; auto].
  intros H; inversion H; subst; clear H. intros HI. inv_open HI.
  inv_goals; inv_auto I1 I5.
Qed.

Lemma Inv_sendMigrationReqToCP d net b d' :
  sendMigrationReqToCP d = Ok (b, d') ->
  Inv {| drv := d; atGPUs := net |} -> Inv {| drv := d'; atGPUs := net |}.
Proof.
  unfold sendMigrationReqToCP, Send.
  destruct (migrationReqToSendToCP d) as [|req rest] eqn:E;
    [intros H; inversion H; subst; auto|].
  destruct (isCurrentlyMigratingOnePage d) eqn:E1;
    [intros H; inversion H; subst; auto|].
  destruct (bool_decide _); [|intros H; inversion H; subst; auto].
  intros H; inversion H; subst; clear H. intros HI. inv_open HI.
  rewrite E, E1 in *.
  inv_goals; inv_auto I1 I5.
Qed.

Lemma Inv_deliver d net m out :
  outgoing (gpuPort d) = m :: out ->
  Inv {| drv := d; atGPUs := net |} ->
  Inv {| drv := set_gpuPort (setOutgoing out (gpuPort d)) d;
         atGPUs := net ++ [m] |}.
Proof.
  intros E HI. inv_open HI. rewrite E in *. cbn in I5.
  inv_goals; inv_auto I1 I5.
Qed.

Lemma Inv_respond d l1 m l2 r :
  respondsTo m r ->
  Inv {| drv := d; atGPUs := l1 ++ m :: l2 |} ->
  Inv {| drv := deliverToGPUPort [r] d; atGPUs := l1 ++ l2 |}.
Proof.
  intros Hr HI. inv_open HI.
  pose proof (fun ph => respondsTo_inPhase ph m r Hr) as Hph.
  rewrite cnt_app in I5. cbn in I5. rewrite <- (Hph Migrate) in I5.
  inv_goals; try solve [auto].
  - intros ph. pose proof (I1 ph) as Hp. pose proof (Hph ph) as Hq.
    destruct ph; cbn [ctr] in Hp; cnt_rw_in Hp; cbn in Hp |- *; cnt_rw; cbn;
      rewrite Hq; lia.
  - rewrite <- I5. cnt_rw. cbn. lia.
Qed.

Lemma Inv_arrive d net r :
  phaseOf r = None ->
  Inv {| drv := d; atGPUs := net |} ->
  Inv {| drv := deliverToGPUPort [r] d; atGPUs := net |}.
Proof.
  intros Hr HI. inv_open HI.
  assert (Hph : forall ph, inPhase ph r = false)
    by (intros ph; unfold inPhase; now rewrite Hr).
  inv_goals; try solve [auto].
  - intros ph. pose proof (I1 ph) as Hp. pose proof (Hph ph) as Hq.
    destruct ph; cbn [ctr] in Hp; cnt_rw_in Hp; cbn in Hp |- *; cnt_rw; cbn;
      rewrite Hq; lia.
  - rewrite <- I5. cnt_rw. cbn. rewrite (Hph Migrate). lia.
Qed.

Lemma Inv_mmu_send d net msg :
  (forall m, msg = MPageMigrationReqToDriver m -> wf_request d m) ->
  Inv {| drv := d; atGPUs := net |} ->
  Inv {| drv := set_mmuPort
                  (setIncoming (incoming (mmuPort d) ++ [msg]) (mmuPort d)) d;
         atGPUs := net |}.
Proof.
  intros Hwf HI. inv_open HI.
  inv_goals; try solve [auto].
  intros m Hm. apply elem_of_app in Hm as [Hm|Hm].
  - now apply I8.
  - apply list_elem_of_singleton in Hm. now apply Hwf.
Qed.

Lemma Inv_mmu_receive d net out :
  Inv {| drv := d; atGPUs := net |} ->
  Inv {| drv := set_mmuPort (setOutgoing out (mmuPort d)) d; atGPUs := net |}.
Proof.
  intros HI. inv_open HI.
  inv_goals; solve [auto].
Qed.

Lemma Inv_host d net cs :
  Inv {| drv := d; atGPUs := net |} ->
  Inv {| drv := set_contexts cs d; atGPUs := net |}.
Proof.
  intros HI. inv_open HI.
  inv_goals; solve [auto].
Qed.

Lemma Inv_initial s : initial s -> Inv s.
Proof.
  destruct s as [d net]. unfold initial. cbn.
  intros (H1 & H2 & H3 & H4 & H5 & H6 & H7 & H8 & H9 & H10 & H11).
  inv_goals; rewrite ?H1, ?H2, ?H3, ?H4, ?H5, ?H6, ?H8, ?H9; cbn;
    try (intros ph; rewrite H10); auto; try discriminate; try lia;
    try (intros ph'; rewrite H10; congruence).
  intros m Hm. inversion Hm.
Qed.

(** ** What a step does to the counters and to the migration flag *)

(** How the ack counters move in a step from [s] to [s']: each counter
    stays, or goes down by one as the driver takes a message of its phase
    from the head of the GPU port, or is zero and becomes the fan-out of its
    phase; when the counter of a phase reaches zero, the counter of the next
    phase is the fan-out of that phase; when a migration is accepted the
    RDMA-drain counter is the number of GPUs. *)
Record counters_move (s s' : Sys) : Prop := {
  cm_each :
    forall ph,
      ctr ph (drv s') = ctr ph (drv s) \/
      (1 <= ctr ph (drv s) /\ ctr ph (drv s') = ctr ph (drv s) - 1 /\
       exists m, phaseOf m = Some ph /\
         incoming (gpuPort (drv s)) = m :: incoming (gpuPort (drv s'))) \/
      (ctr ph (drv s) = 0 /\ ctr ph (drv s') = fanout ph (drv s'));
  cm_transition :
    forall ph ph', nextPhase ph = Some ph' ->
      ctr ph (drv s) <> 0 -> ctr ph (drv s') = 0 ->
      ctr ph' (drv s') = fanout ph' (drv s');
  cm_accept :
    isCurrentlyHandlingMigrationReq (drv s) = false ->
    isCurrentlyHandlingMigrationReq (drv s') = true ->
    ctr DrainRDMA (drv s') = fanout DrainRDMA (drv s')
}.

(** How the migration flag and the current request move in a step: the flag
    is cleared, with the current request, by the step that takes the last
    RDMA-restart response; it is set, with the current request, by the step
    that takes a migration request from the MMU port; otherwise the current
    request stays. *)
Record flag_moves (s s' : Sys) : Prop := {
  fm_clear :
    isCurrentlyHandlingMigrationReq (drv s) = true ->
    isCurrentlyHandlingMigrationReq (drv s') = false ->
    ctr RDMARestart (drv s) = 1 /\ currentPageMigrationReq (drv s') = None /\
    exists meta, incoming (gpuPort (drv s))
                 = MRDMARestartRspToDriver meta :: incoming (gpuPort (drv s'));
  fm_set :
    isCurrentlyHandlingMigrationReq (drv s) = false ->
    isCurrentlyHandlingMigrationReq (drv s') = true ->
    exists req, currentPageMigrationReq (drv s') = Some req /\
      incoming (mmuPort (drv s))
      = MPageMigrationReqToDriver req :: incoming (mmuPort (drv s'));
  fm_keep :
    isCurrentlyHandlingMigrationReq (drv s')
    = isCurrentlyHandlingMigrationReq (drv s) ->
    currentPageMigrationReq (drv s') = currentPageMigrationReq (drv s)
}.

Definition moves (s s' : Sys) : Prop :=
  Inv s' /\ counters_move s s' /\ flag_moves s s'.

Lemma moves_same (s s' : Sys) :
  (forall ph, ctr ph (drv s') = ctr ph (drv s)) ->
  isCurrentlyHandlingMigrationReq (drv s')
  = isCurrentlyHandlingMigrationReq (drv s) ->
  currentPageMigrationReq (drv s') = currentPageMigrationReq (drv s) ->
  counters_move s s' /\ flag_moves s s'.
Proof.
  intros Hc Hf Hcur. split; constructor.
  - intros ph. left. apply Hc.
  - intros ph ph' _ Hn Hz. rewrite Hc in Hz. contradiction.
  - intros H1 H2. congruence.
  - intros H1 H2. congruence.
  - intros H1 H2. congruence.
  - intros _. exact Hcur.
Qed.

Lemma moves_proto_frame d d' net :
  proto_frame d d' ->
  Inv {| drv := d; atGPUs := net |} ->
  moves {| drv := d; atGPUs := net |} {| drv := d'; atGPUs := net |}.
Proof.
  intros Hp HI. split; [eapply Inv_proto_frame; eauto|].
  destruct Hp as (A1 & A2 & A3 & A4 & A5 & A6 & A7 & A8 & A9 & A10 & A11 & A12).
  apply moves_same; cbn; auto.
Qed.

(** The state in which a handler runs: the head of the GPU port retrieved. *)
Definition retrieved (d : Driver) : Driver :=
  set_gpuPort (snd (RetrieveIncoming (gpuPort d))) d.

(** The counters of the other phases are zero. *)
Ltac zeros Hz :=
  try (let Z1 := fresh "Z1" in
       pose proof (Hz DrainRDMA ltac:(discriminate)) as Z1; cbn [ctr] in Z1);
  try (let Z2 := fresh "Z2" in
       pose proof (Hz Shootdown ltac:(discriminate)) as Z2; cbn [ctr] in Z2);
  try (let Z3 := fresh "Z3" in
       pose proof (Hz Migrate ltac:(discriminate)) as Z3; cbn [ctr] in Z3);
  try (let Z4 := fresh "Z4" in
       pose proof (Hz GPURestart ltac:(discriminate)) as Z4; cbn [ctr] in Z4);
  try (let Z5 := fresh "Z5" in
       pose proof (Hz RDMARestart ltac:(discriminate)) as Z5; cbn [ctr] in Z5).

Ltac moves_goals :=
  split; [inv_goals | split; constructor; cbn [drv atGPUs]; cbn].

Lemma fanout_frame (s' s : Driver) ph :
  GPUs s' = GPUs s ->
  currentPageMigrationReq s' = currentPageMigrationReq s ->
  fanout ph s' = fanout ph s.
Proof.
  intros H1 H2. destruct ph; cbn; rewrite ?H1, ?H2; try reflexivity.
  destruct (currentPageMigrationReq s); [|reflexivity].
  now rewrite (totalVAddrs_GPUs s s').
Qed.

(** The counting clause of the invariant after a handler, from the clause
    [I1] before it. *)
Ltac solve_count I1 :=
  let ph := fresh "ph" in let Hp := fresh "Hp" in
  intros ph; pose proof (I1 ph) as Hp; destruct ph; cbn [ctr] in Hp;
  cnt_rw_in Hp; cbn in Hp |- *; cnt_rw; cbn;
  rewrite ?u64_id by lia; rewrite ?bumpACK_exact by lia; lia.

(** Each counter stays, goes down by one, or is set to its fan-out. *)
Ltac solve_each d Hin Hcur :=
  let ph := fresh "ph" in
  intros ph; rewrite ?(fanout_frame _ d) by reflexivity;
  destruct ph; cbn; rewrite ?Hcur; cbn;
  rewrite ?u64_id by lia; rewrite ?bumpACK_exact by lia;
  first [ left; lia
        | right; left; split; [lia|]; split; [lia|];
          eexists; split; [|exact Hin]; reflexivity
        | right; right; split; lia ].

Ltac solve_transition d Hcur :=
  let ph := fresh "ph" in let ph' := fresh "ph'" in let Hn := fresh "Hn" in
  intros ph ph' Hn; rewrite ?(fanout_frame _ d) by reflexivity;
  destruct ph; inversion Hn; subst ph'; cbn;
  rewrite ?Hcur; cbn;
  rewrite ?u64_id by lia; rewrite ?bumpACK_exact by lia; intros; lia.

Ltac solve_range I2 :=
  let ph := fresh "ph" in let Hp := fresh "Hp" in
  intros ph; pose proof (I2 ph) as Hp; destruct ph; cbn in Hp |- *;
  rewrite ?u64_id by lia; rewrite ?bumpACK_exact by lia; lia.

Ltac solve_exclusive :=
  let ph := fresh "ph" in let ph' := fresh "ph'" in
  intros ph ph'; destruct ph, ph'; cbn;
  rewrite ?u64_id by lia; rewrite ?bumpACK_exact by lia;
  intros; first [reflexivity | lia].

Ltac solve_wf d :=
  intros;
  repeat match goal with
         | |- exists _, _ => eexists
         | |- _ /\ _ => split
         end;
  first [ eassumption | reflexivity
        | apply (wf_request_GPUs d); [reflexivity|]; eauto ].

Ltac moves_one d I1 I2 I5 Hin Hcur :=
  first [ solve [auto]
        | solve [intros; congruence]
        | solve [intros; split; [congruence|];
                 let ph := fresh "ph" in intros ph; destruct ph; cbn; lia]
        | solve [intros; split; [lia|]; split; [reflexivity|];
                 eexists; exact Hin]
        | solve [rewrite <- I5; cnt_solve]
        | solve [cnt_solve]
        | solve [solve_count I1]
        | solve [solve_range I2]
        | solve [solve_exclusive]
        | solve [solve_each d Hin Hcur]
        | solve [solve_transition d Hcur]
        | solve [solve_wf d]
        | idtac ].

Ltac moves_solve d I1 I2 I5 Hin Hcur :=
  moves_goals; moves_one d I1 I2 I5 Hin Hcur.

(** Facts every handler of a phase response starts from. *)
Lemma handler_start d net m rest ph :
  Inv {| drv := d; atGPUs := net |} ->
  incoming (gpuPort d) = m :: rest -> inPhase ph m = true ->
  1 <= ctr ph d < 2 ^ 64 /\ u64 (ctr ph d - 1) = ctr ph d - 1 /\
  (forall ph', ph' <> ph -> ctr ph' d = 0) /\
  exists mreq, currentPageMigrationReq d = Some mreq /\
    isCurrentlyHandlingMigrationReq d = true /\ wf_request d mreq.
Proof.
  intros HI Hin Hm. inv_open HI.
  assert (H1 : 1 <= ctr ph d).
  { rewrite (I1 ph), Hin. cbn. rewrite Hm. lia. }
  pose proof (I2 ph) as H2.
  assert (Hz : forall ph', ph' <> ph -> ctr ph' d = 0).
  { intros ph' Hne. destruct (Z.eq_dec (ctr ph' d) 0) as [|Hnz]; [auto|].
    exfalso. apply Hne. apply I3; auto. lia. }
  split; [lia|]. split; [apply u64_id; lia|]. split; [exact Hz|].
  destruct (isCurrentlyHandlingMigrationReq d) eqn:Hf.
  - destruct (I7 eq_refl) as (mreq & Hc & Hwf). eauto.
  - destruct (I6 eq_refl) as [_ Hall]. specialize (Hall ph). lia.
Qed.

Lemma moves_processRDMADrainRsp d net meta rest b d' :
  incoming (gpuPort d) = MRDMADrainRspToDriver meta :: rest ->
  processRDMADrainRsp (retrieved d) = Ok (b, d') ->
  Inv {| drv := d; atGPUs := net |} ->
  moves {| drv := d; atGPUs := net |} {| drv := d'; atGPUs := net |}.
Proof.
  intros Hin Hrun HI.
  destruct (handler_start d net _ rest DrainRDMA HI Hin eq_refl)
    as (Hc & Hu & Hz & mreq & Hcur & Hflag & Hwf).
  cbn [ctr] in Hc, Hu.
  unfold processRDMADrainRsp, retrieved, RetrieveIncoming in Hrun.
  rewrite Hin in Hrun. cbn in Hrun. rewrite Hu in Hrun.
  destruct Hwf as [Hwf1 Hwf2]. zeros Hz. inv_open HI. rewrite Hin in *.
  destruct (Z.eqb_spec (numRDMADrainACK d - 1) 0) as [E|E].
  - unfold sendShootDownReqs in Hrun. cbn in Hrun. rewrite Hcur in Hrun.
    cbn in Hrun. rewrite shootdown_loop in Hrun. cbn in Hrun.
    destruct (resolveGPUs (GPUs d) (CurrAccessingGPUs mreq)) as [dsts|pk]
      eqn:Hres; cbn in Hrun; [|discriminate].
    apply resolveGPUs_length in Hres.
    inversion Hrun; subst b d'; clear Hrun.
    moves_solve d I1 I2 I5 Hin Hcur.
  - cbn in Hrun. inversion Hrun; subst b d'; clear Hrun.
    moves_solve d I1 I2 I5 Hin Hcur.
Qed.

Lemma moves_handleGPURestartRsp d net meta rest b d' :
  incoming (gpuPort d) = MGPURestartRsp meta :: rest ->
  handleGPURestartRsp (retrieved d) = Ok (b, d') ->
  Inv {| drv := d; atGPUs := net |} ->
  moves {| drv := d; atGPUs := net |} {| drv := d'; atGPUs := net |}.
Proof.
  intros Hin Hrun HI.
  destruct (handler_start d net _ rest GPURestart HI Hin eq_refl)
    as (Hc & Hu & Hz & mreq & Hcur & Hflag & Hwf).
  cbn [ctr] in Hc, Hu.
  unfold handleGPURestartRsp, retrieved, RetrieveIncoming in Hrun.
  rewrite Hin in Hrun. cbn in Hrun. rewrite Hu in Hrun.
  destruct Hwf as [Hwf1 Hwf2]. zeros Hz. inv_open HI. rewrite Hin in *.
  destruct (Z.eqb_spec (numRestartACK d - 1) 0) as [E|E].
  - unfold prepareRDMARestartReqs in Hrun. cbn in Hrun.
    rewrite rdma_restart_loop in Hrun. cbn in Hrun.
    inversion Hrun; subst b d'; clear Hrun.
    moves_solve d I1 I2 I5 Hin Hcur.
  - cbn in Hrun. inversion Hrun; subst b d'; clear Hrun.
    moves_solve d I1 I2 I5 Hin Hcur.
Qed.

Lemma moves_processRDMARestartRspToDriver d net meta rest b d' :
  incoming (gpuPort d) = MRDMARestartRspToDriver meta :: rest ->
  processRDMARestartRspToDriver (retrieved d) = Ok (b, d') ->
  Inv {| drv := d; atGPUs := net |} ->
  moves {| drv := d; atGPUs := net |} {| drv := d'; atGPUs := net |}.
Proof.
  intros Hin Hrun HI.
  destruct (handler_start d net _ rest RDMARestart HI Hin eq_refl)
    as (Hc & Hu & Hz & mreq & Hcur & Hflag & Hwf).
  cbn [ctr] in Hc, Hu.
  unfold processRDMARestartRspToDriver, retrieved, RetrieveIncoming in Hrun.
  rewrite Hin in Hrun. cbn in Hrun. rewrite Hu in Hrun.
  destruct Hwf as [Hwf1 Hwf2]. zeros Hz. inv_open HI. rewrite Hin in *.
  destruct (Z.eqb_spec (numRDMARestartACK d - 1) 0) as [E|E].
  - cbn in Hrun. inversion Hrun; subst b d'; clear Hrun.
    moves_solve d I1 I2 I5 Hin Hcur.
  - cbn in Hrun. inversion Hrun; subst b d'; clear Hrun.
    moves_solve d I1 I2 I5 Hin Hcur.
Qed.

(** The response the driver prepares for the MMU. *)
Definition responseToMMU (s : Driver) (m : PageMigrationReqToDriver)
  : PageMigrationRspFromDriver :=
  let requestingGPUs := findRequestingGPUs s (GPUReqToVAddrMap m) in
  let pageVaddrs := pageVaddrsOf (GPUReqToVAddrMap m) requestingGPUs in
  {| pmrsp_meta := {| ID := nextMsgID s; Src := portName (mmuPort s);
                      Dst := Src (pmd_meta m) |};
     rsp_VAddr := concat (map snd (rangeOrder pageVaddrs));
     RspToTop := RespondToTop m;
     OriginalReq := m |}.

Lemma preparePageMigrationRspToMMU_run (s : Driver) m :
  currentPageMigrationReq s = Some m ->
  preparePageMigrationRspToMMU s =
  Ok (tt, set_toSendToMMU (Some (responseToMMU s m))
            (set_nextMsgID (S (nextMsgID s)) s)).
Proof.
  intros H. unfold preparePageMigrationRspToMMU. cbn. rewrite H. reflexivity.
Qed.

Lemma prepareGPURestartReqs_run (s : Driver) m :
  currentPageMigrationReq s = Some m ->
  prepareGPURestartReqs s =
  match resolveGPUs (GPUs s) (CurrAccessingGPUs m) with
  | Ok dsts =>
      Ok (tt,
          set_numRestartACK (bumpACK (length dsts) (numRestartACK s))
            (set_requestsToSend
               (requestsToSend s ++
                map MGPURestartReq
                  (metas (portName (gpuPort s)) (nextMsgID s) dsts))
               (set_nextMsgID (nextMsgID s + length dsts) s)))
  | Panic pk => Panic pk
  end.
Proof.
  intros H. unfold prepareGPURestartReqs. cbn. rewrite H. cbn.
  apply gpu_restart_loop.
Qed.

Lemma moves_processPageMigrationRspFromCP d net meta rest b d' :
  incoming (gpuPort d) = MPageMigrationRspToDriver meta :: rest ->
  processPageMigrationRspFromCP (retrieved d) = Ok (b, d') ->
  Inv {| drv := d; atGPUs := net |} ->
  moves {| drv := d; atGPUs := net |} {| drv := d'; atGPUs := net |}.
Proof.
  intros Hin Hrun HI.
  destruct (handler_start d net _ rest Migrate HI Hin eq_refl)
    as (Hc & Hu & Hz & mreq & Hcur & Hflag & Hwf).
  cbn [ctr] in Hc, Hu.
  unfold processPageMigrationRspFromCP, retrieved, RetrieveIncoming in Hrun.
  rewrite Hin in Hrun. cbn in Hrun. rewrite Hu in Hrun.
  destruct Hwf as [Hwf1 Hwf2]. zeros Hz. inv_open HI. rewrite Hin in *.
  cbn in I5.
  assert (Hone : (cnt Migrate (outgoing (gpuPort d)) + cnt Migrate net
                  + cnt Migrate rest = 0)%nat)
    by (destruct (isCurrentlyMigratingOnePage d); lia).
  destruct (Z.eqb_spec (numPagesMigratingACK d - 1) 0) as [E|E].
  - match type of Hrun with
    | context [bind prepareGPURestartReqs _ ?s] =>
        unfold bind in Hrun;
        rewrite (prepareGPURestartReqs_run s mreq Hcur) in Hrun
    end.
    cbn [GPUs set_isCurrentlyMigratingOnePage set_numPagesMigratingACK
         set_gpuPort] in Hrun.
    destruct (resolveGPUs (GPUs d) (CurrAccessingGPUs mreq)) as [dsts|pk]
      eqn:Hres; [|discriminate].
    apply resolveGPUs_length in Hres.
    match type of Hrun with
    | context [preparePageMigrationRspToMMU ?s] =>
        rewrite (preparePageMigrationRspToMMU_run s mreq Hcur) in Hrun
    end.
    inversion Hrun; subst b d'; clear Hrun.
    match goal with
    | |- context [responseToMMU ?s ?m] =>
        generalize (responseToMMU s m); intros rsp
    end.
    moves_solve d I1 I2 I5 Hin Hcur.
  - cbn in Hrun. inversion Hrun; subst b d'; clear Hrun.
    moves_solve d I1 I2 I5 Hin Hcur.
Qed.

Lemma moves_processShootdownCompleteRsp d net meta rest b d' :
  incoming (gpuPort d) = MShootDownCompleteRsp meta :: rest ->
  processShootdownCompleteRsp (retrieved d) = Ok (b, d') ->
  Inv {| drv := d; atGPUs := net |} ->
  moves {| drv := d; atGPUs := net |} {| drv := d'; atGPUs := net |}.
Proof.
  intros Hin Hrun HI.
  destruct (handler_start d net _ rest Shootdown HI Hin eq_refl)
    as (Hc & Hu & Hz & mreq & Hcur & Hflag & Hwf).
  cbn [ctr] in Hc, Hu.
  destruct Hwf as [Hwf1 Hwf2]. zeros Hz. inv_open HI. rewrite Hin in *.
  destruct (Z.eq_dec (numShootDownACK d - 1) 0) as [E|E].
  - apply (processShootdownCompleteRsp_last _ mreq) in Hrun;
      [|exact Hcur|cbn; rewrite Hu; exact E].
    destruct Hrun as (pmc & ctx & reqs & Hrun).
    apply migrates_state in Hrun as (Hlen & pt & alloc & ->).
    change (findRequestingGPUs (retrieved d) (GPUReqToVAddrMap mreq))
      with (findRequestingGPUs d (GPUReqToVAddrMap mreq)) in *.
    fold (totalVAddrs d mreq) in *.
    unfold retrieved, RetrieveIncoming. rewrite Hin. cbn [snd].
    moves_solve d I1 I2 I5 Hin Hcur.
  - rewrite processShootdownCompleteRsp_waiting in Hrun
      by (cbn; rewrite Hu; exact E).
    unfold retrieved, RetrieveIncoming in Hrun. rewrite Hin in Hrun.
    cbn in Hrun. rewrite Hu in Hrun.
    inversion Hrun; subst b d'; clear Hrun.
    moves_solve d I1 I2 I5 Hin Hcur.
Qed.

(** Retrieving a message of no phase from the GPU port. *)
Lemma proto_frame_retrieved d m rest :
  incoming (gpuPort d) = m :: rest -> phaseOf m = None ->
  proto_frame d (retrieved d).
Proof.
  intros Hin Hm. unfold proto_frame, retrieved, RetrieveIncoming. cbn.
  rewrite Hin. cbn.
  assert (forall ph, inPhase ph m = false)
    by (intros ph; unfold inPhase; now rewrite Hm).
  repeat split; auto. intros ph.
  match goal with H : forall ph, inPhase ph m = false |- _ => now rewrite H end.
Qed.

Lemma moves_processReturnReq d net b d' :
  processReturnReq d = Ok (b, d') ->
  Inv {| drv := d; atGPUs := net |} ->
  moves {| drv := d; atGPUs := net |} {| drv := d'; atGPUs := net |}.
Proof.
  intros Hrun HI. unfold processReturnReq, PeekIncoming in Hrun. cbn in Hrun.
  destruct (incoming (gpuPort d)) as [|m rest] eqn:Hin; cbn in Hrun.
  { inversion Hrun; subst. apply moves_proto_frame; auto using proto_frame_refl. }
  fold (retrieved d) in Hrun.
  destruct m; cbn in Hrun;
    try solve [inversion Hrun; subst;
               apply moves_proto_frame; auto using proto_frame_refl].
  - apply moves_proto_frame; [|exact HI].
    eapply proto_frame_trans;
      [eapply proto_frame_retrieved; eauto; reflexivity|].
    apply proto_frame_own. eapply processLaunchKernelReturn_own; eauto.
  - eapply moves_processRDMADrainRsp; eauto.
  - eapply moves_processShootdownCompleteRsp; eauto.
  - eapply moves_processPageMigrationRspFromCP; eauto.
  - eapply moves_processRDMARestartRspToDriver; eauto.
  - eapply moves_handleGPURestartRsp; eauto.
Qed.

Lemma moves_parseFromMMU d net b d' :
  parseFromMMU d = Ok (b, d') ->
  Inv {| drv := d; atGPUs := net |} ->
  moves {| drv := d; atGPUs := net |} {| drv := d'; atGPUs := net |}.
Proof.
  intros Hrun HI. unfold parseFromMMU, RetrieveIncoming in Hrun.
  cbn in Hrun.
  destruct (isCurrentlyHandlingMigrationReq d) eqn:Hflag.
  { inversion Hrun; subst. apply moves_proto_frame; auto using proto_frame_refl. }
  inv_open HI. destruct (I6 Hflag) as [Hcur Hz].
  pose proof (Hz DrainRDMA) as Z1. pose proof (Hz Shootdown) as Z2.
  pose proof (Hz Migrate) as Z3. pose proof (Hz GPURestart) as Z4.
  pose proof (Hz RDMARestart) as Z5. cbn [ctr] in Z1, Z2, Z3, Z4, Z5.
  destruct (incoming (mmuPort d)) as [|m rest] eqn:Hin; cbn in Hrun.
  - inversion Hrun; subst b d'; clear Hrun.
    moves_solve d I1 I2 I5 Hin Hcur.
  - destruct m; try discriminate.
    unfold initiateRDMADrain in Hrun. cbn in Hrun.
    rewrite drain_loop in Hrun. cbn in Hrun.
    inversion Hrun; subst b d'; clear Hrun.
    moves_solve d I1 I2 I5 Hin Hcur.
    + intros _. eexists. split; [reflexivity|].
      apply (wf_request_GPUs d); [reflexivity|].
      apply I8. now left.
    + intros m Hm. apply (wf_request_GPUs d); [reflexivity|].
      apply I8. now right.
Qed.

(** ** Every step preserves the invariant and moves the counters as said *)

(** The sends leave the counters, the flag and the current request alone. *)
Lemma sendToGPUs_same d b d' :
  sendToGPUs d = Ok (b, d') ->
  (forall ph, ctr ph d' = ctr ph d) /\
  isCurrentlyHandlingMigrationReq d' = isCurrentlyHandlingMigrationReq d /\
  currentPageMigrationReq d' = currentPageMigrationReq d.
Proof.
  unfold sendToGPUs.
  destruct (requestsToSend d); [intros H; inversion H; subst; auto|].
  destruct (Send _ _); intros H; inversion H; subst;
    repeat split; auto; intros []; reflexivity.
Qed.

Lemma sendToMMU_same d b d' :
  sendToMMU d = Ok (b, d') ->
  (forall ph, ctr ph d' = ctr ph d) /\
  isCurrentlyHandlingMigrationReq d' = isCurrentlyHandlingMigrationReq d /\
  currentPageMigrationReq d' = currentPageMigrationReq d.
Proof.
  unfold sendToMMU.
  destruct (toSendToMMU d); [|intros H; inversion H; subst; auto].
  destruct (Send _ _); intros H; inversion H; subst;
    repeat split; auto; intros []; reflexivity.
Qed.

Lemma sendMigrationReqToCP_same d b d' :
  sendMigrationReqToCP d = Ok (b, d') ->
  (forall ph, ctr ph d' = ctr ph d) /\
  isCurrentlyHandlingMigrationReq d' = isCurrentlyHandlingMigrationReq d /\
  currentPageMigrationReq d' = currentPageMigrationReq d.
Proof.
  unfold sendMigrationReqToCP.
  destruct (migrationReqToSendToCP d); [intros H; inversion H; subst; auto|].
  destruct (isCurrentlyMigratingOnePage d);
    [intros H; inversion H; subst; auto|].
  destruct (Send _ _); intros H; inversion H; subst;
    repeat split; auto; intros []; reflexivity.
Qed.

Lemma step_moves s s' :
  middlewares_respect_protocol -> Inv s -> step s s' -> moves s s'.
Proof.
  intros Hmw HI Hstep. destruct Hstep.
  - split; [eapply Inv_sendToGPUs; eauto|].
    apply moves_same; cbn; eapply sendToGPUs_same; eauto.
  - split; [eapply Inv_sendToMMU; eauto|].
    apply moves_same; cbn; eapply sendToMMU_same; eauto.
  - split; [eapply Inv_sendMigrationReqToCP; eauto|].
    apply moves_same; cbn; eapply sendMigrationReqToCP_same; eauto.
  - apply moves_proto_frame; [|exact HI].
    match goal with
    | H1 : _ ∈ middlewares, H2 : mw_Tick _ _ = _ |- _ =>
        exact (proj1 (Hmw _ H1) _ _ _ H2)
    end.
  - eapply moves_processReturnReq; eauto.
  - apply moves_proto_frame; [|exact HI].
    eapply (processNewCommand_R proto_frame); eauto using proto_frame_refl,
      proto_frame_trans, proto_frame_own.
  - eapply moves_parseFromMMU; eauto.
  - split; [eapply Inv_deliver; eauto|]. apply moves_same; cbn; auto;
      intros []; reflexivity.
  - split; [eapply Inv_respond; eauto|]. apply moves_same; cbn; auto;
      intros []; reflexivity.
  - split; [eapply Inv_arrive; eauto|]. apply moves_same; cbn; auto;
      intros []; reflexivity.
  - split; [eapply Inv_mmu_send; eauto|]. apply moves_same; cbn; auto;
      intros []; reflexivity.
  - split; [eapply Inv_mmu_receive; eauto|]. apply moves_same; cbn; auto;
      intros []; reflexivity.
  - split; [eapply Inv_host; eauto|]. apply moves_same; cbn; auto;
      intros []; reflexivity.
Qed.

Lemma reachable_Inv s :
  middlewares_respect_protocol -> reachable s -> Inv s.
Proof.
  intros Hmw. induction 1 as [s Hi|s s' _ IH Hstep].
  - now apply Inv_initial.
  - now apply (step_moves s s' Hmw IH Hstep).
Qed.

(** ** The orchestrator over reachable states *)

(** C1. In every step from a reachable state, each ack counter stays, goes
    down by exactly one as the driver takes a response of its phase from the
    head of the GPU port, or is zero and becomes the fan-out of its phase
    ([cm_each]); when the counter of a phase reaches zero in the step, the
    counter of the phase entered is exactly the fan-out of that phase: the
    number of registered GPUs for RDMA drain and RDMA restart, the number of
    accessing GPUs for shootdown and GPU restart, the number of v-addresses
    migrated for the page copies ([cm_transition], [cm_accept] for the first
    phase); and at most one counter is non-zero, so the counter of every
    other phase, the one just completed included, is zero. *)
Theorem ack_counters_follow_phases s s' :
  middlewares_respect_protocol -> reachable s -> step s s' ->
  counters_move s s' /\
  (forall ph ph', ctr ph (drv s') <> 0 -> ctr ph' (drv s') <> 0 -> ph = ph') /\
  (forall ph, 0 <= ctr ph (drv s') < 2 ^ 64).
Proof.
  intros Hmw Hr Hstep.
  destruct (step_moves s s' Hmw (reachable_Inv s Hmw Hr) Hstep)
    as (HI & Hc & _).
  split; [exact Hc|]. split; [apply HI|apply HI].
Qed.

(** The handler of a page-copy response clears [isCurrentlyMigratingOnePage]. *)
Lemma processPageMigrationRspFromCP_clears (d : Driver) b d' :
  processPageMigrationRspFromCP d = Ok (b, d') ->
  isCurrentlyMigratingOnePage d' = false.
Proof.
  unfold processPageMigrationRspFromCP. cbn.
  destruct (u64 (numPagesMigratingACK d - 1) =? 0); cbn.
  - match goal with
    | |- context [prepareGPURestartReqs ?s] => set (s0 := s)
    end.
    destruct (currentPageMigrationReq d) as [m|] eqn:Hcur.
    + rewrite (prepareGPURestartReqs_run s0 m Hcur).
      destruct (resolveGPUs _ _) as [dsts|pk]; [|discriminate].
      match goal with
      | |- context [preparePageMigrationRspToMMU ?s] =>
          rewrite (preparePageMigrationRspToMMU_run s m Hcur)
      end.
      intros H; inversion H; subst. reflexivity.
    + unfold prepareGPURestartReqs. cbn. subst s0. cbn. rewrite Hcur.
      discriminate.
  - intros H; inversion H; subst. reflexivity.
Qed.

(** C6. In every reachable state the page-copy requests in flight over the
    GPU port (sent and not yet answered, or answered and not yet handled) are
    one if [isCurrentlyMigratingOnePage] is set and none otherwise, so at
    most one.  [sendMigrationReqToCP] sends only the head of the pending
    list, only while the flag is clear and hence with none in flight, and
    sets the flag when the send succeeds; otherwise it changes nothing.  The
    handler of [PageMigrationRspToDriver] clears the flag. *)
Theorem one_page_migration_in_flight s :
  middlewares_respect_protocol -> reachable s ->
  (inflightPages s <= 1)%nat /\
  inflightPages s =
    (if isCurrentlyMigratingOnePage (drv s) then 1 else 0)%nat /\
  (exists b d1, sendMigrationReqToCP (drv s) = Ok (b, d1) /\
     (b = false /\ d1 = drv s \/
      b = true /\ inflightPages s = 0%nat /\
      exists req,
        isCurrentlyMigratingOnePage (drv s) = false /\
        isCurrentlyMigratingOnePage d1 = true /\
        migrationReqToSendToCP (drv s) = req :: migrationReqToSendToCP d1 /\
        outgoing (gpuPort d1) =
          outgoing (gpuPort (drv s)) ++ [MPageMigrationReqToCP req])) /\
  (forall meta rest b d',
     incoming (gpuPort (drv s)) = MPageMigrationRspToDriver meta :: rest ->
     processReturnReq (drv s) = Ok (b, d') ->
     isCurrentlyMigratingOnePage (drv s) = true /\
     isCurrentlyMigratingOnePage d' = false /\
     incoming (gpuPort d') = rest).
Proof.
  intros Hmw Hr. pose proof (reachable_Inv s Hmw Hr) as HI.
  pose proof (inv_inflight s HI) as Hfl.
  split; [rewrite Hfl; destruct (isCurrentlyMigratingOnePage _); lia|].
  split; [exact Hfl|]. split.
  - destruct (sendMigrationReqToCP_head (drv s)) as (b & d1 & Hs & Hcase).
    exists b, d1. split; [exact Hs|].
    destruct Hcase as [?|(-> & req & H1 & H2 & H3 & H4)]; [now left|].
    right. split; [reflexivity|]. split; [now rewrite Hfl, H1|]. eauto.
  - intros meta rest b d' Hin Hrun.
    unfold inflightPages in Hfl. rewrite Hin in Hfl. cbn in Hfl.
    split; [destruct (isCurrentlyMigratingOnePage _); [reflexivity|lia]|].
    unfold processReturnReq, PeekIncoming in Hrun. cbn in Hrun.
    rewrite Hin in Hrun. cbn in Hrun.
    split; [eapply processPageMigrationRspFromCP_clears; eauto|].
    apply processPageMigrationRspFromCP_keeps_gpuPort in Hrun.
    unfold keeps_gpuPort in Hrun. rewrite Hrun. cbn. now rewrite Hin.
Qed.


(** * Further properties of the driver *)

(** ** Draining [requestsToSend] *)

(** [n] calls of [sendToGPUs], one per tick. *)
Fixpoint sendToGPUsN (n : nat) (d : Driver) : Driver :=
  match n with
  | O => d
  | S k =>
      match sendToGPUs d with
      | Ok (_, d') => sendToGPUsN k d'
      | Panic _ => d
      end
  end.

Lemma sendToGPUs_conserves (d : Driver) b d' :
  sendToGPUs d = Ok (b, d') ->
  outgoing (gpuPort d') ++ requestsToSend d'
  = outgoing (gpuPort d) ++ requestsToSend d /\
  incoming (gpuPort d') = incoming (gpuPort d) /\
  outCapacity (gpuPort d') = outCapacity (gpuPort d).
Proof.
  unfold sendToGPUs, Send.
  destruct (requestsToSend d) as [|req rest] eqn:E;
    [intros H; inversion H; subst; rewrite E; auto|].
  destruct (bool_decide _);
    intros H; inversion H; subst; cbn; rewrite ?E; auto.
  rewrite <- app_assoc. auto.
Qed.

Lemma sendToGPUs_room (d : Driver) req rest :
  requestsToSend d = req :: rest ->
  (length (outgoing (gpuPort d)) < outCapacity (gpuPort d))%nat ->
  exists d', sendToGPUs d = Ok (true, d') /\ requestsToSend d' = rest /\
    outgoing (gpuPort d') = outgoing (gpuPort d) ++ [req].
Proof.
  intros E Hroom. unfold sendToGPUs, Send. rewrite E.
  rewrite bool_decide_eq_true_2 by exact Hroom.
  eexists. split; [reflexivity|]. cbn. auto.
Qed.

(** X1. Calls of [sendToGPUs] move the requests from [requestsToSend] to
    the outgoing buffer of the GPU port in order: whatever the number of
    calls, the buffer followed by the list is the same sequence, nothing is
    dropped, duplicated or reordered, and the incoming side is not touched;
    when the buffer has room for all the requests, as many calls as there are
    requests send them all. *)
Theorem sendToGPUs_in_order (n : nat) (d : Driver) :
  outgoing (gpuPort (sendToGPUsN n d)) ++ requestsToSend (sendToGPUsN n d)
  = outgoing (gpuPort d) ++ requestsToSend d /\
  incoming (gpuPort (sendToGPUsN n d)) = incoming (gpuPort d) /\
  ((length (outgoing (gpuPort d)) + length (requestsToSend d)
    <= outCapacity (gpuPort d))%nat ->
   (length (requestsToSend d) <= n)%nat ->
   requestsToSend (sendToGPUsN n d) = [] /\
   outgoing (gpuPort (sendToGPUsN n d))
   = outgoing (gpuPort d) ++ requestsToSend d).
Proof.
  revert d. induction n as [|n IH]; intros d.
  - cbn. split; [reflexivity|]. split; [reflexivity|].
    intros _ Hn. destruct (requestsToSend d); [|cbn in Hn; lia].
    now rewrite app_nil_r.
  - cbn [sendToGPUsN].
    destruct (sendToGPUs d) as [[b d']|pk] eqn:E.
    2:{ unfold sendToGPUs in E. destruct (requestsToSend d); [discriminate|].
        destruct (Send _ _); discriminate. }
    destruct (sendToGPUs_conserves d b d' E) as (H1 & H2 & H3).
    destruct (IH d') as (I1 & I2 & I3).
    split; [now rewrite I1|]. split; [now rewrite I2|].
    intros Hcap Hn.
    destruct (requestsToSend d) as [|req rest] eqn:Er.
    + unfold sendToGPUs in E. rewrite Er in E. inversion E; subst d'.
      destruct I3 as [J1 J2]; [rewrite Er; cbn; lia|rewrite Er; cbn; lia|].
      rewrite J1, J2, Er. auto.
    + cbn in Hcap, Hn.
      destruct (sendToGPUs_room d req rest Er ltac:(lia))
        as (d1 & E1 & R1 & O1).
      rewrite E in E1. inversion E1; subst d1 b.
      destruct I3 as [J1 J2].
      * rewrite H3, O1, R1, length_app. cbn. lia.
      * rewrite R1. lia.
      * split; [exact J1|]. rewrite J2, O1, R1, <- app_assoc. reflexivity.
Qed.

(** ** Commands of the middlewares *)

(** The middlewares of [ms] decline [cmd] one after the other, taking the
    driver from [d] to [d']. *)
Inductive declinedBy (cmd : Command) (ci qi : nat)
  : list Middleware -> Driver -> Driver -> Prop :=
| declined_nil d : declinedBy cmd ci qi [] d d
| declined_cons mw ms d d1 d2 :
    mw_ProcessCommand mw cmd ci qi d = Ok (false, d1) ->
    declinedBy cmd ci qi ms d1 d2 ->
    declinedBy cmd ci qi (mw :: ms) d d2.

Ltac same_decline :=
  match goal with
  | H1 : ?c = Ok (false, ?a), H2 : ?c = Ok (false, ?b) |- _ =>
      rewrite H1 in H2; inversion H2; subst; clear H2
  end.

Lemma processCommandWithMiddlewareLoop_spec cmd ci qi ms : forall d b d',
  processCommandWithMiddlewareLoop ms cmd ci qi d = Ok (b, d') <->
  (b = true /\ exists pre mw post d1,
     ms = pre ++ mw :: post /\ declinedBy cmd ci qi pre d d1 /\
     mw_ProcessCommand mw cmd ci qi d1 = Ok (true, d')) \/
  (b = false /\ declinedBy cmd ci qi ms d d').
Proof.
  induction ms as [|mw ms IH]; intros d b d'; cbn.
  - split.
    + intros H; inversion H; subst. right. split; [reflexivity|constructor].
    + intros [(_ & pre & mw & post & d1 & E & _)|(-> & H)].
      * destruct pre; discriminate.
      * inversion H; subst. reflexivity.
  - destruct (mw_ProcessCommand mw cmd ci qi d) as [[[|] d1]|pk] eqn:E; cbn.
    + split.
      * intros H; inversion H; subst. left. split; [reflexivity|].
        exists [], mw, ms, d. split; [reflexivity|]. split; [constructor|auto].
      * intros [(-> & pre & mw' & post & d2 & Hms & Hdec & Hrun)|(-> & H)].
        -- destruct pre as [|x pre]; cbn in Hms; inversion Hms; subst.
           ++ inversion Hdec; subst. congruence.
           ++ inversion Hdec; subst. congruence.
        -- inversion H; subst. congruence.
    + rewrite IH. split.
      * intros [(-> & pre & mw' & post & d2 & Hms & Hdec & Hrun)|(-> & H)].
        -- left. split; [reflexivity|].
           exists (mw :: pre), mw', post, d2. subst ms.
           split; [reflexivity|]. split; [econstructor; eauto|auto].
        -- right. split; [reflexivity|]. econstructor; eauto.
      * intros [(-> & pre & mw' & post & d2 & Hms & Hdec & Hrun)|(-> & H)].
        -- destruct pre as [|x pre]; cbn in Hms; inversion Hms; subst.
           ++ inversion Hdec; subst. congruence.
           ++ inversion Hdec; subst. same_decline.
              left. split; [reflexivity|]. eauto 8.
        -- inversion H; subst. same_decline. right. auto.
    + split; [discriminate|].
      intros [(-> & pre & mw' & post & d2 & Hms & Hdec & Hrun)|(-> & H)].
      * destruct pre as [|x pre]; cbn in Hms; inversion Hms; subst;
          inversion Hdec; subst; congruence.
      * inversion H; subst. congruence.
Qed.

(** X2. A command of none of the three built-in kinds is offered to the
    middlewares in their order: the call returns true exactly when some
    middleware accepts the command after all the middlewares before it
    declined it, and then no later middleware is asked (the state is the one
    the accepting middleware left); it returns false exactly when every
    middleware declined. *)
Theorem processCommandWithMiddleware_first_accepts cmd ci qi (d : Driver)
    b d' :
  processCommandWithMiddleware cmd ci qi d = Ok (b, d') <->
  (b = true /\ exists pre mw post d1,
     middlewares = pre ++ mw :: post /\ declinedBy cmd ci qi pre d d1 /\
     mw_ProcessCommand mw cmd ci qi d1 = Ok (true, d')) \/
  (b = false /\ declinedBy cmd ci qi middlewares d d').
Proof. apply processCommandWithMiddlewareLoop_spec. Qed.

(** ** Whom the orchestrator addresses *)

Lemma metas_Dst src n dsts : map Dst (metas src n dsts) = dsts.
Proof.
  revert n. induction dsts as [|g dsts IH]; intros n; cbn;
    [reflexivity|now rewrite IH].
Qed.

Lemma metas_ID src n dsts : map ID (metas src n dsts) = seq n (length dsts).
Proof.
  revert n. induction dsts as [|g dsts IH]; intros n; cbn;
    [reflexivity|now rewrite IH].
Qed.

Lemma metas_Src src n dsts :
  Forall (fun meta => Src meta = src) (metas src n dsts).
Proof.
  revert n. induction dsts as [|g dsts IH]; intros n; cbn; constructor; auto.
Qed.

(** X3. The RDMA drain and the RDMA restart are broadcasts: each appends to
    [requestsToSend] one command per registered GPU, in registration order,
    sent from the GPU port with consecutive fresh identifiers, and counts its
    acknowledgement counter up once per GPU; neither can panic. *)
Theorem RDMA_commands_reach_every_GPU (d : Driver) :
  exists ms,
    map Dst ms = GPUs d /\
    map ID ms = seq (nextMsgID d) (length (GPUs d)) /\
    Forall (fun meta => Src meta = portName (gpuPort d)) ms /\
    (exists d', initiateRDMADrain d = Ok (true, d') /\
       requestsToSend d'
       = requestsToSend d ++ map MRDMADrainCmdFromDriver ms /\
       numRDMADrainACK d'
       = bumpACK (length (GPUs d)) (numRDMADrainACK d) /\
       GPUs d' = GPUs d) /\
    (exists d', prepareRDMARestartReqs d = Ok (tt, d') /\
       requestsToSend d'
       = requestsToSend d ++ map MRDMARestartCmdFromDriver ms /\
       numRDMARestartACK d'
       = bumpACK (length (GPUs d)) (numRDMARestartACK d) /\
       GPUs d' = GPUs d).
Proof.
  exists (metas (portName (gpuPort d)) (nextMsgID d) (GPUs d)).
  split; [apply metas_Dst|]. split; [apply metas_ID|].
  split; [apply metas_Src|]. split.
  - unfold initiateRDMADrain. cbn. rewrite drain_loop. cbn.
    eexists. split; [reflexivity|]. cbn. auto.
  - unfold prepareRDMARestartReqs. cbn. rewrite rdma_restart_loop.
    eexists. split; [reflexivity|]. cbn. auto.
Qed.

(** [d.GPUs[a - 1]] for 1-based identifiers in range. *)
Lemma resolveGPUs_in_range gpus l :
  Forall (fun a => 1 <= a <= Z.of_nat (length gpus)) l ->
  Z.of_nat (length gpus) < 2 ^ 64 ->
  exists dsts, resolveGPUs gpus l = Ok dsts /\
    Forall2 (fun a p => gpus !! Z.to_nat (a - 1) = Some p) l dsts.
Proof.
  intros Hall Hn. induction Hall as [|a l Ha _ IH]; cbn.
  - exists []. split; [reflexivity|constructor].
  - destruct IH as (dsts & -> & Hd).
    rewrite u64_id by lia.
    destruct (lookup_lt_is_Some_2 gpus (Z.to_nat (a - 1)) ltac:(lia))
      as [p Hp].
    rewrite (proj2 (index_Ok gpus (a - 1) p)) by (split; [lia|exact Hp]).
    cbn. exists (p :: dsts). split; [reflexivity|]. constructor; auto.
Qed.

Lemma resolveGPUs_out_of_range gpus l :
  Forall (fun a => 0 <= a < 2 ^ 64) l ->
  Exists (fun a => ~ 1 <= a <= Z.of_nat (length gpus)) l ->
  Z.of_nat (length gpus) < 2 ^ 64 ->
  resolveGPUs gpus l = Panic IndexOutOfRange.
Proof.
  intros Hall Hex Hn. induction Hall as [|a l Ha _ IH]; [inversion Hex|].
  cbn.
  destruct (decide (1 <= a <= Z.of_nat (length gpus))) as [Hin|Hout].
  - apply Exists_cons in Hex as [?|Hex]; [contradiction|].
    rewrite (IH Hex).
    destruct (index gpus (u64 (a - 1))) as [p|pk] eqn:E; cbn; [reflexivity|].
    rewrite u64_id in E by lia.
    destruct (lookup_lt_is_Some_2 gpus (Z.to_nat (a - 1)) ltac:(lia))
      as [p Hp].
    rewrite (proj2 (index_Ok gpus (a - 1) p)) in E by (split; [lia|exact Hp]).
    discriminate.
  - assert (E : index gpus (u64 (a - 1)) = Panic IndexOutOfRange).
    { unfold index.
      assert (0 <= u64 (a - 1)) by (unfold u64; apply Z.mod_pos_bound; lia).
      destruct (Z.ltb_spec (u64 (a - 1)) 0); [lia|].
      rewrite lookup_ge_None_2; [reflexivity|].
      destruct (Z.eq_dec a 0) as [->|Hne].
      - change (u64 (0 - 1)) with (2 ^ 64 - 1). lia.
      - rewrite u64_id by lia. lia. }
    rewrite E. reflexivity.
Qed.

(** X4. The shootdown that follows the last RDMA-drain acknowledgement:
    with every accessing GPU identifier in [1 .. number of GPUs], one
    [ShootDownCommand] per accessing GPU [a] is appended, in order, addressed
    to [GPUs[a-1]], each carrying the request's PID and the same list of
    v-addresses (those of the keys [1 .. number of GPUs] of the request's
    map, by increasing key), and [numShootDownACK] is set to their number;
    an accessing identifier outside that range (0 included: [a-1] wraps) is
    an index panic. *)
Theorem sendShootDownReqs_targets (d : Driver) m :
  currentPageMigrationReq d = Some m ->
  Z.of_nat (length (GPUs d)) < 2 ^ 64 ->
  Forall (fun a => 0 <= a < 2 ^ 64) (CurrAccessingGPUs m) ->
  let vAddr := concat (omap (fun i => GPUReqToVAddrMap m !! i) (gpuIDs d)) in
  (Forall (fun a => 1 <= a <= Z.of_nat (length (GPUs d)))
          (CurrAccessingGPUs m) ->
   exists ms d',
     sendShootDownReqs d = Ok (true, d') /\
     requestsToSend d'
     = requestsToSend d ++
       map (fun meta => MShootDownCommand
              {| sdc_meta := meta; sdc_VAddr := vAddr;
                 sdc_PID := pmd_PID m |}) ms /\
     Forall2 (fun a meta => GPUs d !! Z.to_nat (a - 1) = Some (Dst meta))
             (CurrAccessingGPUs m) ms /\
     numShootDownACK d' = u64 (Z.of_nat (length (CurrAccessingGPUs m)))) /\
  (Exists (fun a => ~ 1 <= a <= Z.of_nat (length (GPUs d)))
          (CurrAccessingGPUs m) ->
   sendShootDownReqs d = Panic IndexOutOfRange).
Proof.
  intros Hcur Hn Hu vAddr.
  assert (Hrun : sendShootDownReqs d =
    match resolveGPUs (GPUs d) (CurrAccessingGPUs m) with
    | Ok dsts =>
        Ok (true,
            set_requestsToSend
              (requestsToSend d ++
               map (fun meta => MShootDownCommand
                      {| sdc_meta := meta; sdc_VAddr := vAddr;
                         sdc_PID := pmd_PID m |})
                   (metas (portName (gpuPort d)) (nextMsgID d) dsts))
              (set_nextMsgID (nextMsgID d + length dsts)
                 (set_numShootDownACK
                    (u64 (Z.of_nat (length (CurrAccessingGPUs m)))) d)))
    | Panic pk => Panic pk
    end).
  { unfold sendShootDownReqs. cbn. rewrite Hcur. cbn.
    rewrite shootdown_loop. cbn.
    destruct (resolveGPUs (GPUs d) (CurrAccessingGPUs m)); reflexivity. }
  split.
  - intros Hin.
    destruct (resolveGPUs_in_range _ _ Hin Hn) as (dsts & Hres & Hd).
    rewrite Hres in Hrun.
    exists (metas (portName (gpuPort d)) (nextMsgID d) dsts). eexists.
    split; [exact Hrun|]. cbn. split; [reflexivity|]. split.
    + rewrite <- (metas_Dst (portName (gpuPort d)) (nextMsgID d) dsts) in Hd.
      apply Forall2_fmap_r in Hd. exact Hd.
    + reflexivity.
  - intros Hex. rewrite Hrun.
    now rewrite (resolveGPUs_out_of_range _ _ Hu Hex Hn).
Qed.

Lemma sendShootDownReqs_run (d : Driver) m :
  currentPageMigrationReq d = Some m ->
  sendShootDownReqs d =
  match resolveGPUs (GPUs d) (CurrAccessingGPUs m) with
  | Ok dsts =>
      Ok (true,
          set_requestsToSend
            (requestsToSend d ++
             map (fun meta => MShootDownCommand
                    {| sdc_meta := meta;
                       sdc_VAddr :=
                         concat (omap (fun i => GPUReqToVAddrMap m !! i)
                                      (gpuIDs d));
                       sdc_PID := pmd_PID m |})
                 (metas (portName (gpuPort d)) (nextMsgID d) dsts))
            (set_nextMsgID (nextMsgID d + length dsts)
               (set_numShootDownACK
                  (u64 (Z.of_nat (length (CurrAccessingGPUs m)))) d)))
  | Panic pk => Panic pk
  end.
Proof.
  intros Hcur. unfold sendShootDownReqs. cbn. rewrite Hcur. cbn.
  rewrite shootdown_loop. cbn.
  destruct (resolveGPUs (GPUs d) (CurrAccessingGPUs m)); reflexivity.
Qed.

(** X5. The GPUs that are restarted are the GPUs that were shot down: once
    the shootdown of a migration request has been issued without a panic,
    the GPU restart for the same request and the same registered GPUs cannot
    panic, and it appends one [GPURestartReq] per [ShootDownCommand], to the
    same destinations in the same order, counting [numRestartACK] up once for
    each. *)
Theorem restart_addresses_the_GPUs_shot_down (d1 d2 : Driver) m b d1' :
  currentPageMigrationReq d1 = Some m ->
  currentPageMigrationReq d2 = Some m ->
  GPUs d2 = GPUs d1 ->
  sendShootDownReqs d1 = Ok (b, d1') ->
  exists d2' ks kr,
    prepareGPURestartReqs d2 = Ok (tt, d2') /\
    requestsToSend d1' = requestsToSend d1 ++ map MShootDownCommand ks /\
    requestsToSend d2' = requestsToSend d2 ++ map MGPURestartReq kr /\
    map (fun k => Dst (sdc_meta k)) ks = map Dst kr /\
    length kr = length (CurrAccessingGPUs m) /\
    numRestartACK d2' = bumpACK (length kr) (numRestartACK d2).
Proof.
  intros Hc1 Hc2 HG Hrun. rewrite (sendShootDownReqs_run d1 m Hc1) in Hrun.
  destruct (resolveGPUs (GPUs d1) (CurrAccessingGPUs m)) as [dsts|pk]
    eqn:Hres; [|discriminate].
  inversion Hrun; subst b d1'; clear Hrun.
  rewrite (prepareGPURestartReqs_run d2 m Hc2), HG, Hres.
  eexists.
  exists (map (fun meta =>
                 {| sdc_meta := meta;
                    sdc_VAddr :=
                      concat (omap (fun i => GPUReqToVAddrMap m !! i)
                                   (gpuIDs d1));
                    sdc_PID := pmd_PID m |})
              (metas (portName (gpuPort d1)) (nextMsgID d1) dsts)),
         (metas (portName (gpuPort d2)) (nextMsgID d2) dsts).
  split; [reflexivity|]. cbn.
  split; [now rewrite map_map|]. split; [reflexivity|].
  split; [now rewrite map_map, !metas_Dst|].
  rewrite metas_length. split; [|reflexivity].
  now apply resolveGPUs_length in Hres.
Qed.

(** ** What the counters count *)

(** X6. In every reachable state each acknowledgement counter is exactly
    the number of requests and responses of its phase that the driver has
    created and not yet handled (waiting in an outbound list, on the GPU
    port, or at a GPU); no page-copy request ever sits in [requestsToSend];
    and when no migration is being handled nothing of the protocol is
    outstanding and every counter is zero. *)
Theorem counters_count_outstanding s :
  middlewares_respect_protocol -> reachable s ->
  (forall ph, ctr ph (drv s) = Z.of_nat (outstanding ph s)) /\
  cnt Migrate (requestsToSend (drv s)) = 0%nat /\
  (isCurrentlyHandlingMigrationReq (drv s) = false ->
   forall ph, ctr ph (drv s) = 0 /\ outstanding ph s = 0%nat).
Proof.
  intros Hmw Hr. pose proof (reachable_Inv s Hmw Hr) as HI.
  split; [apply HI|]. split; [apply HI|].
  intros Hf ph. destruct (inv_idle s HI Hf) as [_ Hz].
  split; [apply Hz|]. pose proof (inv_count s HI ph) as Hc.
  rewrite (Hz ph) in Hc. lia.
Qed.

(** ** Division by zero in the workgroup distribution *)

(** X7. [distributeWGToGPUs] divides by the total CU count of the members
    and by the workgroup sizes of the first packet: a device without members
    or whose members have no CU, and a packet with a workgroup size of zero
    in any dimension, end in the runtime panic of an integer division by
    zero. *)
Theorem distributeWGToGPUs_division_by_zero (d : Driver) queue cmd dev pkt0 :
  index (devices d) (GPUID queue) = Ok dev ->
  PacketArray cmd !! 0%nat = Some pkt0 ->
  (forall cus, memberCUs d (UnifiedGPUIDs dev) cus ->
     Forall (fun c => 0 <= c) cus -> sumZ cus = 0 -> packet_ok pkt0 ->
     distributeWGToGPUs d queue cmd = Panic DivideByZero) /\
  (UnifiedGPUIDs dev = [] -> packet_ok pkt0 ->
   distributeWGToGPUs d queue cmd = Panic DivideByZero) /\
  (forall total,
     sumCUCount (devices d) (UnifiedGPUIDs dev) 0 = Ok total ->
     WorkgroupSizeX pkt0 = 0 \/ WorkgroupSizeY pkt0 = 0 \/
     WorkgroupSizeZ pkt0 = 0 ->
     distributeWGToGPUs d queue cmd = Panic DivideByZero).
Proof.
  intros Hdev Hpkt.
  pose proof (index_lookup _ 0%nat _ Hpkt) as Hp0.
  change (Z.of_nat 0) with 0 in Hp0.
  assert (Hzero : forall cus, memberCUs d (UnifiedGPUIDs dev) cus ->
     Forall (fun c => 0 <= c) cus -> sumZ cus = 0 -> packet_ok pkt0 ->
     distributeWGToGPUs d queue cmd = Panic DivideByZero).
  { intros cus Hm Hpos Hsum Hok.
    destruct (totalWGCountOf_ok _ Hok) as [Htot _].
    unfold distributeWGToGPUs. rewrite Hdev. cbn.
    rewrite (sumCUCount_ok d _ cus 0) by (assumption || lia).
    rewrite Hsum. cbn. rewrite Hp0. cbn. rewrite Htot. reflexivity. }
  split; [exact Hzero|]. split.
  - intros Hnil Hok. apply (Hzero []); auto.
    rewrite Hnil. constructor.
  - intros total Hsum Hw.
    unfold distributeWGToGPUs. rewrite Hdev. cbn. rewrite Hsum. cbn.
    rewrite Hp0. cbn. unfold totalWGCountOf, numWG.
    destruct Hw as [E | [E | E]]; rewrite E; cbn.
    + reflexivity.
    + destruct (WorkgroupSizeX pkt0 =? 0); reflexivity.
    + destruct (WorkgroupSizeX pkt0 =? 0); [reflexivity|]. cbn.
      destruct (WorkgroupSizeY pkt0 =? 0); reflexivity.
Qed.

(** ** The requesting GPUs and the response to the MMU *)

Lemma findRequestingLoop_sorted (info : gmap Z (list Z)) len : forall start,
  StronglySorted Z.lt
    (omap (fun i => match info !! i with
                    | Some _ => Some (i - 1)
                    | None => None
                    end) (map Z.of_nat (seq start len))) /\
  Forall (fun r => Z.of_nat start - 1 <= r)
    (omap (fun i => match info !! i with
                    | Some _ => Some (i - 1)
                    | None => None
                    end) (map Z.of_nat (seq start len))).
Proof.
  induction len as [|len IH]; intros start; cbn.
  - split; constructor.
  - destruct (IH (S start)) as [Hs Hb].
    assert (Hb' : Forall (fun r => Z.of_nat start - 1 < r)
              (omap (fun i => match info !! i with
                              | Some _ => Some (i - 1)
                              | None => None
                              end) (map Z.of_nat (seq (S start) len)))).
    { eapply Forall_impl; [exact Hb|]. intros r Hr. cbn in Hr. lia. }
    destruct (info !! Z.of_nat start); cbn.
    + split; [constructor; assumption|].
      constructor; [lia|]. eapply Forall_impl; [exact Hb'|].
      intros r Hr. cbn in Hr. lia.
    + split; [exact Hs|]. eapply Forall_impl; [exact Hb'|].
      intros r Hr. cbn in Hr. lia.
Qed.

(** X8. The requesting GPUs of a migration are the keys of its map that
    name a registered GPU, shifted from 1-based to 0-based, in increasing
    order and without repetition; a key above the number of registered GPUs
    (or the key 0) is ignored.  The table built from them is the map itself,
    re-keyed and restricted to the registered GPUs. *)
Theorem requesting_GPUs_are_the_registered_keys (d : Driver)
    (info : gmap Z (list Z)) :
  Z.of_nat (length (GPUs d)) < 2 ^ 64 ->
  StronglySorted Z.lt (findRequestingGPUs d info) /\
  (forall r, r ∈ findRequestingGPUs d info <->
     0 <= r < Z.of_nat (length (GPUs d)) /\ is_Some (info !! (r + 1))) /\
  (forall r, pageVaddrsOf info (findRequestingGPUs d info) !! r =
     if decide (0 <= r < Z.of_nat (length (GPUs d)))
     then info !! (r + 1) else None).
Proof.
  intros Hn. split; [|split].
  - unfold findRequestingGPUs, gpuIDs. apply findRequestingLoop_sorted.
  - apply findRequestingGPUs_elem.
  - intros r. rewrite pageVaddrsOf_lookup.
    destruct (decide (r ∈ findRequestingGPUs d info)) as [Hin|Hnin].
    + apply findRequestingGPUs_elem in Hin as (Hr & vs & Hvs).
      rewrite decide_True by exact Hr.
      rewrite u64_id by lia. now rewrite Hvs.
    + destruct (decide (0 <= r < Z.of_nat (length (GPUs d)))) as [Hr|Hr];
        [|reflexivity].
      destruct (info !! (r + 1)) as [vs|] eqn:E; [|reflexivity].
      exfalso. apply Hnin. apply findRequestingGPUs_elem.
      split; [exact Hr|]. rewrite E. eauto.
Qed.

Lemma migrationWork_addresses groups :
  map snd (migrationWork groups) = concat (map snd groups).
Proof.
  unfold migrationWork. induction groups as [|[r vs] groups IH]; cbn;
    [reflexivity|].
  rewrite map_app, IH. f_equal.
  clear. induction vs as [|v vs IHv]; cbn; [reflexivity|now rewrite IHv].
Qed.

Lemma elem_of_concat {A} (x : A) (ls : list (list A)) :
  x ∈ concat ls <-> exists l, x ∈ l /\ l ∈ ls.
Proof.
  induction ls as [|l ls IH]; cbn.
  - split; [intros H; inversion H|intros (l & _ & H); inversion H].
  - rewrite elem_of_app, IH. split.
    + intros [H|(l' & H1 & H2)]; [exists l; split; [auto|left]|].
      exists l'. split; [auto|now right].
    + intros (l' & H1 & H2). apply elem_of_cons in H2 as [->|H2]; [auto|].
      right. eauto.
Qed.

(** X9. The response prepared for the MMU answers the migration request
    being handled: it is addressed to the sender of the request from the MMU
    port, carries the request and its [RespondToTop], and lists the
    v-addresses for which page copies were requested, each as often as it
    was migrated: the v-addresses of the keys of the request's map that name
    a registered GPU. *)
Theorem preparePageMigrationRspToMMU_lists_migrated (d : Driver) m :
  currentPageMigrationReq d = Some m ->
  Z.of_nat (length (GPUs d)) < 2 ^ 64 ->
  let info := GPUReqToVAddrMap m in
  let groups := rangeOrder (pageVaddrsOf info (findRequestingGPUs d info)) in
  exists rsp d',
    preparePageMigrationRspToMMU d = Ok (tt, d') /\
    toSendToMMU d' = Some rsp /\
    OriginalReq rsp = m /\ RspToTop rsp = RespondToTop m /\
    Dst (pmrsp_meta rsp) = Src (pmd_meta m) /\
    Src (pmrsp_meta rsp) = portName (mmuPort d) /\
    rsp_VAddr rsp ≡ₚ map snd (migrationWork groups) /\
    length (rsp_VAddr rsp) = totalVAddrs d m /\
    (forall v, v ∈ rsp_VAddr rsp <->
       exists r vs, 0 <= r < Z.of_nat (length (GPUs d)) /\
                    info !! (r + 1) = Some vs /\ v ∈ vs).
Proof.
  intros Hcur Hn info groups.
  rewrite (preparePageMigrationRspToMMU_run d m Hcur).
  eexists. eexists. split; [reflexivity|]. cbn.
  split; [reflexivity|]. unfold responseToMMU. cbn.
  fold info. fold groups.
  split; [reflexivity|]. split; [reflexivity|]. split; [reflexivity|].
  split; [reflexivity|].
  rewrite <- migrationWork_addresses.
  split; [reflexivity|]. split.
  - unfold totalVAddrs. fold info. fold groups. now rewrite length_map.
  - intros v. rewrite migrationWork_addresses. rewrite elem_of_concat.
    split.
    + intros (vs & Hv & Hvs). apply list_elem_of_fmap in Hvs
        as ([r vs'] & -> & Hg). cbn in Hv.
      apply (migration_groups d info r vs' Hn) in Hg as [Hr Hi].
      exists r, vs'. auto.
    + intros (r & vs & Hr & Hi & Hv). exists vs. split; [exact Hv|].
      apply list_elem_of_fmap. exists (r, vs). split; [reflexivity|].
      apply (migration_groups d info r vs Hn). auto.
Qed.

(** ** A driver with nothing to do *)

Lemma forProgress_none {A} (l : list A) (f : A -> M bool) (d : Driver) :
  (forall x, x ∈ l -> f x d = Ok (false, d)) ->
  forProgress l f false d = Ok (false, d).
Proof.
  induction l as [|x l IH]; intros H; cbn; [reflexivity|].
  rewrite (H x) by left. cbn. apply IH. intros y Hy. apply H. now right.
Qed.

Lemma parseFromMMU_nothing (d : Driver) :
  isCurrentlyHandlingMigrationReq d = true \/ incoming (mmuPort d) = [] ->
  parseFromMMU d = Ok (false, d).
Proof.
  intros H. unfold parseFromMMU, RetrieveIncoming. cbn.
  destruct (isCurrentlyHandlingMigrationReq d) eqn:Hf; [reflexivity|].
  destruct H as [H|H]; [discriminate|]. rewrite H. cbn.
  apply f_equal, f_equal. apply Driver_ext; cbn; try reflexivity.
  destruct (mmuPort d); cbn in *; subst; reflexivity.
Qed.

Lemma processNewCommand_nothing (d : Driver) :
  Forall (fun c => Forall (fun q => commands q = [] \/ IsRunning q = true)
                          (queues c)) (contexts d) ->
  processNewCommand d = Ok (false, d).
Proof.
  intros Hall. unfold processNewCommand. cbn.
  apply forProgress_none. intros ci Hci. apply elem_of_seq in Hci.
  destruct (lookup_lt_is_Some_2 (contexts d) ci ltac:(lia)) as [c Hc].
  unfold processNewCommandFromContext. cbn. rewrite Hc. cbn.
  apply forProgress_none. intros qi Hqi. apply elem_of_seq in Hqi.
  destruct (lookup_lt_is_Some_2 (queues c) qi ltac:(lia)) as [q Hq].
  rewrite (processNewCommandFromCmdQueue_idle ci qi d c q Hc Hq).
  pose proof (Forall_lookup_1 _ _ _ _ Hall Hc) as Hqs. cbn in Hqs.
  pose proof (Forall_lookup_1 _ _ _ _ Hqs Hq) as Hcase. cbn in Hcase.
  destruct (commands q); [reflexivity|].
  destruct Hcase as [? | ->]; [discriminate|reflexivity].
Qed.

(** X10. A driver with nothing to do stays as it is: with nothing to send
    to the GPUs, to the MMU or to a command processor, no message on the GPU
    port, none on the MMU port (or a migration in progress), every queue
    empty or running, and middlewares that make no progress, [Tick] returns
    false and changes nothing, so the engine stops scheduling the driver. *)
Theorem Tick_idle (d : Driver) :
  requestsToSend d = [] -> toSendToMMU d = None ->
  migrationReqToSendToCP d = [] -> incoming (gpuPort d) = [] ->
  (isCurrentlyHandlingMigrationReq d = true \/ incoming (mmuPort d) = []) ->
  Forall (fun c => Forall (fun q => commands q = [] \/ IsRunning q = true)
                          (queues c)) (contexts d) ->
  (forall mw, mw ∈ middlewares -> mw_Tick mw d = Ok (false, d)) ->
  Tick d = Ok (false, d).
Proof.
  intros H1 H2 H3 H4 H5 H6 H7. unfold Tick, bind.
  assert (E1 : sendToGPUs d = Ok (false, d))
    by (unfold sendToGPUs; now rewrite H1).
  assert (E2 : sendToMMU d = Ok (false, d))
    by (unfold sendToMMU; now rewrite H2).
  assert (E3 : sendMigrationReqToCP d = Ok (false, d))
    by (unfold sendMigrationReqToCP; now rewrite H3).
  assert (E5 : processReturnReq d = Ok (false, d))
    by (unfold processReturnReq, PeekIncoming; cbn; now rewrite H4).
  rewrite E1. cbn [orb]. rewrite E2. cbn [orb]. rewrite E3. cbn [orb].
  rewrite (forProgress_none middlewares mw_Tick d H7).
  rewrite E5. cbn [orb]. rewrite (processNewCommand_nothing d H6). cbn [orb].
  rewrite (parseFromMMU_nothing d H5). reflexivity.
Qed.

(** ** Queues of no-op commands *)

(** A queue that [processNewCommandFromCmdQueue] admits a command from. *)
Definition waiting (q : CommandQueue) : bool :=
  match commands q with
  | [] => false
  | _ :: _ => negb (IsRunning q)
  end.

Definition serveNoop (q : CommandQueue) : CommandQueue :=
  if waiting q then Dequeue q else q.

Definition serveNoops (c : Context) : Context :=
  setQueues (map serveNoop (queues c)) c.

(** The queue is running, or it is empty, or a no-op is at its head. *)
Definition noopAhead (q : CommandQueue) : Prop :=
  waiting q = true -> exists n, head (commands q) = Some (CNoop n).

Lemma set_contexts_same (d : Driver) : set_contexts (contexts d) d = d.
Proof. apply Driver_ext; reflexivity. Qed.

Lemma setQueues_same (c : Context) : setQueues (queues c) c = c.
Proof. destruct c; reflexivity. Qed.

Lemma list_insert_alter_same {A} (f : A -> A) (l : list A) i x :
  <[i := x]> (alter f i l) = <[i := x]> l.
Proof.
  revert i. induction l as [|y l IH]; intros [|i]; cbn; try reflexivity.
  f_equal. apply IH.
Qed.

Lemma list_insert_end {A} (pre : list A) x y l :
  <[length pre := y]> (pre ++ x :: l) = pre ++ y :: l.
Proof. induction pre as [|z pre IH]; cbn; [reflexivity|]. f_equal. exact IH. Qed.

Lemma list_alter_end {A} (f : A -> A) (pre : list A) x l :
  alter f (length pre) (pre ++ x :: l) = pre ++ f x :: l.
Proof. induction pre as [|z pre IH]; cbn; [reflexivity|]. f_equal. exact IH. Qed.

Lemma list_lookup_end {A} (pre : list A) x l :
  (pre ++ x :: l) !! length pre = Some x.
Proof. induction pre as [|z pre IH]; cbn; [reflexivity|]. exact IH. Qed.

Lemma serveQueues ci (todo : list CommandQueue) :
  forall pre acc (d : Driver) c,
    contexts d !! ci = Some c -> queues c = pre ++ todo ->
    Forall noopAhead todo ->
    exists d',
      forProgress (seq (length pre) (length todo))
        (processNewCommandFromCmdQueue ci) acc d
      = Ok (existsb waiting todo || acc, d') /\
      contexts d'
      = <[ci := setQueues (pre ++ map serveNoop todo) c]> (contexts d) /\
      d' = set_contexts (contexts d') d.
Proof.
  induction todo as [|q todo IH]; intros pre acc d c Hc Hq Hall.
  - exists d. cbn. split; [reflexivity|]. rewrite app_nil_r in *.
    rewrite <- Hq, setQueues_same, list_insert_id by exact Hc.
    split; [reflexivity|]. symmetry. apply set_contexts_same.
  - apply Forall_cons in Hall as [Hq0 Hall].
    assert (Hlook : queues c !! length pre = Some q)
      by (rewrite Hq; apply list_lookup_end).
    cbn [length seq forProgress]. unfold bind at 1.
    rewrite (processNewCommandFromCmdQueue_idle ci (length pre)
               d c q Hc Hlook).
    assert (Hlen : S (length pre) = length (pre ++ [q]))
      by (rewrite length_app; cbn; lia).
    destruct (waiting q) eqn:Hw.
    + destruct (Hq0 Hw) as [n Hn]. pose proof Hw as Hw'.
      unfold waiting in Hw'.
      destruct (commands q) as [|cmd rest] eqn:Hcmds; [discriminate|].
      cbn in Hn. injection Hn as ->.
      destruct (IsRunning q) eqn:Hr; [discriminate|].
      unfold processOneCommand, processNoopCommand. cbn.
      set (c1 := setQueues (alter Dequeue (length pre) (queues c)) c).
      set (d1 := set_contexts (alter _ ci (contexts d)) d).
      assert (Hc1 : contexts d1 !! ci = Some c1).
      { unfold d1. cbn. rewrite list_lookup_alter_eq, Hc. reflexivity. }
      assert (Hq1 : queues c1 = (pre ++ [Dequeue q]) ++ todo).
      { unfold c1. cbn. rewrite Hq, list_alter_end, <- app_assoc.
        reflexivity. }
      destruct (IH (pre ++ [Dequeue q]) true d1 c1 Hc1 Hq1 Hall)
        as (d' & Hrun & Hctx & Hd').
      exists d'. rewrite length_app in Hrun. cbn [length] in Hrun.
      rewrite Nat.add_1_r in Hrun. rewrite Hrun.
      split; [cbn [existsb]; rewrite Hw; cbn [orb];
              now rewrite orb_true_r|].
      split.
      * rewrite Hctx. unfold d1. cbn [contexts set_contexts].
        rewrite list_insert_alter_same. f_equal. unfold c1.
        cbn [map]. unfold serveNoop at 2. rewrite Hw, <- app_assoc.
        reflexivity.
      * rewrite Hd'. reflexivity.
    + assert (E : match commands q with
                  | [] => Ok (false, d)
                  | cmd :: _ =>
                      if IsRunning q then Ok (false, d)
                      else processOneCommand cmd ci (length pre) d
                  end = Ok (false, d)).
      { unfold waiting in Hw. destruct (commands q); [reflexivity|].
        destruct (IsRunning q); [reflexivity|discriminate]. }
      rewrite E. cbn [orb].
      assert (Hq1 : queues c = (pre ++ [q]) ++ todo)
        by (rewrite Hq, <- app_assoc; reflexivity).
      destruct (IH (pre ++ [q]) acc d c Hc Hq1 Hall)
        as (d' & Hrun & Hctx & Hd').
      exists d'. rewrite <- Hlen in Hrun. rewrite Hrun.
      split; [cbn; rewrite Hw; reflexivity|].
      split; [|exact Hd'].
      rewrite Hctx. f_equal. f_equal. cbn. unfold serveNoop at 2.
      rewrite Hw, <- app_assoc. reflexivity.
Qed.

Lemma processNewCommandFromContext_at ci (d : Driver) c :
  contexts d !! ci = Some c ->
  processNewCommandFromContext ci d
  = forProgress (seq 0 (length (queues c)))
      (processNewCommandFromCmdQueue ci) false d.
Proof.
  intros Hc. unfold processNewCommandFromContext, bind, getContext.
  rewrite Hc. reflexivity.
Qed.

Lemma serveContexts (todo : list Context) :
  forall pre acc (d : Driver),
    contexts d = pre ++ todo ->
    Forall (fun c => Forall noopAhead (queues c)) todo ->
    exists d',
      forProgress (seq (length pre) (length todo))
        processNewCommandFromContext acc d
      = Ok (existsb (fun c => existsb waiting (queues c)) todo || acc, d') /\
      contexts d' = pre ++ map serveNoops todo /\
      d' = set_contexts (contexts d') d.
Proof.
  induction todo as [|c todo IH]; intros pre acc d Hd Hall.
  - exists d. cbn. split; [reflexivity|]. split; [exact Hd|].
    symmetry. apply set_contexts_same.
  - apply Forall_cons in Hall as [Hc0 Hall].
    assert (Hc : contexts d !! length pre = Some c)
      by (rewrite Hd; apply list_lookup_end).
    cbn [length seq forProgress]. unfold bind at 1.
    rewrite (processNewCommandFromContext_at (length pre) d c Hc).
    destruct (serveQueues (length pre) (queues c) [] false d c Hc eq_refl Hc0)
      as (d1 & Hrun1 & Hctx1 & Hd1).
    cbn [length] in Hrun1. rewrite Hrun1.
    assert (Hd1' : contexts d1 = (pre ++ [serveNoops c]) ++ todo).
    { rewrite Hctx1, Hd, list_insert_end, <- app_assoc. reflexivity. }
    destruct (IH (pre ++ [serveNoops c])
                ((existsb waiting (queues c) || false) || acc)%bool d1
                Hd1' Hall) as (d' & Hrun & Hctx & Hd').
    exists d'. rewrite length_app in Hrun. cbn [length] in Hrun.
    rewrite Nat.add_1_r in Hrun. rewrite Hrun.
    split.
    + f_equal. f_equal. cbn [existsb].
      destruct (existsb waiting (queues c)), acc,
        (existsb (fun c0 => existsb waiting (queues c0)) todo); reflexivity.
    + split; [rewrite Hctx, <- app_assoc; reflexivity|].
      rewrite Hd', Hd1. reflexivity.
Qed.

(** ** A tick, sub-step by sub-step *)












(** X11. In a driver whose queues are running, empty or headed by a no-op,
    one [processNewCommand] removes the no-op at the head of every queue
    that is neither running nor empty, one command per queue and in every
    context, leaves each such queue not running, changes nothing else of the
    driver, and reports progress exactly when some queue was served. *)
Theorem processNewCommand_serves_every_queue (d : Driver) :
  Forall (fun c => Forall noopAhead (queues c)) (contexts d) ->
  exists d',
    processNewCommand d
    = Ok (existsb (fun c => existsb waiting (queues c)) (contexts d), d') /\
    contexts d' = map serveNoops (contexts d) /\
    d' = set_contexts (contexts d') d.
Proof.
  intros Hall. unfold processNewCommand. cbn.
  destruct (serveContexts (contexts d) [] false d eq_refl Hall)
    as (d' & Hrun & Hctx & Hd').
  exists d'. cbn [length] in Hrun. rewrite Hrun, orb_false_r. auto.
Qed.

(** ** A launch on one GPU *)

Lemma list_alter_other {A} (f : A -> A) (l : list A) i j :
  i <> j -> alter f i l !! j = l !! j.
Proof. intros H. now apply list_lookup_alter_ne. Qed.

Lemma processLaunchKernelCommand_run cmd ci qi (d : Driver) ctx q rest dst :
  contexts d !! ci = Some ctx -> queues ctx !! qi = Some q ->
  commands q = CLaunchKernel cmd :: rest ->
  - 2 ^ 63 < GPUID q < 2 ^ 63 -> 1 <= GPUID q ->
  GPUs d !! Z.to_nat (GPUID q - 1) = Some dst ->
  let req := MLaunchKernelReq
    {| lkr_meta := {| ID := nextMsgID d; Src := portName (gpuPort d);
                      Dst := dst |};
       lkr_PID := pid ctx; HsaCo := lk_CodeObject cmd;
       lkr_Packet := lk_Packet cmd; PacketAddress := lk_DPacket cmd;
       WGFilter := None |} in
  exists d' ctx',
    processLaunchKernelCommand cmd ci qi d = Ok (true, d') /\
    requestsToSend d' = requestsToSend d ++ [req] /\
    nextMsgID d' = S (nextMsgID d) /\
    contexts d' !! ci = Some ctx' /\
    pid ctx' = pid ctx /\ l2Dirty ctx' = true /\
    queues ctx' !! qi =
      Some {| IsRunning := true; GPUID := GPUID q;
              commands :=
                CLaunchKernel
                  {| lk_ID := lk_ID cmd; lk_CodeObject := lk_CodeObject cmd;
                     lk_Packet := lk_Packet cmd;
                     lk_DPacket := lk_DPacket cmd;
                     lk_Reqs := lk_Reqs cmd ++ [req] |} :: rest |} /\
    (forall j, j <> qi -> queues ctx' !! j = queues ctx !! j) /\
    (forall i, i <> ci -> contexts d' !! i = contexts d !! i).
Proof.
  intros Hc Hq Hcmds Hg Hpos Hdst req. eexists. eexists. split.
  { unfold processLaunchKernelCommand, getQueue, getContext. cbn.
    rewrite Hc. cbn. rewrite Hc. cbn. rewrite Hq. cbn.
    rewrite int_id by lia.
    rewrite (proj2 (index_Ok (GPUs d) (GPUID q - 1) dst))
      by (split; [lia|exact Hdst]).
    cbn. reflexivity. }
  cbn. split; [reflexivity|]. split; [reflexivity|].
  rewrite !list_lookup_alter_eq, Hc. cbn.
  split; [reflexivity|]. cbn. split; [reflexivity|]. split; [reflexivity|].
  split.
  - rewrite !list_lookup_alter_eq, Hq. cbn. unfold setHead, Peek. cbn.
    rewrite Hcmds. cbn. reflexivity.
  - split.
    + intros j Hj. now rewrite !list_alter_other by auto.
    + intros i Hi. now rewrite !list_alter_other by auto.
Qed.

(** X12. A [LaunchKernelCommand] at the head of queue [qi] of context [ci]:
    when the queue's GPU identifier [g] indexes a registered GPU, one
    [LaunchKernelReq] with a fresh identifier is addressed to [GPUs[g-1]]
    with the context's PID, the command's code object, packet and packet
    address and no workgroup filter; it is appended to [requestsToSend] and
    to the requests of the command, the queue is marked running, the context
    is marked L2-dirty, and no other queue or context changes.  Otherwise
    ([g] is 0 or above the number of GPUs) the launch is an index panic. *)
Theorem processLaunchKernelCommand_spec cmd ci qi (d : Driver) ctx q rest :
  contexts d !! ci = Some ctx -> queues ctx !! qi = Some q ->
  commands q = CLaunchKernel cmd :: rest ->
  - 2 ^ 63 < GPUID q < 2 ^ 63 ->
  (forall dst, GPUs d !! Z.to_nat (GPUID q - 1) = Some dst ->
     1 <= GPUID q ->
     let req := MLaunchKernelReq
       {| lkr_meta := {| ID := nextMsgID d; Src := portName (gpuPort d);
                         Dst := dst |};
          lkr_PID := pid ctx; HsaCo := lk_CodeObject cmd;
          lkr_Packet := lk_Packet cmd; PacketAddress := lk_DPacket cmd;
          WGFilter := None |} in
     exists d' ctx',
       processLaunchKernelCommand cmd ci qi d = Ok (true, d') /\
       requestsToSend d' = requestsToSend d ++ [req] /\
       nextMsgID d' = S (nextMsgID d) /\
       contexts d' !! ci = Some ctx' /\
       pid ctx' = pid ctx /\ l2Dirty ctx' = true /\
       queues ctx' !! qi =
         Some {| IsRunning := true; GPUID := GPUID q;
                 commands :=
                   CLaunchKernel
                     {| lk_ID := lk_ID cmd; lk_CodeObject := lk_CodeObject cmd;
                        lk_Packet := lk_Packet cmd;
                        lk_DPacket := lk_DPacket cmd;
                        lk_Reqs := lk_Reqs cmd ++ [req] |} :: rest |} /\
       (forall j, j <> qi -> queues ctx' !! j = queues ctx !! j) /\
       (forall i, i <> ci -> contexts d' !! i = contexts d !! i)) /\
  (GPUID q < 1 \/ Z.of_nat (length (GPUs d)) < GPUID q ->
   processLaunchKernelCommand cmd ci qi d = Panic IndexOutOfRange).
Proof.
  intros Hc Hq Hcmds Hg. split.
  - intros dst Hdst Hpos.
    exact (processLaunchKernelCommand_run cmd ci qi d ctx q rest dst
             Hc Hq Hcmds Hg Hpos Hdst).
  - intros Hout.
    unfold processLaunchKernelCommand, getQueue, getContext. cbn.
    rewrite Hc. cbn. rewrite Hc. cbn. rewrite Hq. cbn.
    rewrite int_id by lia.
    assert (E : index (GPUs d) (GPUID q - 1) = Panic IndexOutOfRange).
    { unfold index. destruct (Z.ltb_spec (GPUID q - 1) 0); [reflexivity|].
      rewrite lookup_ge_None_2 by lia. reflexivity. }
    rewrite E. reflexivity.
Qed.

(** ** From a launch to its response *)

Lemma findReqInQueue_None_intro reqID q :
  (forall cmd r, Peek q = Some cmd -> r ∈ GetReqs cmd ->
                 ID (Meta r) <> reqID) ->
  findReqInQueue reqID q = None.
Proof.
  intros H. unfold findReqInQueue. destruct (Peek q) as [cmd|]; [|reflexivity].
  destruct (List.find _ _) as [r|] eqn:E; [|reflexivity].
  apply find_split in E as (l1 & l2 & E & Hr & _).
  apply Nat.eqb_eq in Hr. exfalso. apply (H cmd r eq_refl); [|exact Hr].
  rewrite E. apply elem_of_app. right. left.
Qed.

Lemma findReqInQueues_at reqID qs : forall qi0 qi q r cmd,
  qs !! qi = Some q ->
  (forall j qq, (j < qi)%nat -> qs !! j = Some qq ->
                findReqInQueue reqID qq = None) ->
  findReqInQueue reqID q = Some (r, cmd) ->
  findReqInQueues reqID qi0 qs = Some (r, cmd, (qi0 + qi)%nat).
Proof.
  induction qs as [|x qs IH]; intros qi0 qi q r cmd Hq Hbefore Hf;
    [discriminate|].
  destruct qi as [|qi]; cbn in Hq |- *.
  - inversion Hq; subst x. rewrite Hf. now rewrite Nat.add_0_r.
  - rewrite (Hbefore 0%nat x) by (lia || reflexivity).
    rewrite (IH (S qi0) qi q r cmd Hq); [f_equal; f_equal; lia| |exact Hf].
    intros j qq Hj Hqq. apply (Hbefore (S j) qq); [lia|exact Hqq].
Qed.

Lemma findReqInQueues_none reqID qs : forall qi0,
  (forall q, q ∈ qs -> findReqInQueue reqID q = None) ->
  findReqInQueues reqID qi0 qs = None.
Proof.
  induction qs as [|x qs IH]; intros qi0 H; cbn; [reflexivity|].
  rewrite (H x) by left. apply IH. intros q Hq. apply H. now right.
Qed.

Lemma findReqInContexts_at reqID cs : forall ci0 ci ctx r cmd qi,
  cs !! ci = Some ctx ->
  (forall i c, (i < ci)%nat -> cs !! i = Some c ->
               findReqInQueues reqID 0 (queues c) = None) ->
  findReqInQueues reqID 0 (queues ctx) = Some (r, cmd, qi) ->
  findReqInContexts reqID ci0 cs = Some (r, cmd, (ci0 + ci)%nat, qi).
Proof.
  induction cs as [|x cs IH]; intros ci0 ci ctx r cmd qi Hc Hbefore Hf;
    [discriminate|].
  destruct ci as [|ci]; cbn in Hc |- *.
  - inversion Hc; subst x. rewrite Hf. now rewrite Nat.add_0_r.
  - rewrite (Hbefore 0%nat x) by (lia || reflexivity).
    rewrite (IH (S ci0) ci ctx r cmd qi Hc);
      [do 3 f_equal; lia| |exact Hf].
    intros i c Hi Hci. apply (Hbefore (S i) c); [lia|exact Hci].
Qed.

Lemma find_last {A} (P : A -> bool) l x :
  Forall (fun y => P y = false) l -> P x = true ->
  List.find P (l ++ [x]) = Some x.
Proof.
  induction 1 as [|y l Hy _ IH]; intros Hx; cbn.
  - now rewrite Hx.
  - rewrite Hy. now apply IH.
Qed.

(** X13. What a launch records is what its response looks up: after a
    [LaunchKernelCommand] has been started, [findCommandByReqID] with the
    identifier of the request just sent returns that request, the command
    (now holding the request) and the queue it was started on, provided the
    identifier was not already in use by a request of a head command. *)
Theorem launched_request_is_found cmd ci qi (d : Driver) ctx q rest dst d' :
  contexts d !! ci = Some ctx -> queues ctx !! qi = Some q ->
  commands q = CLaunchKernel cmd :: rest ->
  - 2 ^ 63 < GPUID q < 2 ^ 63 -> 1 <= GPUID q ->
  GPUs d !! Z.to_nat (GPUID q - 1) = Some dst ->
  no_head_request d (nextMsgID d) ->
  processLaunchKernelCommand cmd ci qi d = Ok (true, d') ->
  exists req cmd',
    findCommandByReqID d' (nextMsgID d)
    = Ok (MLaunchKernelReq req, CLaunchKernel cmd', ci, qi) /\
    MLaunchKernelReq req ∈ requestsToSend d' /\
    ID (lkr_meta req) = nextMsgID d /\ Dst (lkr_meta req) = dst /\
    lk_Reqs cmd' = lk_Reqs cmd ++ [MLaunchKernelReq req].
Proof.
  intros Hc Hq Hcmds Hg Hpos Hdst Hfresh Hrun.
  destruct (processLaunchKernelCommand_run cmd ci qi d ctx q rest dst
              Hc Hq Hcmds Hg Hpos Hdst)
    as (d1 & ctx' & Hrun1 & Hreqs & _ & Hc' & _ & _ & Hq' & Hqs & Hcs).
  rewrite Hrun in Hrun1. inversion Hrun1; subst d1; clear Hrun1.
  eexists. eexists. split; [|split; [|split; [|split]]].
  - unfold findCommandByReqID.
    erewrite (findReqInContexts_at (nextMsgID d) (contexts d') 0 ci ctx'
                _ _ qi Hc'); [reflexivity| |].
    + intros i c Hi Hci. rewrite Hcs in Hci by lia.
      apply findReqInQueues_none. intros qq Hqq.
      apply findReqInQueue_None_intro. intros c0 r Hp Hr.
      eapply Hfresh; eauto. eapply list_elem_of_lookup_2; eauto.
    + erewrite (findReqInQueues_at (nextMsgID d) (queues ctx') 0 qi _ _ _
                  Hq'); [reflexivity| |].
      * intros j qq Hj Hqq. rewrite Hqs in Hqq by lia.
        apply findReqInQueue_None_intro. intros c0 r Hp Hr.
        eapply (Hfresh ctx qq); eauto; eapply list_elem_of_lookup_2; eauto.
      * unfold findReqInQueue, Peek. cbn.
        rewrite find_last; [reflexivity| |cbn; apply Nat.eqb_refl].
        apply Forall_forall. intros r Hr. apply Nat.eqb_neq.
        eapply (Hfresh ctx q (CLaunchKernel cmd)); eauto.
        -- eapply list_elem_of_lookup_2; eauto.
        -- eapply list_elem_of_lookup_2; eauto.
        -- unfold Peek. now rewrite Hcmds.
  - rewrite Hreqs. apply elem_of_app. right. left.
  - reflexivity.
  - reflexivity.
  - reflexivity.
Qed.

(** ** A phase with nothing to wait for *)

(** A migration is being handled and no acknowledgement is awaited. *)
Definition stalled (s : Sys) : Prop :=
  isCurrentlyHandlingMigrationReq (drv s) = true /\
  forall ph, ctr ph (drv s) = 0.

Lemma same_stalled (s s' : Sys) :
  (forall ph, ctr ph (drv s') = ctr ph (drv s)) ->
  isCurrentlyHandlingMigrationReq (drv s')
  = isCurrentlyHandlingMigrationReq (drv s) ->
  stalled s -> stalled s'.
Proof.
  intros Hc Hf [H1 H2]. split; [congruence|]. intros ph. now rewrite Hc.
Qed.

Lemma proto_frame_stalled d d' net :
  proto_frame d d' ->
  stalled {| drv := d; atGPUs := net |} ->
  stalled {| drv := d'; atGPUs := net |}.
Proof.
  intros (A1 & A2 & A3 & A4 & A5 & A6 & A7 & A8 & A9 & A10 & A11 & A12).
  apply same_stalled; cbn; auto.
Qed.

Lemma processReturnReq_stalled d net b d' :
  Inv {| drv := d; atGPUs := net |} ->
  stalled {| drv := d; atGPUs := net |} ->
  processReturnReq d = Ok (b, d') ->
  stalled {| drv := d'; atGPUs := net |}.
Proof.
  intros HI Hst Hrun. pose proof Hst as [Hf Hz]. cbn in Hf, Hz.
  unfold processReturnReq, PeekIncoming in Hrun. cbn in Hrun.
  destruct (incoming (gpuPort d)) as [|m rest] eqn:Hin; cbn in Hrun.
  { inversion Hrun; subst. exact Hst. }
  assert (Hno : forall ph, inPhase ph m = false).
  { intros ph. pose proof (inv_count _ HI ph) as Hc.
    unfold outstanding in Hc. cbn [drv atGPUs] in Hc.
    rewrite (Hz ph), Hin in Hc. cbn in Hc.
    destruct (inPhase ph m); [lia|reflexivity]. }
  fold (retrieved d) in Hrun.
  destruct m; cbn in Hrun;
    try solve [inversion Hrun; subst; exact Hst];
    try solve [exfalso;
               first [ pose proof (Hno DrainRDMA) as Hx
                     | pose proof (Hno Shootdown) as Hx ];
               discriminate Hx];
    try solve [exfalso; pose proof (Hno Shootdown) as Hx; discriminate Hx];
    try solve [exfalso; pose proof (Hno Migrate) as Hx; discriminate Hx];
    try solve [exfalso; pose proof (Hno GPURestart) as Hx; discriminate Hx];
    try solve [exfalso; pose proof (Hno RDMARestart) as Hx; discriminate Hx].
  apply (proto_frame_stalled d); [|exact Hst].
  eapply proto_frame_trans;
    [eapply proto_frame_retrieved; eauto; reflexivity|].
  apply proto_frame_own. eapply processLaunchKernelReturn_own; eauto.
Qed.

Lemma step_stalled s s' :
  middlewares_respect_protocol -> Inv s -> stalled s -> step s s' ->
  stalled s'.
Proof.
  intros Hmw HI Hst Hstep. destruct Hstep.
  - eapply same_stalled; [| |exact Hst]; cbn; eapply sendToGPUs_same; eauto.
  - eapply same_stalled; [| |exact Hst]; cbn; eapply sendToMMU_same; eauto.
  - eapply same_stalled; [| |exact Hst]; cbn;
      eapply sendMigrationReqToCP_same; eauto.
  - apply (proto_frame_stalled d); [|exact Hst].
    match goal with
    | H1 : _ ∈ middlewares, H2 : mw_Tick _ _ = _ |- _ =>
        exact (proj1 (Hmw _ H1) _ _ _ H2)
    end.
  - eapply processReturnReq_stalled; eauto.
  - apply (proto_frame_stalled d); [|exact Hst].
    eapply (processNewCommand_R proto_frame); eauto using proto_frame_refl,
      proto_frame_trans, proto_frame_own.
  - destruct Hst as [Hf Hz]. cbn in Hf.
    match goal with
    | H : parseFromMMU _ = _ |- _ =>
        unfold parseFromMMU in H; cbn in H; rewrite Hf in H;
        inversion H; subst
    end.
    split; assumption.
  - eapply same_stalled; [| |exact Hst]; cbn; auto; intros []; reflexivity.
  - eapply same_stalled; [| |exact Hst]; cbn; auto; intros []; reflexivity.
  - eapply same_stalled; [| |exact Hst]; cbn; auto; intros []; reflexivity.
  - eapply same_stalled; [| |exact Hst]; cbn; auto; intros []; reflexivity.
  - eapply same_stalled; [| |exact Hst]; cbn; auto; intros []; reflexivity.
  - eapply same_stalled; [| |exact Hst]; cbn; auto; intros []; reflexivity.
Qed.

Lemma steps_stalled s s' :
  middlewares_respect_protocol -> reachable s -> stalled s ->
  rtc step s s' -> reachable s' /\ stalled s'.
Proof.
  intros Hmw Hr Hst Hsteps. induction Hsteps as [s|s s1 s2 Hstep _ IH].
  - auto.
  - apply IH.
    + eapply reachable_step; eauto.
    + eapply step_stalled; eauto. now apply reachable_Inv.
Qed.

(** X14. Once a migration is being handled while every acknowledgement
    counter is zero, it is never completed: whatever the driver, the GPUs,
    the MMU and the host do afterwards, the flag stays set, the counters stay
    at zero, no phase is entered, and [parseFromMMU] takes no further request
    from the MMU port. *)
Theorem stalled_migration_never_completes s s' :
  middlewares_respect_protocol -> reachable s -> stalled s ->
  rtc step s s' ->
  isCurrentlyHandlingMigrationReq (drv s') = true /\
  (forall ph, ctr ph (drv s') = 0) /\
  (forall ph, outstanding ph s' = 0%nat) /\
  parseFromMMU (drv s') = Ok (false, drv s').
Proof.
  intros Hmw Hr Hst Hsteps.
  destruct (steps_stalled s s' Hmw Hr Hst Hsteps) as [Hr' [Hf Hz]].
  split; [exact Hf|]. split; [exact Hz|]. split.
  - intros ph. pose proof (inv_count _ (reachable_Inv s' Hmw Hr') ph) as Hc.
    rewrite (Hz ph) in Hc. lia.
  - unfold parseFromMMU. cbn. now rewrite Hf.
Qed.

(** X15. A phase with an empty fan-out stalls the migration.  When the last
    RDMA-drain acknowledgement of a request without accessing GPUs is
    handled, no shootdown is sent and [numShootDownACK] is zero, so the
    handler of the shootdown acknowledgements, which would start the page
    copies, never runs: the driver is left handling the migration with every
    counter at zero. *)
Theorem migration_without_accessing_GPUs_stalls s m meta rest b d' :
  middlewares_respect_protocol -> reachable s ->
  currentPageMigrationReq (drv s) = Some m -> CurrAccessingGPUs m = [] ->
  incoming (gpuPort (drv s)) = MRDMADrainRspToDriver meta :: rest ->
  numRDMADrainACK (drv s) = 1 ->
  processReturnReq (drv s) = Ok (b, d') ->
  b = true /\ stalled {| drv := d'; atGPUs := atGPUs s |} /\
  requestsToSend d' = requestsToSend (drv s) /\
  reachable {| drv := d'; atGPUs := atGPUs s |}.
Proof.
  intros Hmw Hr Hcur Hacc Hin Hone Hrun.
  pose proof (reachable_Inv s Hmw Hr) as HI. destruct s as [d net].
  cbn [drv atGPUs] in *.
  assert (Hreach : reachable {| drv := d'; atGPUs := net |})
    by (eapply reachable_step; [exact Hr|]; eapply step_processReturnReq;
        eauto).
  destruct (handler_start d net _ rest DrainRDMA HI Hin eq_refl)
    as (Hc & Hu & Hz & mreq & Hcur' & Hflag & Hwf).
  cbn [ctr] in Hc, Hu. zeros Hz.
  unfold processReturnReq, PeekIncoming in Hrun. cbn in Hrun.
  rewrite Hin in Hrun. cbn in Hrun.
  unfold processRDMADrainRsp in Hrun. cbn in Hrun.
  rewrite Hu, Hone in Hrun. change (1 - 1) with 0 in Hrun.
  cbn in Hrun. unfold bind in Hrun.
  match type of Hrun with
  | context [sendShootDownReqs ?s0] =>
      rewrite (sendShootDownReqs_run s0 m Hcur) in Hrun
  end.
  cbn in Hrun. rewrite Hacc in Hrun. cbn in Hrun.
  inversion Hrun; subst b d'; clear Hrun.
  split; [reflexivity|]. split; [|split; [|exact Hreach]].
  - split; [exact Hflag|]. intros []; cbn; auto.
  - cbn. now rewrite app_nil_r.
Qed.

(** ** Registering a GPU *)

Definition set_GPUs (v : list Port) (d : Driver) : Driver :=
  {| GPUs := v;
     devices := devices d;
     memAllocator := memAllocator d;
     pageTable := pageTable d;
     requestsToSend := requestsToSend d;
     contexts := contexts d;
     mmuPort := mmuPort d;
     gpuPort := gpuPort d;
     currentPageMigrationReq := currentPageMigrationReq d;
     toSendToMMU := toSendToMMU d;
     migrationReqToSendToCP := migrationReqToSendToCP d;
     isCurrentlyHandlingMigrationReq := isCurrentlyHandlingMigrationReq d;
     numRDMADrainACK := numRDMADrainACK d;
     numRDMARestartACK := numRDMARestartACK d;
     numShootDownACK := numShootDownACK d;
     numRestartACK := numRestartACK d;
     numPagesMigratingACK := numPagesMigratingACK d;
     isCurrentlyMigratingOnePage := isCurrentlyMigratingOnePage d;
     RemotePMCPorts := RemotePMCPorts d;
     nextMsgID := nextMsgID d |}.

Definition set_devices (v : list Device) (d : Driver) : Driver :=
  {| GPUs := GPUs d;
     devices := v;
     memAllocator := memAllocator d;
     pageTable := pageTable d;
     requestsToSend := requestsToSend d;
     contexts := contexts d;
     mmuPort := mmuPort d;
     gpuPort := gpuPort d;
     currentPageMigrationReq := currentPageMigrationReq d;
     toSendToMMU := toSendToMMU d;
     migrationReqToSendToCP := migrationReqToSendToCP d;
     isCurrentlyHandlingMigrationReq := isCurrentlyHandlingMigrationReq d;
     numRDMADrainACK := numRDMADrainACK d;
     numRDMARestartACK := numRDMARestartACK d;
     numShootDownACK := numShootDownACK d;
     numRestartACK := numRestartACK d;
     numPagesMigratingACK := numPagesMigratingACK d;
     isCurrentlyMigratingOnePage := isCurrentlyMigratingOnePage d;
     RemotePMCPorts := RemotePMCPorts d;
     nextMsgID := nextMsgID d |}.

(** [memAllocator.RegisterDevice], of [amd/driver/internal]. *)
Variable RegisterDevice : Device -> MemAlloc -> MemAlloc.

(** [RegisterGPU]: the device gets the new number of GPUs as its ID.  (The
    type and the memory state of the device are not read by the driver.) *)
Definition RegisterGPU (commandProcessorPort : Port) (cuCount dramSize : Z)
  : M unit :=
  _ <- modify (fun d => set_GPUs (GPUs d ++ [commandProcessorPort]) d) ;>
  d <- get ;>
  let gpuDevice :=
    {| dev_ID := Z.of_nat (length (GPUs d)); UnifiedGPUIDs := [];
       CUCount := cuCount; DRAMSize := dramSize |} in
  _ <- modify (fun d =>
         set_memAllocator (RegisterDevice gpuDevice (memAllocator d)) d) ;>
  modify (fun d => set_devices (devices d ++ [gpuDevice]) d).

(** The device table is indexed by device ID, the CPU being device 0, and a
    GPU device [i] is behind the port [GPUs[i-1]]. *)
Definition devices_by_ID (d : Driver) : Prop :=
  length (devices d) = S (length (GPUs d)) /\
  forall i dev, devices d !! i = Some dev -> dev_ID dev = Z.of_nat i.

(** X16. [RegisterGPU] keeps the device table indexed by device ID: the
    port is appended to [GPUs], the number of GPUs grows by one, and the new
    device, with the CU count and the memory size given, has that number as
    its ID and sits at that index of [devices], so that a queue bound to it
    launches on the port just registered; the GPUs and devices registered
    before keep their places. *)
Theorem RegisterGPU_keeps_devices_by_ID port cu dram (d : Driver) :
  devices_by_ID d ->
  Z.of_nat (length (GPUs d)) < 2 ^ 63 - 1 ->
  exists d' dev,
    RegisterGPU port cu dram d = Ok (tt, d') /\
    devices_by_ID d' /\
    GetNumGPUs d' = GetNumGPUs d + 1 /\
    dev_ID dev = GetNumGPUs d' /\ CUCount dev = cu /\ DRAMSize dev = dram /\
    index (devices d') (dev_ID dev) = Ok dev /\
    index (GPUs d') (int (dev_ID dev - 1)) = Ok port /\
    (forall i, (i < length (GPUs d))%nat -> GPUs d' !! i = GPUs d !! i) /\
    (forall i, (i < length (devices d))%nat ->
       devices d' !! i = devices d !! i) /\
    memAllocator d' = RegisterDevice dev (memAllocator d).
Proof.
  intros [Hlen Hid] Hn.
  eexists.
  exists {| dev_ID := Z.of_nat (length (GPUs d ++ [port]));
            UnifiedGPUIDs := []; CUCount := cu; DRAMSize := dram |}.
  split; [unfold RegisterGPU; cbn; reflexivity|]. cbn.
  rewrite ?length_app. cbn [length].
  split; [|split; [|split; [|split; [|split; [|split; [|split;
    [|split; [|split]]]]]]]].
  - unfold devices_by_ID. cbn. split; [rewrite !length_app; cbn; lia|].
    intros i dev Hi. apply lookup_app_Some in Hi as [Hi|[Hge Hi]].
    + now apply Hid.
    + destruct (i - length (devices d))%nat as [|k] eqn:E; [|discriminate].
      cbn in Hi. inversion Hi; subst dev. cbn. lia.
  - unfold GetNumGPUs. cbn. rewrite length_app. cbn. lia.
  - unfold GetNumGPUs. cbn. rewrite length_app. cbn. lia.
  - reflexivity.
  - reflexivity.
  - apply index_Ok. split; [lia|].
    rewrite Nat2Z.id.
    replace (length (GPUs d) + 1)%nat with (length (devices d) + 0)%nat
      by lia.
    rewrite lookup_app_r by lia.
    now replace (length (devices d) + 0 - length (devices d))%nat
      with 0%nat by lia.
  - rewrite int_id by lia. apply index_Ok. split; [lia|].
    replace (Z.to_nat (Z.of_nat (length (GPUs d) + 1) - 1))
      with (length (GPUs d) + 0)%nat by lia.
    rewrite lookup_app_r by lia.
    now replace (length (GPUs d) + 0 - length (GPUs d))%nat
      with 0%nat by lia.
  - intros i Hi. now apply lookup_app_l.
  - intros i Hi. now apply lookup_app_l.
  - reflexivity.
Qed.

End DriverModel.

(** * A concrete driver

    Two GPUs behind a unified device, one process with one queue, one page,
    an allocator that places a page by device and address, and the keys of a
    map visited in the order of [map_to_list]. *)

Definition exAllocate (p : PID) (dev v : Z) (unified : bool) (a : unit)
    (pt : gmap (Z * Z) Page) : Page * unit * gmap (Z * Z) Page :=
  ({| page_PID := p; PAddr := 65536 * dev + v; VAddr := v; PageSize := 4096;
      DeviceID := dev; Unified := unified; IsMigrating := false;
      IsPinned := false |}, a, pt).

Definition exOrder (m : gmap Z (list Z)) : list (Z * list Z) := map_to_list m.

Lemma exOrder_perm (m : gmap Z (list Z)) : exOrder m ≡ₚ map_to_list m.
Proof. reflexivity. Qed.

Definition exPort (name : Port) : PortState :=
  {| portName := name; incoming := []; outgoing := []; outCapacity := 8%nat |}.

Definition exPacket : HsaKernelDispatchPacket :=
  {| WorkgroupSizeX := 64; WorkgroupSizeY := 1; WorkgroupSizeZ := 1;
     GridSizeX := 640; GridSizeY := 3; GridSizeZ := 1 |}.

Definition exCommand : LaunchUnifiedMultiGPUKernelCommand :=
  {| lu_ID := 1%nat; lu_CodeObject := 5%nat; PacketArray := [exPacket; exPacket];
     DPacketArray := [256; 512]; lu_Reqs := [] |}.

Definition exQueue : CommandQueue :=
  {| IsRunning := false; GPUID := 3; commands := [CLaunchUnified exCommand] |}.

Definition exContext : Context :=
  {| pid := 1; queues := [exQueue]; l2Dirty := false; buffers := [] |}.

Definition exDevices : list Device :=
  [ {| dev_ID := 0; UnifiedGPUIDs := []; CUCount := 0; DRAMSize := 0 |};
    {| dev_ID := 1; UnifiedGPUIDs := []; CUCount := 4; DRAMSize := 4096 |};
    {| dev_ID := 2; UnifiedGPUIDs := []; CUCount := 3; DRAMSize := 4096 |};
    {| dev_ID := 3; UnifiedGPUIDs := [1; 2]; CUCount := 0; DRAMSize := 0 |} ].

Definition exPage : Page :=
  {| page_PID := 1; PAddr := 8192; VAddr := 4096; PageSize := 4096;
     DeviceID := 1; Unified := false; IsMigrating := false;
     IsPinned := false |}.

Definition exDriver : @Driver unit :=
  {| GPUs := [10; 11]%nat; devices := exDevices; memAllocator := tt;
     pageTable := {[ (1, 4096) := exPage ]};
     requestsToSend := []; contexts := [exContext];
     mmuPort := exPort 1%nat; gpuPort := exPort 2%nat;
     currentPageMigrationReq := None; toSendToMMU := None;
     migrationReqToSendToCP := [];
     isCurrentlyHandlingMigrationReq := false;
     numRDMADrainACK := 0; numRDMARestartACK := 0; numShootDownACK := 0;
     numRestartACK := 0; numPagesMigratingACK := 0;
     isCurrentlyMigratingOnePage := false;
     RemotePMCPorts := [20; 21]%nat; nextMsgID := 0%nat |}.

Definition exRequest : PageMigrationReqToDriver :=
  {| pmd_meta := {| ID := 100%nat; Src := 30%nat; Dst := 1%nat |};
     GPUReqToVAddrMap := {[ 2 := [4096] ]};
     CurrAccessingGPUs := [1]; pmd_PID := 1; CurrPageHostGPU := 1;
     pmd_PageSize := 4096; RespondToTop := true |}.

Definition exMigrating : @Driver unit :=
  set_numShootDownACK 1
    (set_isCurrentlyHandlingMigrationReq true
       (set_currentPageMigrationReq (Some exRequest) exDriver)).


Definition exMeta (n : nat) (src : Port) : MsgMeta :=
  {| ID := n; Src := src; Dst := 2%nat |}.

Definition exWithRequest : @Driver unit :=
  set_mmuPort {| portName := 1%nat;
                 incoming := [MPageMigrationReqToDriver exRequest];
                 outgoing := []; outCapacity := 8%nat |} exDriver.



Definition runOr {A} (dflt : A) (r : result A) : A :=
  match r with
  | Ok a => a
  | Panic _ => dflt
  end.




Lemma findContext_never_fatal_witness :
  currentPageMigrationReq exMigrating = Some exRequest /\
  findContext exMigrating 7 <> Panic ProcessDoesNotExist /\
  exists c, findContext exMigrating 7 = Ok c.
Proof.
  split; [reflexivity|].
  destruct (findContext_never_fatal exMigrating 7 exRequest eq_refl)
    as (H & c & Hc & _).
  split; [exact H|]. exists c. exact Hc.
Defined.

Lemma exAllocate_places : allocator_places exAllocate.
Proof.
  intros p dev v u a pt np a' pt' H. inversion H; subst. cbn. auto.
Qed.

Lemma migrate_phase_witness :
  currentPageMigrationReq exMigrating = Some exRequest /\
  u64 (numShootDownACK exMigrating - 1) = 0 /\
  Z.of_nat (length (GPUs exMigrating)) < 2 ^ 64 /\
  exists d' reqs,
    processShootdownCompleteRsp exAllocate exOrder exMigrating
    = Ok (true, d') /\
    migrationReqToSendToCP d' = migrationReqToSendToCP exMigrating ++ reqs /\
    length reqs = 1%nat /\
    exists pg, pt_Find (pageTable d') 1 4096 = Some pg /\
               DeviceID pg = 2 /\ IsMigrating pg = true.
Proof.
  assert (H1 : currentPageMigrationReq exMigrating = Some exRequest)
    by reflexivity.
  assert (H2 : u64 (numShootDownACK exMigrating - 1) = 0) by reflexivity.
  assert (H3 : Z.of_nat (length (GPUs exMigrating)) < 2 ^ 64) by reflexivity.
  split; [exact H1|]. split; [exact H2|]. split; [exact H3|].
  destruct (migrate_phase exAllocate exOrder exOrder_perm exMigrating
              exRequest H1 H2 H3) as (_ & _ & Hrun).
  set (d' := snd (runOr (false, exDriver)
                    (processShootdownCompleteRsp exAllocate exOrder
                       exMigrating))).
  assert (E : processShootdownCompleteRsp exAllocate exOrder exMigrating
              = Ok (true, d')) by (vm_compute; reflexivity).
  destruct (proj1 (Hrun true d') E)
    as (_ & pmc & ctx & reqs & _ & Hc & _ & _ & Hreqs & Hall & Hpt).
  assert (Hctx : pid ctx = 1) by (vm_compute in Hc; inversion Hc; reflexivity).
  destruct (Hpt exAllocate_places) as [Hp _].
  destruct (Hp 1 4096) as (r' & pg & req & Hin & _ & Hf & _ & _ & Hd & Hm & _).
  { vm_compute. left. }
  exists d', reqs. split; [exact E|]. split; [exact Hreqs|].
  split; [apply Forall2_length in Hall; rewrite <- Hall; vm_compute;
          reflexivity|].
  exists pg. rewrite Hctx in Hf. split; [exact Hf|]. split; [|exact Hm].
  rewrite Hd. vm_compute in Hin. apply list_elem_of_singleton in Hin.
  inversion Hin. reflexivity.
Defined.

Definition exBlocked : @Driver unit :=
  deliverToGPUPort
    [MOther 0 (exMeta 60%nat 10%nat); MRDMADrainRspToDriver (exMeta 61%nat 10%nat)]
    exDriver.

Lemma unrecognized_gpu_message_blocks_witness :
  incoming (gpuPort exBlocked)
  = MOther 0 (exMeta 60%nat 10%nat)
    :: [MRDMADrainRspToDriver (exMeta 61%nat 10%nat)] /\
  recognized (MOther 0 (exMeta 60%nat 10%nat)) = false /\
  processReturnReq exAllocate exOrder exBlocked = Ok (false, exBlocked).
Proof.
  split; [reflexivity|]. split; [reflexivity|].
  apply (unrecognized_gpu_message_blocks [] exAllocate exOrder exBlocked
           (MOther 0 (exMeta 60%nat 10%nat))
           [MRDMADrainRspToDriver (exMeta 61%nat 10%nat)]
           eq_refl eq_refl).
Defined.

(** ** A migration, step by step *)

Definition exStep := @step unit [] exAllocate exOrder.
Definition exReachable := @reachable unit [] exAllocate exOrder.

Definition viaTick (f : @M unit bool) (s : @Sys unit) : @Sys unit :=
  {| drv := snd (runOr (false, drv s) (f (drv s))); atGPUs := atGPUs s |}.

Definition viaDeliver (s : @Sys unit) : @Sys unit :=
  match outgoing (gpuPort (drv s)) with
  | m :: out =>
      {| drv := set_gpuPort (setOutgoing out (gpuPort (drv s))) (drv s);
         atGPUs := atGPUs s ++ [m] |}
  | [] => s
  end.

Definition viaRespond (r : Msg) (s : @Sys unit) : @Sys unit :=
  {| drv := deliverToGPUPort [r] (drv s); atGPUs := tail (atGPUs s) |}.

Definition exProcessReturnReq := processReturnReq exAllocate exOrder.

Definition exS0 : @Sys unit := {| drv := exDriver; atGPUs := [] |}.
Definition exS1 : @Sys unit := {| drv := exWithRequest; atGPUs := [] |}.
Definition exS2 : @Sys unit := Eval vm_compute in viaTick parseFromMMU exS1.
Definition exS3 : @Sys unit := Eval vm_compute in viaTick sendToGPUs exS2.
Definition exS4 : @Sys unit := Eval vm_compute in viaDeliver exS3.
Definition exS5 : @Sys unit :=
  Eval vm_compute in viaRespond (MRDMADrainRspToDriver (exMeta 50%nat 10%nat)) exS4.
Definition exS6 : @Sys unit := Eval vm_compute in viaTick exProcessReturnReq exS5.
Definition exS7 : @Sys unit := Eval vm_compute in viaTick sendToGPUs exS6.
Definition exS8 : @Sys unit := Eval vm_compute in viaDeliver exS7.
Definition exS9 : @Sys unit :=
  Eval vm_compute in viaRespond (MRDMADrainRspToDriver (exMeta 51%nat 11%nat)) exS8.
Definition exS10 : @Sys unit := Eval vm_compute in viaTick exProcessReturnReq exS9.
Definition exS11 : @Sys unit := Eval vm_compute in viaTick sendToGPUs exS10.
Definition exS12 : @Sys unit := Eval vm_compute in viaDeliver exS11.
Definition exS13 : @Sys unit :=
  Eval vm_compute in viaRespond (MShootDownCompleteRsp (exMeta 52%nat 10%nat)) exS12.
Definition exS14 : @Sys unit := Eval vm_compute in viaTick exProcessReturnReq exS13.
Definition exS15 : @Sys unit := Eval vm_compute in viaTick sendMigrationReqToCP exS14.
Definition exS16 : @Sys unit := Eval vm_compute in viaDeliver exS15.
Definition exS17 : @Sys unit :=
  Eval vm_compute in viaRespond (MPageMigrationRspToDriver (exMeta 53%nat 11%nat)) exS16.
Definition exS18 : @Sys unit := Eval vm_compute in viaTick exProcessReturnReq exS17.
Definition exS19 : @Sys unit := Eval vm_compute in viaTick sendToMMU exS18.

Lemma exNoMiddleware : @middlewares_respect_protocol unit [].
Proof. intros mw H. inversion H. Qed.

Lemma exStep_conv (s s' t t' : @Sys unit) :
  exStep s s' -> s = t -> s' = t' -> exStep t t'.
Proof. intros H -> ->. exact H. Qed.

Definition exHead (l : list Msg) : Msg :=
  hd (MOther 0 (exMeta 0%nat 0%nat)) l.

(** One step of the run, from [s] to the evaluated state [t]. *)
Ltac ex_tick con f s t :=
  apply (exStep_conv {| drv := drv s; atGPUs := atGPUs s |}
           {| drv := drv t; atGPUs := atGPUs s |} s t);
  [ apply (con (drv s) (atGPUs s) true (drv t)); vm_compute; reflexivity
  | reflexivity | vm_compute; reflexivity ].

Ltac ex_deliver s t :=
  apply (exStep_conv s (viaDeliver s) s t);
  [ apply (step_deliver [] exAllocate exOrder (drv s) (atGPUs s)
             (exHead (outgoing (gpuPort (drv s))))
             (tail (outgoing (gpuPort (drv s)))));
    vm_compute; reflexivity
  | reflexivity | vm_compute; reflexivity ].

Ltac ex_respond r s t :=
  apply (exStep_conv s (viaRespond r s) s t);
  [ apply (step_respond [] exAllocate exOrder (drv s) []
             (exHead (atGPUs s)) (tail (atGPUs s)) r); exact I
  | reflexivity | vm_compute; reflexivity ].

Ltac ex_next R := apply (reachable_step [] exAllocate exOrder _ _ R).

Lemma exReachable_9 : exReachable exS9.
Proof.
  assert (R0 : exReachable exS0).
  { apply reachable_initial. repeat split; try reflexivity.
    intros []; reflexivity. }
  assert (R1 : exReachable exS1).
  { ex_next R0.
    apply (step_mmu_send [] exAllocate exOrder exDriver []
             (MPageMigrationReqToDriver exRequest)).
    intros m H. inversion H; subst m. split; vm_compute; reflexivity. }
  assert (R2 : exReachable exS2)
    by (ex_next R1; ex_tick (step_parseFromMMU [] exAllocate exOrder)
                      (@parseFromMMU unit) exS1 exS2).
  assert (R3 : exReachable exS3)
    by (ex_next R2; ex_tick (step_sendToGPUs [] exAllocate exOrder)
                      (@sendToGPUs unit) exS2 exS3).
  assert (R4 : exReachable exS4) by (ex_next R3; ex_deliver exS3 exS4).
  assert (R5 : exReachable exS5)
    by (ex_next R4;
        ex_respond (MRDMADrainRspToDriver (exMeta 50%nat 10%nat)) exS4 exS5).
  assert (R6 : exReachable exS6)
    by (ex_next R5; ex_tick (step_processReturnReq [] exAllocate exOrder)
                      exProcessReturnReq exS5 exS6).
  assert (R7 : exReachable exS7)
    by (ex_next R6; ex_tick (step_sendToGPUs [] exAllocate exOrder)
                      (@sendToGPUs unit) exS6 exS7).
  assert (R8 : exReachable exS8) by (ex_next R7; ex_deliver exS7 exS8).
  ex_next R8.
  ex_respond (MRDMADrainRspToDriver (exMeta 51%nat 11%nat)) exS8 exS9.
Qed.

Lemma exStep_10 : exStep exS9 exS10.
Proof.
  ex_tick (step_processReturnReq [] exAllocate exOrder)
    exProcessReturnReq exS9 exS10.
Qed.

Lemma exReachable_14 : exReachable exS14.
Proof.
  assert (R10 : exReachable exS10)
    by (ex_next exReachable_9; exact exStep_10).
  assert (R11 : exReachable exS11)
    by (ex_next R10; ex_tick (step_sendToGPUs [] exAllocate exOrder)
                       (@sendToGPUs unit) exS10 exS11).
  assert (R12 : exReachable exS12) by (ex_next R11; ex_deliver exS11 exS12).
  assert (R13 : exReachable exS13)
    by (ex_next R12;
        ex_respond (MShootDownCompleteRsp (exMeta 52%nat 10%nat)) exS12 exS13).
  ex_next R13.
  ex_tick (step_processReturnReq [] exAllocate exOrder)
    exProcessReturnReq exS13 exS14.
Qed.


Lemma ack_counters_follow_phases_witness :
  exReachable exS9 /\ exStep exS9 exS10 /\
  counters_move exOrder exS9 exS10 /\
  ctr DrainRDMA (drv exS9) = 1 /\ ctr DrainRDMA (drv exS10) = 0 /\
  ctr Shootdown (drv exS10) = 1 /\
  fanout exOrder Shootdown (drv exS10) = 1.
Proof.
  split; [exact exReachable_9|]. split; [exact exStep_10|].
  split; [|repeat split; vm_compute; reflexivity].
  apply (ack_counters_follow_phases [] exAllocate exOrder
           exS9 exS10 exNoMiddleware exReachable_9 exStep_10).
Defined.

Lemma one_page_migration_in_flight_witness :
  exReachable exS14 /\
  (inflightPages exS14 <= 1)%nat /\
  exists b d1, sendMigrationReqToCP (drv exS14) = Ok (b, d1).
Proof.
  split; [exact exReachable_14|].
  destruct (one_page_migration_in_flight [] exAllocate exOrder
              exS14 exNoMiddleware exReachable_14)
    as (H1 & _ & (b & d1 & H3 & _) & _).
  split; [exact H1|]. exists b, d1. exact H3.
Defined.


Lemma unified_launch_partition_witness :
  contexts exDriver !! 0%nat = Some exContext /\
  queues exContext !! 0%nat = Some exQueue /\
  packet_ok exPacket /\
  exists wgDist d' reqs,
    distributeWGToGPUs exDriver exQueue exCommand = Ok wgDist /\
    processUnifiedMultiGPULaunchKernelCommand exCommand 0 0 exDriver
    = Ok (true, d') /\
    requestsToSend d' = requestsToSend exDriver ++ map MLaunchKernelReq reqs /\
    wgDist !! 0%nat = Some 0.
Proof.
  assert (Hok : packet_ok exPacket)
    by (unfold packet_ok; repeat split; vm_compute;
        first [reflexivity | discriminate]).
  split; [reflexivity|]. split; [reflexivity|]. split; [exact Hok|].
  destruct (unified_launch_partition exDriver 0 0 exCommand exContext exQueue
              {| dev_ID := 3; UnifiedGPUIDs := [1; 2]; CUCount := 0;
                 DRAMSize := 0 |}
              exPacket [4; 3])
    as (wgDist & d' & reqs & H1 & H2 & H3 & _ & H5 & _);
    try reflexivity; try exact Hok.
  - repeat constructor; eexists; split; reflexivity.
  - repeat constructor; lia.
  - repeat constructor; eexists; reflexivity.
  - exists wgDist, d', reqs. auto.
Defined.

(** ** Further runs of the concrete driver *)

Lemma sendShootDownReqs_targets_witness :
  currentPageMigrationReq exMigrating = Some exRequest /\
  Z.of_nat (length (GPUs exMigrating)) < 2 ^ 64 /\
  Forall (fun a => 0 <= a < 2 ^ 64) (CurrAccessingGPUs exRequest) /\
  exists ms d',
    sendShootDownReqs exMigrating = Ok (true, d') /\
    Forall2 (fun a meta => GPUs exMigrating !! Z.to_nat (a - 1)
                           = Some (Dst meta))
      (CurrAccessingGPUs exRequest) ms.
Proof.
  assert (H1 : currentPageMigrationReq exMigrating = Some exRequest)
    by reflexivity.
  assert (H2 : Z.of_nat (length (GPUs exMigrating)) < 2 ^ 64) by reflexivity.
  assert (H3 : Forall (fun a => 0 <= a < 2 ^ 64) (CurrAccessingGPUs exRequest))
    by (repeat constructor; vm_compute; congruence).
  split; [exact H1|]. split; [exact H2|]. split; [exact H3|].
  destruct (sendShootDownReqs_targets exMigrating exRequest H1 H2 H3)
    as [Hin _].
  destruct Hin as (ms & d' & Hrun & _ & Hdst & _).
  - repeat constructor; vm_compute; congruence.
  - exists ms, d'. split; [exact Hrun | exact Hdst].
Defined.

Lemma restart_addresses_the_GPUs_shot_down_witness :
  exists d1' d2',
    sendShootDownReqs exMigrating = Ok (true, d1') /\
    prepareGPURestartReqs exMigrating = Ok (tt, d2') /\
    numRestartACK d2' = 1.
Proof.
  set (d1' := snd (runOr (false, exDriver) (sendShootDownReqs exMigrating))).
  assert (E : sendShootDownReqs exMigrating = Ok (true, d1'))
    by (vm_compute; reflexivity).
  destruct (restart_addresses_the_GPUs_shot_down exMigrating exMigrating
              exRequest true d1' eq_refl eq_refl eq_refl E)
    as (d2' & ks & kr & Hrun & _ & _ & _ & Hlen & Hack).
  exists d1', d2'. split; [exact E|]. split; [exact Hrun|].
  rewrite Hack, Hlen. reflexivity.
Defined.

Lemma counters_count_outstanding_witness :
  exReachable exS14 /\
  ctr Migrate (drv exS14) = Z.of_nat (outstanding Migrate exS14) /\
  outstanding Migrate exS14 = 1%nat.
Proof.
  split; [exact exReachable_14|].
  destruct (counters_count_outstanding [] exAllocate exOrder exS14
              exNoMiddleware exReachable_14) as (H & _).
  split; [exact (H Migrate) | vm_compute; reflexivity].
Defined.

Definition exPlainQueue : CommandQueue :=
  {| IsRunning := false; GPUID := 1; commands := [CLaunchUnified exCommand] |}.

Lemma distributeWGToGPUs_division_by_zero_witness :
  index (devices exDriver) (GPUID exPlainQueue)
  = Ok {| dev_ID := 1; UnifiedGPUIDs := []; CUCount := 4; DRAMSize := 4096 |} /\
  PacketArray exCommand !! 0%nat = Some exPacket /\
  distributeWGToGPUs exDriver exPlainQueue exCommand = Panic DivideByZero.
Proof.
  split; [reflexivity|]. split; [reflexivity|].
  destruct (distributeWGToGPUs_division_by_zero exDriver exPlainQueue
              exCommand
              {| dev_ID := 1; UnifiedGPUIDs := []; CUCount := 4;
                 DRAMSize := 4096 |}
              exPacket eq_refl eq_refl) as (_ & H & _).
  apply H; [reflexivity|].
  unfold packet_ok; repeat split; vm_compute;
    first [reflexivity | discriminate].
Defined.

Lemma requesting_GPUs_are_the_registered_keys_witness :
  Z.of_nat (length (GPUs exDriver)) < 2 ^ 64 /\
  StronglySorted Z.lt
    (findRequestingGPUs exDriver (GPUReqToVAddrMap exRequest)) /\
  1 ∈ findRequestingGPUs exDriver (GPUReqToVAddrMap exRequest).
Proof.
  assert (H : Z.of_nat (length (GPUs exDriver)) < 2 ^ 64) by reflexivity.
  split; [exact H|].
  destruct (requesting_GPUs_are_the_registered_keys exDriver
              (GPUReqToVAddrMap exRequest) H) as (Hs & Hin & _).
  split; [exact Hs|].
  apply Hin. split; [vm_compute; split; congruence|].
  exists [4096]. reflexivity.
Defined.

Lemma preparePageMigrationRspToMMU_lists_migrated_witness :
  currentPageMigrationReq exMigrating = Some exRequest /\
  Z.of_nat (length (GPUs exMigrating)) < 2 ^ 64 /\
  exists rsp d',
    preparePageMigrationRspToMMU exOrder exMigrating = Ok (tt, d') /\
    toSendToMMU d' = Some rsp /\ OriginalReq rsp = exRequest /\
    4096 ∈ rsp_VAddr rsp.
Proof.
  assert (H1 : currentPageMigrationReq exMigrating = Some exRequest)
    by reflexivity.
  assert (H2 : Z.of_nat (length (GPUs exMigrating)) < 2 ^ 64) by reflexivity.
  split; [exact H1|]. split; [exact H2|].
  destruct (preparePageMigrationRspToMMU_lists_migrated exOrder exOrder_perm
              exMigrating exRequest H1 H2)
    as (rsp & d' & Hrun & Hto & Ho & _ & _ & _ & _ & _ & Hin).
  exists rsp, d'. split; [exact Hrun|]. split; [exact Hto|].
  split; [exact Ho|].
  apply Hin. exists 1, [4096].
  split; [vm_compute; split; congruence|].
  split; [reflexivity|]. apply list_elem_of_singleton. reflexivity.
Defined.

(** ** An idle driver and a plain launch *)

Definition exBusyQueue : CommandQueue :=
  {| IsRunning := true; GPUID := 1; commands := [CNoop 0%nat] |}.

Definition exEmptyQueue : CommandQueue :=
  {| IsRunning := false; GPUID := 2; commands := [] |}.

Definition exIdle : @Driver unit :=
  set_contexts
    [ {| pid := 1; queues := [exBusyQueue; exEmptyQueue]; l2Dirty := false;
         buffers := [] |} ] exDriver.

Lemma Tick_idle_witness :
  Tick [] exAllocate exOrder exIdle = Ok (false, exIdle).
Proof.
  apply (Tick_idle [] exAllocate exOrder exIdle eq_refl eq_refl eq_refl
           eq_refl (or_intror eq_refl)).
  - constructor; [|constructor].
    constructor; [right; reflexivity|].
    constructor; [left; reflexivity | constructor].
  - intros mw H. inversion H.
Defined.

Definition exLaunch : LaunchKernelCommand :=
  {| lk_ID := 2%nat; lk_CodeObject := 5%nat; lk_Packet := exPacket;
     lk_DPacket := 256; lk_Reqs := [] |}.

Definition exLaunchQueue : CommandQueue :=
  {| IsRunning := false; GPUID := 2; commands := [CLaunchKernel exLaunch] |}.

Definition exLaunchContext : Context :=
  {| pid := 1; queues := [exLaunchQueue]; l2Dirty := false; buffers := [] |}.

Definition exLaunching : @Driver unit :=
  set_contexts [exLaunchContext] exDriver.

Lemma processLaunchKernelCommand_spec_witness :
  contexts exLaunching !! 0%nat = Some exLaunchContext /\
  queues exLaunchContext !! 0%nat = Some exLaunchQueue /\
  commands exLaunchQueue = [CLaunchKernel exLaunch] /\
  - 2 ^ 63 < GPUID exLaunchQueue < 2 ^ 63 /\
  exists d' ctx',
    processLaunchKernelCommand exLaunch 0 0 exLaunching = Ok (true, d') /\
    contexts d' !! 0%nat = Some ctx' /\ l2Dirty ctx' = true /\
    nextMsgID d' = S (nextMsgID exLaunching).
Proof.
  assert (H : - 2 ^ 63 < GPUID exLaunchQueue < 2 ^ 63)
    by (vm_compute; split; reflexivity).
  split; [reflexivity|]. split; [reflexivity|]. split; [reflexivity|].
  split; [exact H|].
  destruct (processLaunchKernelCommand_spec exLaunch 0 0 exLaunching
              exLaunchContext exLaunchQueue [] eq_refl eq_refl eq_refl H)
    as [Hin _].
  destruct (Hin 11%nat eq_refl) as (d' & ctx' & Hrun & _ & Hn & Hc & _ & Hd & _).
  - vm_compute. discriminate.
  - exists d', ctx'. auto.
Defined.

Definition exRegisterDevice (dev : Device) (a : unit) : unit := a.

Definition exThreeDevices : @Driver unit :=
  set_devices (take 3 exDevices) exDriver.

Lemma exThreeDevices_by_ID : devices_by_ID exThreeDevices.
Proof.
  split; [reflexivity|].
  intros i dev H. destruct i as [|[|[|i]]]; inversion H; reflexivity.
Qed.

Lemma RegisterGPU_keeps_devices_by_ID_witness :
  devices_by_ID exThreeDevices /\
  Z.of_nat (length (GPUs exThreeDevices)) < 2 ^ 63 - 1 /\
  exists d' dev,
    RegisterGPU exRegisterDevice 12%nat 8 4096 exThreeDevices = Ok (tt, d') /\
    devices_by_ID d' /\ dev_ID dev = 3 /\
    index (devices d') (dev_ID dev) = Ok dev /\
    index (GPUs d') (int (dev_ID dev - 1)) = Ok 12%nat.
Proof.
  assert (H : Z.of_nat (length (GPUs exThreeDevices)) < 2 ^ 63 - 1)
    by reflexivity.
  split; [exact exThreeDevices_by_ID|]. split; [exact H|].
  destruct (RegisterGPU_keeps_devices_by_ID exRegisterDevice 12%nat 8 4096
              exThreeDevices exThreeDevices_by_ID H)
    as (d' & dev & Hrun & Hby & Hn & Hid & _ & _ & Hdev & Hport & _).
  exists d', dev. split; [exact Hrun|]. split; [exact Hby|].
  split; [rewrite Hid, Hn; reflexivity|]. split; [exact Hdev | exact Hport].
Defined.

Lemma exLaunching_no_head_request :
  no_head_request exLaunching (nextMsgID exLaunching).
Proof.
  intros ctx q cmd r Hc Hq Hp Hr.
  apply list_elem_of_singleton in Hc. subst ctx.
  apply list_elem_of_singleton in Hq. subst q.
  inversion Hp; subst cmd. inversion Hr.
Qed.

Lemma launched_request_is_found_witness :
  no_head_request exLaunching (nextMsgID exLaunching) /\
  exists d' req cmd',
    processLaunchKernelCommand exLaunch 0 0 exLaunching = Ok (true, d') /\
    findCommandByReqID d' (nextMsgID exLaunching)
    = Ok (MLaunchKernelReq req, CLaunchKernel cmd', 0%nat, 0%nat) /\
    Dst (lkr_meta req) = 11%nat.
Proof.
  split; [exact exLaunching_no_head_request|].
  set (d' := snd (runOr (false, exDriver)
                    (processLaunchKernelCommand exLaunch 0 0 exLaunching))).
  assert (E : processLaunchKernelCommand exLaunch 0 0 exLaunching
              = Ok (true, d')) by (vm_compute; reflexivity).
  assert (H : - 2 ^ 63 < GPUID exLaunchQueue < 2 ^ 63)
    by (vm_compute; split; reflexivity).
  assert (H1 : 1 <= GPUID exLaunchQueue) by (vm_compute; discriminate).
  destruct (launched_request_is_found exLaunch 0 0 exLaunching
              exLaunchContext exLaunchQueue [] 11%nat d'
              eq_refl eq_refl eq_refl H H1 eq_refl
              exLaunching_no_head_request E)
    as (req & cmd' & Hf & _ & _ & Hd & _).
  exists d', req, cmd'. auto.
Defined.

(** ** A migration of a page no GPU is accessing *)

Definition exUnshared : PageMigrationReqToDriver :=
  {| pmd_meta := {| ID := 101%nat; Src := 30%nat; Dst := 1%nat |};
     GPUReqToVAddrMap := {[ 1 := [4096] ]};
     CurrAccessingGPUs := []; pmd_PID := 1; CurrPageHostGPU := 2;
     pmd_PageSize := 4096; RespondToTop := true |}.

Definition exLone : @Driver unit := set_GPUs [10%nat] exDriver.

Definition exT0 : @Sys unit := {| drv := exLone; atGPUs := [] |}.
Definition exT1 : @Sys unit :=
  Eval vm_compute in
    {| drv := set_mmuPort
                (setIncoming [MPageMigrationReqToDriver exUnshared]
                   (mmuPort exLone)) exLone;
       atGPUs := [] |}.
Definition exT2 : @Sys unit := Eval vm_compute in viaTick parseFromMMU exT1.
Definition exT3 : @Sys unit := Eval vm_compute in viaTick sendToGPUs exT2.
Definition exT4 : @Sys unit := Eval vm_compute in viaDeliver exT3.
Definition exT5 : @Sys unit :=
  Eval vm_compute in
    viaRespond (MRDMADrainRspToDriver (exMeta 50%nat 10%nat)) exT4.
Definition exT6 : @Sys unit :=
  Eval vm_compute in viaTick exProcessReturnReq exT5.
Definition exT7 : @Sys unit :=
  Eval vm_compute in
    {| drv := set_mmuPort
                (setIncoming [MPageMigrationReqToDriver exRequest]
                   (mmuPort (drv exT6))) (drv exT6);
       atGPUs := atGPUs exT6 |}.

Lemma exReachable_T5 : exReachable exT5.
Proof.
  assert (R0 : exReachable exT0).
  { apply reachable_initial. repeat split; try reflexivity.
    intros []; reflexivity. }
  assert (R1 : exReachable exT1).
  { ex_next R0.
    apply (exStep_conv exT0
             {| drv := set_mmuPort
                         (setIncoming (incoming (mmuPort exLone)
                                       ++ [MPageMigrationReqToDriver exUnshared])
                            (mmuPort exLone)) exLone;
                atGPUs := [] |} exT0 exT1);
      [|reflexivity | vm_compute; reflexivity].
    apply (step_mmu_send [] exAllocate exOrder exLone []
             (MPageMigrationReqToDriver exUnshared)).
    intros m H. inversion H; subst m. split; vm_compute; reflexivity. }
  assert (R2 : exReachable exT2)
    by (ex_next R1; ex_tick (step_parseFromMMU [] exAllocate exOrder)
                      (@parseFromMMU unit) exT1 exT2).
  assert (R3 : exReachable exT3)
    by (ex_next R2; ex_tick (step_sendToGPUs [] exAllocate exOrder)
                      (@sendToGPUs unit) exT2 exT3).
  assert (R4 : exReachable exT4) by (ex_next R3; ex_deliver exT3 exT4).
  ex_next R4.
  ex_respond (MRDMADrainRspToDriver (exMeta 50%nat 10%nat)) exT4 exT5.
Qed.

Lemma exStep_T6 : exStep exT5 exT6.
Proof.
  ex_tick (step_processReturnReq [] exAllocate exOrder)
    exProcessReturnReq exT5 exT6.
Qed.

Lemma exStep_T7 : exStep exT6 exT7.
Proof.
  apply (exStep_conv {| drv := drv exT6; atGPUs := atGPUs exT6 |}
           {| drv := set_mmuPort
                       (setIncoming (incoming (mmuPort (drv exT6))
                                     ++ [MPageMigrationReqToDriver exRequest])
                          (mmuPort (drv exT6))) (drv exT6);
              atGPUs := atGPUs exT6 |} exT6 exT7);
    [|reflexivity | vm_compute; reflexivity].
  apply (step_mmu_send [] exAllocate exOrder (drv exT6) (atGPUs exT6)
           (MPageMigrationReqToDriver exRequest)).
  intros m H. inversion H; subst m. split; vm_compute; reflexivity.
Qed.

Lemma exStalled_T6 : stalled exT6.
Proof. split; [reflexivity|]. intros []; reflexivity. Qed.

Lemma stalled_migration_never_completes_witness :
  exReachable exT6 /\ stalled exT6 /\ exStep exT6 exT7 /\
  incoming (mmuPort (drv exT7)) = [MPageMigrationReqToDriver exRequest] /\
  parseFromMMU (drv exT7) = Ok (false, drv exT7).
Proof.
  assert (R : exReachable exT6)
    by (ex_next exReachable_T5; exact exStep_T6).
  split; [exact R|]. split; [exact exStalled_T6|]. split; [exact exStep_T7|].
  destruct (stalled_migration_never_completes [] exAllocate exOrder
              exT6 exT7 exNoMiddleware R exStalled_T6
              (rtc_once _ _ exStep_T7)) as (H1 & _ & _ & H4).
  split; [reflexivity | exact H4].
Defined.

Lemma migration_without_accessing_GPUs_stalls_witness :
  exReachable exT5 /\
  currentPageMigrationReq (drv exT5) = Some exUnshared /\
  CurrAccessingGPUs exUnshared = [] /\
  numRDMADrainACK (drv exT5) = 1 /\
  processReturnReq exAllocate exOrder (drv exT5) = Ok (true, drv exT6) /\
  stalled {| drv := drv exT6; atGPUs := atGPUs exT5 |}.
Proof.
  assert (E : processReturnReq exAllocate exOrder (drv exT5)
              = Ok (true, drv exT6)) by (vm_compute; reflexivity).
  split; [exact exReachable_T5|]. split; [reflexivity|].
  split; [reflexivity|]. split; [reflexivity|]. split; [exact E|].
  destruct (migration_without_accessing_GPUs_stalls [] exAllocate exOrder
              exT5 exUnshared (exMeta 50%nat 10%nat) [] true (drv exT6)
              exNoMiddleware exReachable_T5 eq_refl eq_refl eq_refl eq_refl E)
    as (_ & H & _).
  exact H.
Defined.

(** ** Queues of no-ops *)

Definition exNoopQueue : CommandQueue :=
  {| IsRunning := false; GPUID := 1;
     commands := [CNoop 0%nat; CNoop 1%nat] |}.

Definition exNoops : @Driver unit :=
  set_contexts
    [ {| pid := 1; queues := [exNoopQueue; exBusyQueue; exEmptyQueue];
         l2Dirty := false; buffers := [] |} ] exDriver.

Lemma processNewCommand_serves_every_queue_witness :
  Forall (fun c => Forall noopAhead (queues c)) (contexts exNoops) /\
  exists d',
    processNewCommand [] exNoops = Ok (true, d') /\
    contexts d'
    = [ {| pid := 1;
           queues := [Dequeue exNoopQueue; exBusyQueue; exEmptyQueue];
           l2Dirty := false; buffers := [] |} ].
Proof.
  assert (H : Forall (fun c => Forall noopAhead (queues c))
                (contexts exNoops)).
  { constructor; [|constructor].
    constructor; [intros _; exists 0%nat; reflexivity|].
    constructor; [intros Hw; discriminate Hw|].
    constructor; [intros Hw; discriminate Hw | constructor]. }
  split; [exact H|].
  destruct (processNewCommand_serves_every_queue [] exNoops H)
    as (d' & H1 & H2 & _).
  exists d'. split; [exact H1 | exact H2].
Defined.

Lemma sendToGPUs_in_order_witness :
  length (requestsToSend (drv exS2)) = 2%nat /\
  requestsToSend (sendToGPUsN 2 (drv exS2)) = [] /\
  outgoing (gpuPort (sendToGPUsN 2 (drv exS2))) = requestsToSend (drv exS2).
Proof.
  split; [reflexivity|].
  destruct (sendToGPUs_in_order 2 (drv exS2)) as (_ & _ & H).
  destruct H as [H1 H2]; [cbn; lia | cbn; lia |].
  split; [exact H1 | exact H2].
Defined.

(** ** One tick's sends and scan *)


